(** * BigGAN generator / discriminator blocks: shapes, skip paths and attention

    A shallow embedding of [BigGAN.py] (classes [ClassConditionalBatchNorm2d],
    [AttentionBlock], [GResidualBlock], [Generator], [DResidualBlock] and
    [Discriminator]) together with the part of the tensor library those
    classes call.

    Modelling decisions
    - a tensor is a shape (a list of integers) and its contents, a function
      from multi-indices to real numbers; floating point is idealised to
      the reals of the Standard Library;
    - an operation that raises in Python returns [None];
    - modules are records holding their sub-modules and parameters; a
      constructor [X.init] reads the initial parameter values from a store
      keyed by the parameter's dotted path, the way a state dict names them;
    - activations are rank 4 ([batch; channels; height; width]) as in every
      call of the source; operations are given on the ranks the source uses
      them at.  Modules are in training mode, which is how the notebook
      leaves them. *)

From Stdlib Require Import String ZArith List Bool Lia Reals Lra.
Import ListNotations.
Open Scope Z_scope.

(** ** Failure: a raised exception is [None] *)

Definition bind {A B : Type} (m : option A) (f : A -> option B) : option B :=
  match m with
  | Some a => f a
  | None => None
  end.

Notation "x <- m ;; k" := (bind m (fun x => k))
  (at level 61, m at next level, right associativity).
Notation "' pat <- m ;; k" := (bind m (fun x => match x with pat => k end))
  (at level 61, pat pattern, m at next level, right associativity).

Fixpoint mapM {A B : Type} (f : A -> option B) (l : list A) : option (list B) :=
  match l with
  | [] => Some []
  | a :: l' => b <- f a ;; bs <- mapM f l' ;; Some (b :: bs)
  end.

(** ** Tensors *)

Record Tensor : Type := mkTensor {
  shape : list Z;
  data : list Z -> R
}.

Definition numel (s : list Z) : Z := fold_right Z.mul 1 s.

Definition range (n : Z) : list Z := map Z.of_nat (seq 0 (Z.to_nat n)).

Fixpoint rsum_nat (n : nat) (f : Z -> R) : R :=
  match n with
  | O => 0%R
  | S k => (rsum_nat k f + f (Z.of_nat k))%R
  end.

(** [Rsum n f] is f 0 + ... + f (n-1). *)
Definition Rsum (n : Z) (f : Z -> R) : R := rsum_nat (Z.to_nat n) f.

(** The maximum of f over 0 .. n-1, for n >= 1. *)
Fixpoint rmax_nat (n : nat) (f : Z -> R) : R :=
  match n with
  | O => f 0
  | S O => f 0
  | S k => Rmax (rmax_nat k f) (f (Z.of_nat k))
  end.

Definition Rmaxs (n : Z) (f : Z -> R) : R := rmax_nat (Z.to_nat n) f.

(** An index is in range for a shape when it has the shape's rank and each
    component is within its dimension. *)
Definition in_range (s idx : list Z) : Prop :=
  Forall2 (fun d j => 0 <= j < d) s idx.


(** Row-major position of an index, and back. *)
Fixpoint ravel (s idx : list Z) : Z :=
  match s, idx with
  | _ :: s', j :: idx' => j * numel s' + ravel s' idx'
  | _, _ => 0
  end.

Fixpoint unravel (s : list Z) (i : Z) : list Z :=
  match s with
  | [] => []
  | _ :: s' => (i / numel s') :: unravel s' (i mod numel s')
  end.

Module torch.

(** A 0-dimensional tensor, [torch.tensor(c)]. *)
Definition tensor (c : R) : Tensor := {| shape := []; data := fun _ => c |}.

Definition map_elems (f : R -> R) (t : Tensor) : Tensor :=
  {| shape := shape t; data := fun idx => f (data t idx) |}.

(** Broadcasting, dimensions aligned from the right. *)
Fixpoint broadcast_rev (a b : list Z) : option (list Z) :=
  match a, b with
  | [], _ => Some b
  | _, [] => Some a
  | x :: a', y :: b' =>
      r <- broadcast_rev a' b' ;;
      if x =? y then Some (x :: r)
      else if x =? 1 then Some (y :: r)
      else if y =? 1 then Some (x :: r)
      else None
  end.

Definition broadcast_shapes (a b : list Z) : option (list Z) :=
  option_map (@rev Z) (broadcast_rev (rev a) (rev b)).

(** The operand's index for an index of the broadcast result. *)
Definition bidx (s idx : list Z) : list Z :=
  map (fun dj => if fst dj =? 1 then 0 else snd dj)
      (combine s (skipn (length idx - length s) idx)).

Definition binop (f : R -> R -> R) (a b : Tensor) : option Tensor :=
  s <- broadcast_shapes (shape a) (shape b) ;;
  Some {| shape := s;
          data := fun idx =>
            f (data a (bidx (shape a) idx)) (data b (bidx (shape b) idx)) |}.

Definition add : Tensor -> Tensor -> option Tensor := binop Rplus.
Definition mul : Tensor -> Tensor -> option Tensor := binop Rmult.

(** [c + t] for a Python number c. *)
Definition add_scalar (c : R) (t : Tensor) : Tensor :=
  map_elems (fun v => (c + v)%R) t.

Definition tanh (t : Tensor) : Tensor := map_elems Rtrigo_def.tanh t.

(** The sizes a [view] call resolves to, with at most one -1 to infer. *)
Definition infer_size (sizes : list Z) (n : Z) : option (list Z) :=
  if existsb (fun d => d <? -1) sizes then None
  else
    match count_occ Z.eq_dec sizes (-1) with
    | O => if numel sizes =? n then Some sizes else None
    | S O =>
        let p := numel (filter (fun d => negb (d =? -1)) sizes) in
        if p =? 0 then None
        else if n mod p =? 0
             then Some (map (fun d => if d =? -1 then n / p else d) sizes)
             else None
    | _ => None
    end.

Definition view (sizes : list Z) (t : Tensor) : option Tensor :=
  s <- infer_size sizes (numel (shape t)) ;;
  Some {| shape := s;
          data := fun idx => data t (unravel (shape t) (ravel s idx)) |}.

Definition swap (i j : nat) (l : list Z) : list Z :=
  map (fun k => nth (if Nat.eqb k i then j else if Nat.eqb k j then i else k) l 0)
      (seq 0 (length l)).

Definition transpose (d0 d1 : nat) (t : Tensor) : option Tensor :=
  if Nat.ltb d0 (length (shape t)) && Nat.ltb d1 (length (shape t))
  then Some {| shape := swap d0 d1 (shape t);
               data := fun idx => data t (swap d0 d1 idx) |}
  else None.

(** Batched matrix product of two rank-3 tensors. *)
Definition bmm (a b : Tensor) : option Tensor :=
  match shape a, shape b with
  | [Ba; n; m], [Bb; m'; p] =>
      if (Ba =? Bb) && (m =? m')
      then Some {| shape := [Ba; n; p];
                   data := fun idx =>
                     match idx with
                     | [b_; r; c] =>
                         Rsum m (fun k => (data a [b_; r; k] * data b [b_; k; c])%R)
                     | _ => 0%R
                     end |}
      else None
  | _, _ => None
  end.

(** [torch.sum(t, dim=d, keepdim=...)] over one dimension. *)
Definition sum_dim (d : nat) (keepdim : bool) (t : Tensor) : option Tensor :=
  if Nat.ltb d (length (shape t))
  then
    let n := nth d (shape t) 0 in
    Some {| shape := firstn d (shape t)
                     ++ (if keepdim then [1] else [])
                     ++ skipn (S d) (shape t);
            data := fun idx =>
              Rsum n (fun j =>
                data t (firstn d idx ++ j
                        :: skipn (if keepdim then S d else d) idx)) |}
  else None.

(** [torch.sum(t, dim=[2, 3])]. *)
Definition sum_dims23 (t : Tensor) : option Tensor :=
  t' <- sum_dim 3 false t ;; sum_dim 2 false t'.

(** [torch.split(t, split_size, dim=1)] on a rank-2 tensor: chunks of
    [split_size] columns, the last one shorter when the width is not a
    multiple. *)
Definition split (t : Tensor) (split_size : Z) : option (list Tensor) :=
  match shape t with
  | [B; D] =>
      if split_size <? 0 then None
      else if (split_size =? 0) && negb (D =? 0) then None
      else
        let n := Z.max ((D + split_size - 1) / split_size) 1 in
        Some (map (fun k =>
                {| shape := [B; Z.min split_size (D - k * split_size)];
                   data := fun idx =>
                     match idx with
                     | [b_; j] => data t [b_; k * split_size + j]
                     | _ => 0%R
                     end |})
                (range n))
  | _ => None
  end.

(** [torch.cat([a, b], dim=1)] on rank-2 tensors. *)
Definition cat (a b : Tensor) : option Tensor :=
  match shape a, shape b with
  | [Ba; Da], [Bb; Db] =>
      if Ba =? Bb
      then Some {| shape := [Ba; Da + Db];
                   data := fun idx =>
                     match idx with
                     | [b_; j] =>
                         if j <? Da then data a [b_; j] else data b [b_; j - Da]
                     | _ => 0%R
                     end |}
      else None
  | _, _ => None
  end.

(** [t[:, :, None, None]] on a rank-2 tensor. *)
Definition unsqueeze23 (t : Tensor) : option Tensor :=
  match shape t with
  | [B; C] =>
      Some {| shape := [B; C; 1; 1];
              data := fun idx =>
                match idx with
                | [b_; c; _; _] => data t [b_; c]
                | _ => 0%R
                end |}
  | _ => None
  end.

(** [t.flatten(start_dim)]: the dimensions from [start_dim] on merged into
    one; a 0-dimensional tensor counts as rank 1. *)
Definition flatten (start_dim : nat) (t : Tensor) : option Tensor :=
  if Nat.ltb start_dim (Nat.max 1 (length (shape t)))
  then Some {| shape := firstn start_dim (shape t)
                        ++ [numel (skipn start_dim (shape t))];
               data := fun idx =>
                 data t (firstn start_dim idx
                         ++ unravel (skipn start_dim (shape t))
                                    (nth start_dim idx 0)) |}
  else None.

(** [torch.dot(a, b)], defined on two 1-dimensional tensors of one length. *)
Definition dot (a b : Tensor) : option Tensor :=
  match shape a, shape b with
  | [n], [m] =>
      if n =? m
      then Some (tensor (Rsum n (fun i => (data a [i] * data b [i])%R)))
      else None
  | _, _ => None
  end.

Definition ones_like (t : Tensor) : Tensor :=
  {| shape := shape t; data := fun _ => 1%R |}.

(** [torch.eye(n)]. *)
Definition eye (n : Z) : option Tensor :=
  if 0 <=? n
  then Some {| shape := [n; n];
               data := fun idx =>
                 match idx with
                 | [i; j] => if i =? j then 1%R else 0%R
                 | _ => 0%R
                 end |}
  else None.

Definition sub : Tensor -> Tensor -> option Tensor := binop Rminus.

(** [torch.norm(t)], the Frobenius norm over every element. *)
Definition norm (t : Tensor) : Tensor :=
  tensor (sqrt (Rsum (numel (shape t))
                     (fun i => Rsqr (data t (unravel (shape t) i))))).

End torch.

(** ** [torch.nn.functional] *)

Module F.

Definition relu (t : Tensor) : Tensor := torch.map_elems (Rmax 0) t.

(** Output extent of a pooling window of size k moved by stride k. *)
Definition pool_out (n k : Z) : Z := (n - k) / k + 1.

(** [F.max_pool2d(t, kernel_size=k)]; the stride defaults to k.  An
    extent smaller than the window leaves no output row and raises. *)
Definition max_pool2d (t : Tensor) (k : Z) : option Tensor :=
  match shape t with
  | [B; C; H; W] =>
      if (1 <=? k) && (k <=? H) && (k <=? W)
      then Some {| shape := [B; C; pool_out H k; pool_out W k];
                   data := fun idx =>
                     match idx with
                     | [b_; c; h; w] =>
                         Rmaxs k (fun i => Rmaxs k (fun j =>
                           data t [b_; c; h * k + i; w * k + j]))
                     | _ => 0%R
                     end |}
      else None
  | _ => None
  end.

(** [F.avg_pool2d(t, k)], same window discipline. *)
Definition avg_pool2d (t : Tensor) (k : Z) : option Tensor :=
  match shape t with
  | [B; C; H; W] =>
      if (1 <=? k) && (k <=? H) && (k <=? W)
      then Some {| shape := [B; C; pool_out H k; pool_out W k];
                   data := fun idx =>
                     match idx with
                     | [b_; c; h; w] =>
                         (Rsum k (fun i => Rsum k (fun j =>
                            data t [b_; c; (h * k + i)%Z; (w * k + j)%Z]))
                          / IZR (k * k))%R
                     | _ => 0%R
                     end |}
      else None
  | _ => None
  end.

(** [F.softmax(t, dim=-1)]. *)
Definition softmax (t : Tensor) : Tensor :=
  {| shape := shape t;
     data := fun idx =>
       (exp (data t idx)
        / Rsum (last (shape t) 0%Z)
               (fun j => exp (data t (removelast idx ++ [j]))))%R |}.

End F.

(** ** [torch.nn] layers *)

Module nn.

(** A weight tensor and, when the layer is wrapped by
    [nn.utils.spectral_norm], the persisted power-iteration vector u. *)
Record Weight : Type := mkWeight {
  w_shape : list Z;
  w_orig : list Z -> R;
  w_u : option (list Z -> R)
}.

Definition norm2 (n : Z) (v : Z -> R) : R :=
  sqrt (Rsum n (fun i => (v i * v i)%R)).

Definition normalize (n : Z) (v : Z -> R) : Z -> R :=
  fun i => (v i / Rmax (norm2 n v) (/ 1000000000000))%R.

(** The estimate of the largest singular value after one power iteration
    from u, on the weight flattened to [rows x cols]. *)
Definition sigma (s : list Z) (w u : list Z -> R) : R :=
  let rows := hd 0 s in
  let cols := numel (tl s) in
  let wm := fun o j => w (o :: unravel (tl s) j) in
  let v := normalize cols (fun j => Rsum rows (fun o => (wm o j * u [o])%R)) in
  let wv := fun o => Rsum cols (fun j => (wm o j * v j)%R) in
  let u' := normalize rows wv in
  Rsum rows (fun o => (u' o * wv o)%R).

(** The weight a forward pass uses. *)
Definition weight (w : Weight) : list Z -> R :=
  match w_u w with
  | Some u => fun idx => (w_orig w idx / sigma (w_shape w) (w_orig w) u)%R
  | None => w_orig w
  end.

Definition is_spectral (w : Weight) : bool :=
  match w_u w with Some _ => true | None => false end.

(** Layers that carry a weight and can be wrapped. *)
Class Weighted (M : Type) : Type := {
  get_weight : M -> Weight;
  set_weight : Weight -> M -> M
}.

Record Conv2d : Type := mkConv2d {
  in_channels : Z;
  out_channels : Z;
  kernel_size : Z;
  padding : Z;
  conv_weight : Weight;
  conv_bias : option (list Z -> R)
}.

Record Linear : Type := mkLinear {
  in_features : Z;
  out_features : Z;
  lin_weight : Weight;
  lin_bias : option (list Z -> R)
}.

Record Embedding : Type := mkEmbedding {
  num_embeddings : Z;
  embedding_dim : Z;
  emb_weight : Weight
}.

Record BatchNorm2d : Type := mkBatchNorm2d {
  num_features : Z;
  bn_weight : list Z -> R;
  bn_bias : list Z -> R;
  running_mean : list Z -> R;
  running_var : list Z -> R;
  training : bool
}.

#[global] Instance Weighted_Conv2d : Weighted Conv2d := {
  get_weight := conv_weight;
  set_weight := fun w m =>
    mkConv2d (in_channels m) (out_channels m) (kernel_size m) (padding m)
             w (conv_bias m)
}.

#[global] Instance Weighted_Linear : Weighted Linear := {
  get_weight := lin_weight;
  set_weight := fun w m =>
    mkLinear (in_features m) (out_features m) w (lin_bias m)
}.

#[global] Instance Weighted_Embedding : Weighted Embedding := {
  get_weight := emb_weight;
  set_weight := fun w m => mkEmbedding (num_embeddings m) (embedding_dim m) w
}.

(** Initial parameter values, by dotted parameter path. *)
Definition store : Type := string -> list Z -> R.

Definition param (p : store) (path name : string) : list Z -> R :=
  p (path ++ "." ++ name)%string.

Definition Conv2d_init (p : store) (path : string)
    (in_channels out_channels kernel_size padding : Z) (bias : bool) : Conv2d :=
  {| in_channels := in_channels;
     out_channels := out_channels;
     kernel_size := kernel_size;
     padding := padding;
     conv_weight :=
       mkWeight [out_channels; in_channels; kernel_size; kernel_size]
                (param p path "weight") None;
     conv_bias := if bias then Some (param p path "bias") else None |}.

Definition Linear_init (p : store) (path : string)
    (in_features out_features : Z) (bias : bool) : Linear :=
  {| in_features := in_features;
     out_features := out_features;
     lin_weight :=
       mkWeight [out_features; in_features] (param p path "weight") None;
     lin_bias := if bias then Some (param p path "bias") else None |}.

Definition Embedding_init (p : store) (path : string)
    (num_embeddings embedding_dim : Z) : Embedding :=
  {| num_embeddings := num_embeddings;
     embedding_dim := embedding_dim;
     emb_weight :=
       mkWeight [num_embeddings; embedding_dim] (param p path "weight") None |}.

Definition BatchNorm2d_init (p : store) (path : string) (num_features : Z)
    : BatchNorm2d :=
  {| num_features := num_features;
     bn_weight := param p path "weight";
     bn_bias := param p path "bias";
     running_mean := param p path "running_mean";
     running_var := param p path "running_var";
     training := true |}.

(** [nn.utils.spectral_norm(m)]: m with its weight divided, at each
    forward, by the estimate of its largest singular value. *)
Definition spectral_norm {M : Type} `{Weighted M} (p : store) (path : string)
    (m : M) : M :=
  set_weight
    (mkWeight (w_shape (get_weight m)) (w_orig (get_weight m))
              (Some (param p path "weight_u")))
    m.

Definition bias_at (b : option (list Z -> R)) (o : Z) : R :=
  match b with
  | Some f => f [o]
  | None => 0%R
  end.

(** Stride 1, zero padding. *)
Definition Conv2d_forward (m : Conv2d) (x : Tensor) : option Tensor :=
  match shape x with
  | [B; C; H; W] =>
      let k := kernel_size m in
      let pd := padding m in
      if (C =? in_channels m) && (k <=? H + 2 * pd) && (k <=? W + 2 * pd)
      then
        Some {| shape := [B; out_channels m; H + 2 * pd - k + 1; W + 2 * pd - k + 1];
                data := fun idx =>
                  match idx with
                  | [b_; o; h; w] =>
                      (bias_at (conv_bias m) o
                       + Rsum C (fun c => Rsum k (fun i => Rsum k (fun j =>
                           let h' := (h + i - pd)%Z in
                           let w' := (w + j - pd)%Z in
                           weight (conv_weight m) [o; c; i; j]
                           * (if ((0 <=? h') && (h' <? H) && (0 <=? w') && (w' <? W))%Z
                              then data x [b_; c; h'; w']
                              else 0)))))%R
                  | _ => 0%R
                  end |}
      else None
  | _ => None
  end.

Definition Linear_forward (m : Linear) (x : Tensor) : option Tensor :=
  match shape x with
  | [B; D] =>
      if D =? in_features m
      then
        Some {| shape := [B; out_features m];
                data := fun idx =>
                  match idx with
                  | [b_; o] =>
                      (Rsum D (fun i => data x [b_; i] * weight (lin_weight m) [o; i])
                       + bias_at (lin_bias m) o)%R
                  | _ => 0%R
                  end |}
      else None
  | _ => None
  end.

(** Lookup of a batch of integer labels (a rank-1 tensor, here a list). *)
Definition Embedding_forward (m : Embedding) (y : list Z) : option Tensor :=
  if forallb (fun l => (0 <=? l) && (l <? num_embeddings m)) y
  then
    Some {| shape := [Z.of_nat (length y); embedding_dim m];
            data := fun idx =>
              match idx with
              | [b_; c] => weight (emb_weight m) [nth (Z.to_nat b_) y 0; c]
              | _ => 0%R
              end |}
  else None.

(** Per-channel statistics over batch and space. *)
Definition channel_mean (x : Tensor) (B H W c : Z) : R :=
  (Rsum B (fun b_ => Rsum H (fun h => Rsum W (fun w => data x [b_; c; h; w])))
   / IZR (B * H * W))%R.

Definition channel_var (x : Tensor) (B H W c : Z) : R :=
  (Rsum B (fun b_ => Rsum H (fun h => Rsum W (fun w =>
     Rsqr (data x [b_; c; h; w] - channel_mean x B H W c))))
   / IZR (B * H * W))%R.

Definition BatchNorm2d_forward (m : BatchNorm2d) (x : Tensor) : option Tensor :=
  match shape x with
  | [B; C; H; W] =>
      if negb (C =? num_features m) then None
      else if training m && (B * H * W =? 1) then None
      else
        Some {| shape := [B; C; H; W];
                data := fun idx =>
                  match idx with
                  | [b_; c; h; w] =>
                      let mu := if training m then channel_mean x B H W c
                                else running_mean m [c] in
                      let var := if training m then channel_var x B H W c
                                 else running_var m [c] in
                      ((data x idx - mu) / sqrt (var + / 100000)
                       * bn_weight m [c] + bn_bias m [c])%R
                  | _ => 0%R
                  end |}
  | _ => None
  end.

(** [nn.Upsample(scale_factor=s)], nearest neighbour. *)
Definition Upsample (s : Z) (x : Tensor) : option Tensor :=
  match shape x with
  | [B; C; H; W] =>
      Some {| shape := [B; C; H * s; W * s];
              data := fun idx =>
                match idx with
                | [b_; c; h; w] => data x [b_; c; h / s; w / s]
                | _ => 0%R
                end |}
  | _ => None
  end.

(** [nn.AvgPool2d(k)]. *)
Definition AvgPool2d (k : Z) (x : Tensor) : option Tensor := F.avg_pool2d x k.

(** [nn.ReLU()]. *)
Definition ReLU (x : Tensor) : Tensor := F.relu x.

(** [nn.Tanh()]. *)
Definition Tanh (x : Tensor) : Tensor := torch.tanh x.

End nn.

(** ** The classes of [BigGAN.py] *)


Module ClassConditionalBatchNorm2d.

Record t : Type := mk {
  bn : nn.BatchNorm2d;
  class_scale_transform : nn.Linear;
  class_shift_transform : nn.Linear
}.

Definition init (p : nn.store) (path : string) (in_channels out_channels : Z) : t :=
  {| bn := nn.BatchNorm2d_init p (path ++ ".bn") out_channels;
     class_scale_transform :=
       nn.spectral_norm p (path ++ ".class_scale_transform")
         (nn.Linear_init p (path ++ ".class_scale_transform")
                         in_channels out_channels false);
     class_shift_transform :=
       nn.spectral_norm p (path ++ ".class_shift_transform")
         (nn.Linear_init p (path ++ ".class_shift_transform")
                         in_channels out_channels false) |}.

Definition forward (self : t) (x y : Tensor) : option Tensor :=
  normalized_image <- nn.BatchNorm2d_forward (bn self) x ;;
  s <- nn.Linear_forward (class_scale_transform self) y ;;
  class_scale <- torch.unsqueeze23 (torch.add_scalar 1 s) ;;
  s' <- nn.Linear_forward (class_shift_transform self) y ;;
  class_shift <- torch.unsqueeze23 s' ;;
  scaled <- torch.mul class_scale normalized_image ;;
  torch.add scaled class_shift.

End ClassConditionalBatchNorm2d.

Module AttentionBlock.

Record t : Type := mk {
  channels : Z;
  theta : nn.Conv2d;
  phi : nn.Conv2d;
  g : nn.Conv2d;
  o : nn.Conv2d;
  gamma : R
}.

Definition init (p : nn.store) (path : string) (channels : Z) : t :=
  {| channels := channels;
     theta := nn.spectral_norm p (path ++ ".theta")
                (nn.Conv2d_init p (path ++ ".theta") channels (channels / 8) 1 0 false);
     phi := nn.spectral_norm p (path ++ ".phi")
              (nn.Conv2d_init p (path ++ ".phi") channels (channels / 8) 1 0 false);
     g := nn.spectral_norm p (path ++ ".g")
            (nn.Conv2d_init p (path ++ ".g") channels (channels / 2) 1 0 false);
     o := nn.spectral_norm p (path ++ ".o")
            (nn.Conv2d_init p (path ++ ".o") (channels / 2) channels 1 0 false);
     gamma := 0%R |}.

(** Query, key and value after the reshapes (source lines 169-179). *)
Definition projections (self : t) (x : Tensor)
    : option (Tensor * Tensor * Tensor) :=
  match shape x with
  | [_; _; H; W] =>
      let spatial_size := H * W in
      theta0 <- nn.Conv2d_forward (theta self) x ;;
      phi0 <- nn.Conv2d_forward (phi self) x ;;
      phi1 <- F.max_pool2d phi0 2 ;;
      g0 <- nn.Conv2d_forward (g self) x ;;
      g1 <- F.max_pool2d g0 2 ;;
      theta' <- torch.view [-1; channels self / 8; spatial_size] theta0 ;;
      phi' <- torch.view [-1; channels self / 8; spatial_size / 4] phi1 ;;
      g' <- torch.view [-1; channels self / 2; spatial_size / 4] g1 ;;
      Some (theta', phi', g')
  | _ => None
  end.

(** The attention weights (source line 182). *)
Definition attention (theta' phi' : Tensor) : option Tensor :=
  thetaT <- torch.transpose 1 2 theta' ;;
  s <- torch.bmm thetaT phi' ;;
  Some (F.softmax s).

Definition forward (self : t) (x : Tensor) : option Tensor :=
  match shape x with
  | [_; _; H; W] =>
      ' (theta', phi', g') <- projections self x ;;
      beta <- attention theta' phi' ;;
      betaT <- torch.transpose 1 2 beta ;;
      gb <- torch.bmm g' betaT ;;
      gv <- torch.view [-1; channels self / 2; H; W] gb ;;
      o' <- nn.Conv2d_forward (o self) gv ;;
      scaled <- torch.mul (torch.tensor (gamma self)) o' ;;
      torch.add scaled x
  | _ => None
  end.

End AttentionBlock.

Module GResidualBlock.

Record t : Type := mk {
  conv1 : nn.Conv2d;
  conv2 : nn.Conv2d;
  bn1 : ClassConditionalBatchNorm2d.t;
  bn2 : ClassConditionalBatchNorm2d.t;
  upsample_scale : Z;
  mixin : bool;
  conv_mixin : option nn.Conv2d
}.

Definition init (p : nn.store) (path : string)
    (c_dim in_channels out_channels : Z) : t :=
  {| conv1 := nn.spectral_norm p (path ++ ".conv1")
                (nn.Conv2d_init p (path ++ ".conv1") in_channels out_channels 3 1 true);
     conv2 := nn.spectral_norm p (path ++ ".conv2")
                (nn.Conv2d_init p (path ++ ".conv2") out_channels out_channels 3 1 true);
     bn1 := ClassConditionalBatchNorm2d.init p (path ++ ".bn1") c_dim in_channels;
     bn2 := ClassConditionalBatchNorm2d.init p (path ++ ".bn2") c_dim out_channels;
     upsample_scale := 2;
     mixin := negb (in_channels =? out_channels);
     conv_mixin :=
       if negb (in_channels =? out_channels)
       then Some (nn.spectral_norm p (path ++ ".conv_mixin")
                    (nn.Conv2d_init p (path ++ ".conv_mixin")
                                    in_channels out_channels 1 0 true))
       else None |}.

Definition activation : Tensor -> Tensor := nn.ReLU.

Definition upsample_fn (self : t) : Tensor -> option Tensor :=
  nn.Upsample (upsample_scale self).

Definition forward (self : t) (x y : Tensor) : option Tensor :=
  h <- ClassConditionalBatchNorm2d.forward (bn1 self) x y ;;
  h <- upsample_fn self (activation h) ;;
  h <- nn.Conv2d_forward (conv1 self) h ;;
  h <- ClassConditionalBatchNorm2d.forward (bn2 self) h y ;;
  h <- nn.Conv2d_forward (conv2 self) (activation h) ;;
  x <- upsample_fn self x ;;
  x <- (if mixin self
        then c <- conv_mixin self ;; nn.Conv2d_forward c x
        else Some x) ;;
  torch.add h x.

End GResidualBlock.

Module Generator.

Record t : Type := mk {
  z_chunk_size : Z;
  z_dim : Z;
  shared_dim : Z;
  bottom_width : Z;
  shared_emb : nn.Embedding;
  proj_z : nn.Linear;
  g_blocks : list (GResidualBlock.t * AttentionBlock.t);
  proj_o_bn : nn.BatchNorm2d;
  proj_o_conv : nn.Conv2d
}.

Definition n_chunks : Z := 6.

Definition stage (p : nn.store) (i : string) (c_dim cin cout : Z)
    : GResidualBlock.t * AttentionBlock.t :=
  (GResidualBlock.init p ("g_blocks." ++ i ++ ".0") c_dim cin cout,
   AttentionBlock.init p ("g_blocks." ++ i ++ ".1") cout).

Definition init (p : nn.store)
    (base_channels bottom_width z_dim shared_dim n_classes : Z) : t :=
  let z_chunk_size := z_dim / n_chunks in
  let c_dim := shared_dim + z_chunk_size in
  {| z_chunk_size := z_chunk_size;
     z_dim := z_dim;
     shared_dim := shared_dim;
     bottom_width := bottom_width;
     shared_emb := nn.Embedding_init p "shared_emb" n_classes shared_dim;
     proj_z := nn.Linear_init p "proj_z" z_chunk_size
                 (16 * base_channels * bottom_width ^ 2) true;
     g_blocks :=
       [ stage p "0" c_dim (16 * base_channels) (16 * base_channels);
         stage p "1" c_dim (16 * base_channels) (8 * base_channels);
         stage p "2" c_dim (8 * base_channels) (4 * base_channels);
         stage p "3" c_dim (4 * base_channels) (2 * base_channels);
         stage p "4" c_dim (2 * base_channels) base_channels ];
     proj_o_bn := nn.BatchNorm2d_init p "proj_o.0" base_channels;
     proj_o_conv := nn.spectral_norm p "proj_o.2"
                      (nn.Conv2d_init p "proj_o.2" base_channels 3 1 0 true) |}.

(** [self.proj_o]: batch norm, ReLU, 1x1 convolution, tanh. *)
Definition proj_o (self : t) (h : Tensor) : option Tensor :=
  h <- nn.BatchNorm2d_forward (proj_o_bn self) h ;;
  h <- nn.Conv2d_forward (proj_o_conv self) (nn.ReLU h) ;;
  Some (nn.Tanh h).

(** Source lines 322-324: the chunks of z, and the conditioning vectors
    built from all chunks but the first. *)
Definition chunks (self : t) (z y : Tensor) : option (list Tensor * list Tensor) :=
  zs <- torch.split z (z_chunk_size self) ;;
  ys <- mapM (fun zi => torch.cat y zi) (tl zs) ;;
  Some (zs, ys).

(** Source lines 327-328. *)
Definition project (self : t) (z0 : Tensor) : option Tensor :=
  h <- nn.Linear_forward (proj_z self) z0 ;;
  torch.view [hd 0 (shape h); -1; bottom_width self; bottom_width self] h.

(** The loop over [enumerate(self.g_blocks)]. *)
Fixpoint run_blocks (blocks : list (GResidualBlock.t * AttentionBlock.t))
    (ys : list Tensor) (idx : nat) (h : Tensor) : option Tensor :=
  match blocks with
  | [] => Some h
  | g_block :: rest =>
      y <- nth_error ys idx ;;
      h <- GResidualBlock.forward (fst g_block) h y ;;
      h <- AttentionBlock.forward (snd g_block) h ;;
      run_blocks rest ys (S idx) h
  end.

Definition forward (self : t) (z y : Tensor) : option Tensor :=
  ' (zs, ys) <- chunks self z y ;;
  z0 <- nth_error zs 0 ;;
  h <- project self z0 ;;
  h <- run_blocks (g_blocks self) ys 0 h ;;
  proj_o self h.

End Generator.

Module DResidualBlock.

Record t : Type := mk {
  conv1 : nn.Conv2d;
  conv2 : nn.Conv2d;
  use_preactivation : bool;
  downsample : bool;
  downsample_kernel : option Z;
  mixin : bool;
  conv_mixin : option nn.Conv2d
}.

Definition init (p : nn.store) (path : string) (in_channels out_channels : Z)
    (downsample use_preactivation : bool) : t :=
  {| conv1 := nn.spectral_norm p (path ++ ".conv1")
                (nn.Conv2d_init p (path ++ ".conv1") in_channels out_channels 3 1 true);
     conv2 := nn.spectral_norm p (path ++ ".conv2")
                (nn.Conv2d_init p (path ++ ".conv2") out_channels out_channels 3 1 true);
     use_preactivation := use_preactivation;
     downsample := downsample;
     downsample_kernel := if downsample then Some 2 else None;
     mixin := negb (in_channels =? out_channels) || downsample;
     conv_mixin :=
       if negb (in_channels =? out_channels) || downsample
       then Some (nn.spectral_norm p (path ++ ".conv_mixin")
                    (nn.Conv2d_init p (path ++ ".conv_mixin")
                                    in_channels out_channels 1 0 true))
       else None |}.

Definition activation : Tensor -> Tensor := nn.ReLU.

(** [self.downsample_fn], an attribute only a downsampling block has. *)
Definition downsample_fn (self : t) (x : Tensor) : option Tensor :=
  k <- downsample_kernel self ;; nn.AvgPool2d k x.

Definition apply_mixin (self : t) (x : Tensor) : option Tensor :=
  c <- conv_mixin self ;; nn.Conv2d_forward c x.

Definition _residual (self : t) (x : Tensor) : option Tensor :=
  if use_preactivation self
  then
    x <- (if mixin self then apply_mixin self x else Some x) ;;
    if downsample self then downsample_fn self x else Some x
  else
    x <- (if downsample self then downsample_fn self x else Some x) ;;
    if mixin self then apply_mixin self x else Some x.

Definition forward (self : t) (x : Tensor) : option Tensor :=
  let h := if use_preactivation self then F.relu x else x in
  h <- nn.Conv2d_forward (conv1 self) h ;;
  let h := activation h in
  h <- (if downsample self then downsample_fn self h else Some h) ;;
  r <- _residual self x ;;
  torch.add h r.

(** The block after an assignment to [self.conv2] (an optimizer step or
    a loaded state dict), everything else unchanged. *)
Definition with_conv2 (c : nn.Conv2d) (self : t) : t :=
  mk (conv1 self) c (use_preactivation self) (downsample self)
     (downsample_kernel self) (mixin self) (conv_mixin self).

End DResidualBlock.

Module Discriminator.

(** The members of the [nn.Sequential] held in [d_blocks]. *)
Inductive layer : Type :=
| Res (b : DResidualBlock.t)
| Attn (a : AttentionBlock.t)
| Relu.

Record t : Type := mk {
  shared_emb : nn.Embedding;
  d_blocks : list layer;
  proj_o : nn.Linear
}.

Definition init (p : nn.store) (base_channels n_classes : Z) : t :=
  {| shared_emb := nn.spectral_norm p "shared_emb"
                     (nn.Embedding_init p "shared_emb" n_classes (16 * base_channels));
     d_blocks :=
       [ Res (DResidualBlock.init p "d_blocks.0" 3 base_channels true false);
         Attn (AttentionBlock.init p "d_blocks.1" base_channels);
         Res (DResidualBlock.init p "d_blocks.2" base_channels (2 * base_channels) true true);
         Attn (AttentionBlock.init p "d_blocks.3" (2 * base_channels));
         Res (DResidualBlock.init p "d_blocks.4" (2 * base_channels) (4 * base_channels) true true);
         Attn (AttentionBlock.init p "d_blocks.5" (4 * base_channels));
         Res (DResidualBlock.init p "d_blocks.6" (4 * base_channels) (8 * base_channels) true true);
         Attn (AttentionBlock.init p "d_blocks.7" (8 * base_channels));
         Res (DResidualBlock.init p "d_blocks.8" (8 * base_channels) (16 * base_channels) true true);
         Attn (AttentionBlock.init p "d_blocks.9" (16 * base_channels));
         Res (DResidualBlock.init p "d_blocks.10" (16 * base_channels) (16 * base_channels) false true);
         Attn (AttentionBlock.init p "d_blocks.11" (16 * base_channels));
         Relu ];
     proj_o := nn.spectral_norm p "proj_o"
                 (nn.Linear_init p "proj_o" (16 * base_channels) 1 true) |}.

Definition layer_forward (l : layer) (x : Tensor) : option Tensor :=
  match l with
  | Res b => DResidualBlock.forward b x
  | Attn a => AttentionBlock.forward a x
  | Relu => Some (nn.ReLU x)
  end.

(** [nn.Sequential.forward]. *)
Fixpoint sequential (ls : list layer) (x : Tensor) : option Tensor :=
  match ls with
  | [] => Some x
  | l :: rest => h <- layer_forward l x ;; sequential rest h
  end.

(** Spatially sum-pooled features (source lines 453-454). *)
Definition features (self : t) (x : Tensor) : option Tensor :=
  h <- sequential (d_blocks self) x ;;
  torch.sum_dims23 h.

Definition forward (self : t) (x : Tensor) (y : option (list Z)) : option Tensor :=
  h <- features self x ;;
  uncond_out <- nn.Linear_forward (proj_o self) h ;;
  match y with
  | None => Some uncond_out
  | Some y =>
      e <- nn.Embedding_forward (shared_emb self) y ;;
      eh <- torch.mul e h ;;
      cond_out <- torch.sum_dim 1 true eh ;;
      torch.add uncond_out cond_out
  end.

End Discriminator.

(** ** Architecture predicates

    What a constructor fixes and training never changes: the layer
    dimensions and the wiring flags of a module.  A module satisfying the
    predicate for a configuration is one built for that configuration, with
    any parameter values. *)

Module Arch.

Definition conv (c : nn.Conv2d) (i o k p : Z) : bool :=
  (nn.in_channels c =? i) && (nn.out_channels c =? o)
  && (nn.kernel_size c =? k) && (nn.padding c =? p).

Definition linear (l : nn.Linear) (i o : Z) : bool :=
  (nn.in_features l =? i) && (nn.out_features l =? o).

Definition bnorm (b : nn.BatchNorm2d) (C : Z) : bool :=
  nn.num_features b =? C.

Definition embedding (e : nn.Embedding) (n d : Z) : bool :=
  (nn.num_embeddings e =? n) && (nn.embedding_dim e =? d).

Definition ccbn (m : ClassConditionalBatchNorm2d.t) (D C : Z) : bool :=
  bnorm (ClassConditionalBatchNorm2d.bn m) C
  && linear (ClassConditionalBatchNorm2d.class_scale_transform m) D C
  && linear (ClassConditionalBatchNorm2d.class_shift_transform m) D C.

Definition attention (m : AttentionBlock.t) (C : Z) : bool :=
  (AttentionBlock.channels m =? C)
  && conv (AttentionBlock.theta m) C (C / 8) 1 0
  && conv (AttentionBlock.phi m) C (C / 8) 1 0
  && conv (AttentionBlock.g m) C (C / 2) 1 0
  && conv (AttentionBlock.o m) (C / 2) C 1 0.

Definition mixin_conv (flag : bool) (c : option nn.Conv2d) (Cin Cout : Z) : bool :=
  match c with
  | Some c => conv c Cin Cout 1 0
  | None => negb flag
  end.

Definition gres (m : GResidualBlock.t) (D Cin Cout : Z) : bool :=
  conv (GResidualBlock.conv1 m) Cin Cout 3 1
  && conv (GResidualBlock.conv2 m) Cout Cout 3 1
  && ccbn (GResidualBlock.bn1 m) D Cin
  && ccbn (GResidualBlock.bn2 m) D Cout
  && (GResidualBlock.upsample_scale m =? 2)
  && Bool.eqb (GResidualBlock.mixin m) (negb (Cin =? Cout))
  && mixin_conv (GResidualBlock.mixin m) (GResidualBlock.conv_mixin m) Cin Cout.

Definition dres (m : DResidualBlock.t) (Cin Cout : Z) (ds pre : bool) : bool :=
  conv (DResidualBlock.conv1 m) Cin Cout 3 1
  && Bool.eqb (DResidualBlock.use_preactivation m) pre
  && Bool.eqb (DResidualBlock.downsample m) ds
  && match DResidualBlock.downsample_kernel m with
     | Some k => k =? 2
     | None => negb ds
     end
  && Bool.eqb (DResidualBlock.mixin m) (negb (Cin =? Cout) || ds)
  && mixin_conv (DResidualBlock.mixin m) (DResidualBlock.conv_mixin m) Cin Cout.

(** Generator stages against their (input, output) channel schedule. *)
Fixpoint gstages (blocks : list (GResidualBlock.t * AttentionBlock.t))
    (D : Z) (schedule : list (Z * Z)) : bool :=
  match blocks, schedule with
  | [], [] => true
  | blk :: blocks', (cin, cout) :: schedule' =>
      gres (fst blk) D cin cout && attention (snd blk) cout
      && gstages blocks' D schedule'
  | _, _ => false
  end.

Definition gschedule (bc : Z) : list (Z * Z) :=
  [ (16 * bc, 16 * bc); (16 * bc, 8 * bc); (8 * bc, 4 * bc);
    (4 * bc, 2 * bc); (2 * bc, bc) ].

Definition generator (G : Generator.t) (bc bw zd sd : Z) : bool :=
  (Generator.z_chunk_size G =? zd / Generator.n_chunks)
  && (Generator.bottom_width G =? bw)
  && linear (Generator.proj_z G) (zd / Generator.n_chunks) (16 * bc * bw ^ 2)
  && gstages (Generator.g_blocks G) (sd + zd / Generator.n_chunks) (gschedule bc)
  && bnorm (Generator.proj_o_bn G) bc
  && conv (Generator.proj_o_conv G) bc 3 1 0.

(** Discriminator stages: (input, output, downsample, preactivation). *)
Fixpoint dstages (ls : list Discriminator.layer)
    (schedule : list (Z * Z * bool * bool)) : bool :=
  match ls, schedule with
  | [Discriminator.Relu], [] => true
  | Discriminator.Res b :: Discriminator.Attn a :: ls',
    (cin, cout, ds, pre) :: schedule' =>
      dres b cin cout ds pre && attention a cout && dstages ls' schedule'
  | _, _ => false
  end.

Definition dschedule (bc : Z) : list (Z * Z * bool * bool) :=
  [ (3, bc, true, false);
    (bc, 2 * bc, true, true);
    (2 * bc, 4 * bc, true, true);
    (4 * bc, 8 * bc, true, true);
    (8 * bc, 16 * bc, true, true);
    (16 * bc, 16 * bc, false, true) ].

Definition discriminator (D : Discriminator.t) (bc nc : Z) : bool :=
  embedding (Discriminator.shared_emb D) nc (16 * bc)
  && nn.is_spectral (nn.emb_weight (Discriminator.shared_emb D))
  && dstages (Discriminator.d_blocks D) (dschedule bc)
  && linear (Discriminator.proj_o D) (16 * bc) 1.

End Arch.

(** ** The weighted operators a forward pass applies

    Convolutions, linear layers and embedding tables, listed by attribute
    name with the weight they carry.  A batch normalisation's affine
    parameters are not among them. *)

Module Inventory.

Definition op : Type := (string * nn.Weight)%type.

Definition named (name : string) (w : nn.Weight) : op := (name, w).

Definition ccbn (m : ClassConditionalBatchNorm2d.t) : list op :=
  [ named "class_scale_transform" (nn.lin_weight (ClassConditionalBatchNorm2d.class_scale_transform m));
    named "class_shift_transform" (nn.lin_weight (ClassConditionalBatchNorm2d.class_shift_transform m)) ].

Definition attention (m : AttentionBlock.t) : list op :=
  [ named "theta" (nn.conv_weight (AttentionBlock.theta m));
    named "phi" (nn.conv_weight (AttentionBlock.phi m));
    named "g" (nn.conv_weight (AttentionBlock.g m));
    named "o" (nn.conv_weight (AttentionBlock.o m)) ].

Definition mixin (flag : bool) (c : option nn.Conv2d) : list op :=
  match flag, c with
  | true, Some c => [ named "conv_mixin" (nn.conv_weight c) ]
  | _, _ => []
  end.

Definition gres (m : GResidualBlock.t) : list op :=
  [ named "conv1" (nn.conv_weight (GResidualBlock.conv1 m));
    named "conv2" (nn.conv_weight (GResidualBlock.conv2 m)) ]
  ++ ccbn (GResidualBlock.bn1 m) ++ ccbn (GResidualBlock.bn2 m)
  ++ mixin (GResidualBlock.mixin m) (GResidualBlock.conv_mixin m).

(** [Generator.forward] takes the class embedding as an argument and
    does not look [shared_emb] up itself. *)
Definition generator (G : Generator.t) : list op :=
  named "proj_z" (nn.lin_weight (Generator.proj_z G))
  :: flat_map (fun blk => gres (fst blk) ++ attention (snd blk))
              (Generator.g_blocks G)
  ++ [ named "proj_o" (nn.conv_weight (Generator.proj_o_conv G)) ].

(** [DResidualBlock.forward] applies [conv1] and the mixin. *)
Definition dres (m : DResidualBlock.t) : list op :=
  named "conv1" (nn.conv_weight (DResidualBlock.conv1 m))
  :: mixin (DResidualBlock.mixin m) (DResidualBlock.conv_mixin m).

Definition dlayer (l : Discriminator.layer) : list op :=
  match l with
  | Discriminator.Res b => dres b
  | Discriminator.Attn a => attention a
  | Discriminator.Relu => []
  end.

Definition discriminator (D : Discriminator.t) : list op :=
  flat_map dlayer (Discriminator.d_blocks D)
  ++ [ named "proj_o" (nn.lin_weight (Discriminator.proj_o D));
       named "shared_emb" (nn.emb_weight (Discriminator.shared_emb D)) ].



End Inventory.

(** ** The specification's wording of the blocks, to compare with the code *)

Module Spec.

(** Attention weight of query position i for key position j: the softmax
    over j of the plain dot product of the query and key columns, with no
    division by the square root of the depth d. *)
Definition attention_weight (q k : Tensor) (d M : Z) (b_ i j : Z) : R :=
  (exp (Rsum d (fun c => data q [b_; c; i] * data k [b_; c; j]))
   / Rsum M (fun j' =>
       exp (Rsum d (fun c => data q [b_; c; i] * data k [b_; c; j']))))%R.

(** Generator residual block:
    h = conv(upsample(relu(condnorm1(x, y)))); h = conv(relu(condnorm2(h, y)));
    skip = upsample(x); if Cin <> Cout, skip = mixin(skip); output h + skip. *)
Definition g_residual (conv1 conv2 : nn.Conv2d)
    (condnorm1 condnorm2 : ClassConditionalBatchNorm2d.t)
    (mixin : nn.Conv2d) (Cin Cout : Z) (x y : Tensor) : option Tensor :=
  h <- ClassConditionalBatchNorm2d.forward condnorm1 x y ;;
  h <- nn.Upsample 2 (F.relu h) ;;
  h <- nn.Conv2d_forward conv1 h ;;
  h <- ClassConditionalBatchNorm2d.forward condnorm2 h y ;;
  h <- nn.Conv2d_forward conv2 (F.relu h) ;;
  skip <- nn.Upsample 2 x ;;
  skip <- (if Cin =? Cout then Some skip else nn.Conv2d_forward mixin skip) ;;
  torch.add h skip.

Definition when (b : bool) (f : Tensor -> option Tensor) (x : Tensor)
    : option Tensor :=
  if b then f x else Some x.

(** Discriminator skip path: the mixin applies when Cin <> Cout or the
    block downsamples; with pre-activation it comes before the
    downsampling, without it after. *)
Definition d_skip (mixin : nn.Conv2d) (Cin Cout : Z)
    (apply_downsample use_preactivation : bool) (x : Tensor) : option Tensor :=
  let needs_mixin := negb (Cin =? Cout) || apply_downsample in
  if use_preactivation
  then x <- when needs_mixin (nn.Conv2d_forward mixin) x ;;
       when apply_downsample (nn.AvgPool2d 2) x
  else x <- when apply_downsample (nn.AvgPool2d 2) x ;;
       when needs_mixin (nn.Conv2d_forward mixin) x.

(** Discriminator main path: optional ReLU, convolution, ReLU, optional
    average pooling. *)
Definition d_main (conv : nn.Conv2d) (apply_downsample use_preactivation : bool)
    (x : Tensor) : option Tensor :=
  h <- nn.Conv2d_forward conv (if use_preactivation then F.relu x else x) ;;
  when apply_downsample (nn.AvgPool2d 2) (F.relu h).

(** The class-conditional contribution for sample b: the dot product of
    its pooled features with the embedding row of its label. *)
Definition class_dot (table : list Z -> R) (label : Z) (h : Tensor) (C b_ : Z) : R :=
  Rsum C (fun c => (table [label; c] * data h [b_; c])%R).

End Spec.

(** ** The notebook's set-up (source lines 473-508) *)

Module Setup.

(** Some initial parameter values; no statement below depends on them. *)
Definition initial : nn.store := fun _ _ => 0%R.

Definition base_channels : Z := 96.
Definition z_dim : Z := 120.
Definition n_classes : Z := 5.
Definition shared_dim : Z := 128.

Definition generator : Generator.t :=
  Generator.init initial base_channels 4 z_dim shared_dim n_classes.

Definition discriminator : Discriminator.t :=
  Discriminator.init initial base_channels n_classes.

Definition batch_size : Z := n_classes.

(** A tensor of the given shape. *)
Definition zeros (s : list Z) : Tensor := {| shape := s; data := fun _ => 0%R |}.

(** [torch.randn] draws the noise; one fixed sample stands for it. *)
Definition z : Tensor := zeros [batch_size; z_dim].

Definition y : list Z := range n_classes.

Definition y_emb : option Tensor :=
  nn.Embedding_forward (Generator.shared_emb generator) y.

Definition x_gen : option Tensor :=
  e <- y_emb ;; Generator.forward generator z e.

Definition score : option Tensor :=
  x <- x_gen ;; Discriminator.forward discriminator x (Some y).

End Setup.

(** ** Stage schedules *)

(** A generator channel schedule whose stages chain from [cin], every
    output wide enough for the attention block that follows. *)
Fixpoint chained (cin : Z) (schedule : list (Z * Z)) : Prop :=
  match schedule with
  | [] => True
  | (ci, co) :: rest => ci = cin /\ 8 <= co /\ chained co rest
  end.

(** A discriminator schedule that chains from [cin] at extent H x W: every
    downsampling stage has room to pool, and every attention block sees an
    extent whose pooled maps flatten to a quarter of the positions. *)
Fixpoint dchained (cin H W : Z) (schedule : list (Z * Z * bool * bool)) : Prop :=
  match schedule with
  | [] => True
  | (ci, co, ds, _) :: rest =>
      let H' := if ds then H / 2 else H in
      let W' := if ds then W / 2 else W in
      ci = cin /\ 8 <= co /\ 1 <= H /\ 1 <= W
      /\ (ds = true -> 2 <= H /\ 2 <= W)
      /\ 2 <= H' /\ 2 <= W' /\ (H' / 2) * (W' / 2) = H' * W' / 4
      /\ dchained co H' W' rest
  end.

Fixpoint final_extent (H : Z) (schedule : list (Z * Z * bool * bool)) : Z :=
  match schedule with
  | [] => H
  | (_, _, ds, _) :: rest => final_extent (if ds then H / 2 else H) rest
  end.

Definition final_channels (cin : Z) (schedule : list (Z * Z * bool * bool)) : Z :=
  last (map (fun s => snd (fst (fst s))) schedule) cin.

(** ** Orthogonal regularisation (source lines 43-50) *)

Definition orthogonal_regularization (weight : Tensor) : option Tensor :=
  weight <- torch.flatten 1 weight ;;
  d <- torch.dot weight weight ;;
  e <- torch.eye (hd 0 (shape weight)) ;;
  m <- torch.sub (torch.ones_like weight) e ;;
  p <- torch.mul d m ;;
  Some (torch.norm p).

(** ** Assignments to parameters *)

Module Assign.

(** The attention block after an assignment to its gain. *)
Definition gamma (v : R) (m : AttentionBlock.t) : AttentionBlock.t :=
  AttentionBlock.mk (AttentionBlock.channels m) (AttentionBlock.theta m)
                    (AttentionBlock.phi m) (AttentionBlock.g m)
                    (AttentionBlock.o m) v.

End Assign.

(** * Proofs *)
(** ** Arithmetic and list helpers *)

Ltac zbool :=
  repeat match goal with
  | |- context [?a =? ?b] =>
      first [ rewrite (proj2 (Z.eqb_eq a b)) by lia
            | rewrite (proj2 (Z.eqb_neq a b)) by lia ]
  | |- context [?a <=? ?b] =>
      first [ rewrite (proj2 (Z.leb_le a b)) by lia
            | rewrite (proj2 (Z.leb_gt a b)) by lia ]
  | |- context [?a <? ?b] =>
      first [ rewrite (proj2 (Z.ltb_lt a b)) by lia
            | rewrite (proj2 (Z.ltb_ge a b)) by lia ]
  end.

Ltac divlia := Z.div_mod_to_equations; lia.

Lemma bind_some {A B : Type} (a : A) (f : A -> option B) :
  bind (Some a) f = f a.
Proof. reflexivity. Qed.

Lemma Rsum_ext (n : Z) (f g : Z -> R) :
  (forall k, f k = g k) -> Rsum n f = Rsum n g.
Proof.
  intros E. unfold Rsum. induction (Z.to_nat n) as [|k IH]; [reflexivity|].
  cbn [rsum_nat]. now rewrite IH, E.
Qed.

Lemma pool_out_2 (n : Z) : 2 <= n -> F.pool_out n 2 = n / 2.
Proof. intros Hn. unfold F.pool_out. divlia. Qed.

Lemma eighth_pos (C : Z) : 8 <= C -> 0 < C / 8.
Proof. intros HC. divlia. Qed.

Lemma half_pos (C : Z) : 8 <= C -> 0 < C / 2.
Proof. intros HC. divlia. Qed.

Lemma quarter_pos (H W : Z) : 2 <= H -> 2 <= W -> 0 < H * W / 4.
Proof.
  intros Hh Hw. assert (4 <= H * W) by nia.
  generalize dependent (H * W). intros q Hq. divlia.
Qed.

Lemma even_quarter (H W : Z) :
  Z.even H = true -> Z.even W = true -> (H / 2) * (W / 2) = H * W / 4.
Proof.
  intros Eh Ew.
  apply Z.even_spec in Eh as [h ->]. apply Z.even_spec in Ew as [w ->].
  rewrite (Z.mul_comm 2 h), (Z.mul_comm 2 w), !Z.div_mul by lia.
  replace (h * 2 * (w * 2)) with (h * w * 4) by ring.
  now rewrite Z.div_mul by lia.
Qed.

(** ** Architecture predicates, unfolded *)

Lemma conv_arch (c : nn.Conv2d) (i o k p : Z) :
  Arch.conv c i o k p = true ->
  nn.in_channels c = i /\ nn.out_channels c = o
  /\ nn.kernel_size c = k /\ nn.padding c = p.
Proof.
  unfold Arch.conv. intros H.
  repeat (apply andb_prop in H; destruct H as [H ?]).
  repeat split; apply Z.eqb_eq; assumption.
Qed.

Lemma linear_arch (l : nn.Linear) (i o : Z) :
  Arch.linear l i o = true -> nn.in_features l = i /\ nn.out_features l = o.
Proof.
  unfold Arch.linear. intros H. apply andb_prop in H as [H1 H2].
  split; apply Z.eqb_eq; assumption.
Qed.

(** ** Shapes of the tensor operations *)

Lemma Conv2d_forward_shape (c : nn.Conv2d) (i o k pd : Z) (x : Tensor) (B H W : Z) :
  Arch.conv c i o k pd = true ->
  shape x = [B; i; H; W] ->
  k <= H + 2 * pd -> k <= W + 2 * pd ->
  exists t, nn.Conv2d_forward c x = Some t
            /\ shape t = [B; o; H + 2 * pd - k + 1; W + 2 * pd - k + 1].
Proof.
  intros A S Hh Hw. apply conv_arch in A as (Ei & Eo & Ek & Ep).
  unfold nn.Conv2d_forward. rewrite S, Ei, Ek, Ep. zbool. cbn [andb].
  eexists. split; [reflexivity|]. cbn [shape]. now rewrite Eo.
Qed.

Lemma conv1x1_shape (c : nn.Conv2d) (i o : Z) (x : Tensor) (B H W : Z) :
  Arch.conv c i o 1 0 = true -> shape x = [B; i; H; W] -> 1 <= H -> 1 <= W ->
  exists t, nn.Conv2d_forward c x = Some t /\ shape t = [B; o; H; W].
Proof.
  intros A S Hh Hw.
  destruct (Conv2d_forward_shape c i o 1 0 x B H W A S) as (t & E & St); try lia.
  exists t. split; [exact E|]. rewrite St. repeat f_equal; lia.
Qed.

Lemma conv3x3_shape (c : nn.Conv2d) (i o : Z) (x : Tensor) (B H W : Z) :
  Arch.conv c i o 3 1 = true -> shape x = [B; i; H; W] -> 1 <= H -> 1 <= W ->
  exists t, nn.Conv2d_forward c x = Some t /\ shape t = [B; o; H; W].
Proof.
  intros A S Hh Hw.
  destruct (Conv2d_forward_shape c i o 3 1 x B H W A S) as (t & E & St); try lia.
  exists t. split; [exact E|]. rewrite St. repeat f_equal; lia.
Qed.

Lemma max_pool2d_shape (x : Tensor) (B C H W : Z) :
  shape x = [B; C; H; W] -> 2 <= H -> 2 <= W ->
  exists t, F.max_pool2d x 2 = Some t /\ shape t = [B; C; H / 2; W / 2].
Proof.
  intros S Hh Hw. unfold F.max_pool2d. rewrite S. zbool. cbn [andb].
  eexists. split; [reflexivity|]. cbn [shape].
  now rewrite !pool_out_2 by assumption.
Qed.

Lemma max_pool2d_small (x : Tensor) (B C H W : Z) :
  shape x = [B; C; H; W] -> H < 2 \/ W < 2 -> F.max_pool2d x 2 = None.
Proof.
  intros S Hs. unfold F.max_pool2d. rewrite S.
  destruct Hs; zbool; cbn [andb]; try reflexivity.
  now rewrite andb_false_r.
Qed.

Lemma avg_pool2d_shape (x : Tensor) (B C H W : Z) :
  shape x = [B; C; H; W] -> 2 <= H -> 2 <= W ->
  exists t, nn.AvgPool2d 2 x = Some t /\ shape t = [B; C; H / 2; W / 2].
Proof.
  intros S Hh Hw. unfold nn.AvgPool2d, F.avg_pool2d. rewrite S. zbool. cbn [andb].
  eexists. split; [reflexivity|]. cbn [shape].
  now rewrite !pool_out_2 by assumption.
Qed.

Lemma infer_size3 (a b n : Z) :
  0 < a -> 0 < b ->
  torch.infer_size [-1; a; b] n
  = if n mod (a * b) =? 0 then Some [n / (a * b); a; b] else None.
Proof.
  intros Ha Hb. unfold torch.infer_size. cbn [existsb orb]. zbool.
  replace (-1 <? -1) with false by reflexivity. cbn [orb].
  cbn [count_occ].
  destruct (Z.eq_dec (-1) (-1)) as [_|n0]; [|congruence].
  destruct (Z.eq_dec a (-1)); [lia|]. destruct (Z.eq_dec b (-1)); [lia|].
  cbn [filter negb map numel fold_right].
  replace (-1 =? -1) with true by reflexivity. cbn [negb]. zbool. cbn [negb numel fold_right].
  rewrite Z.mul_1_r. zbool. reflexivity.
Qed.

Lemma infer_size4 (c h w n : Z) :
  0 < c -> 0 < h -> 0 < w ->
  torch.infer_size [-1; c; h; w] n
  = if n mod (c * (h * w)) =? 0 then Some [n / (c * (h * w)); c; h; w] else None.
Proof.
  intros Hc Hh Hw. unfold torch.infer_size. cbn [existsb orb]. zbool.
  replace (-1 <? -1) with false by reflexivity. cbn [orb].
  cbn [count_occ].
  destruct (Z.eq_dec (-1) (-1)) as [_|n0]; [|congruence].
  destruct (Z.eq_dec c (-1)); [lia|]. destruct (Z.eq_dec h (-1)); [lia|].
  destruct (Z.eq_dec w (-1)); [lia|].
  cbn [filter negb map numel fold_right].
  replace (-1 =? -1) with true by reflexivity. cbn [negb]. zbool.
  cbn [negb numel fold_right]. rewrite Z.mul_1_r.
  assert (0 < c * (h * w)) by nia. zbool. reflexivity.
Qed.

Lemma infer_size_channels (b w n : Z) :
  0 < b -> 0 < w ->
  torch.infer_size [b; -1; w; w] n
  = if n mod (b * (w * w)) =? 0 then Some [b; n / (b * (w * w)); w; w] else None.
Proof.
  intros Hb Hw. unfold torch.infer_size. cbn [existsb orb]. zbool.
  replace (-1 <? -1) with false by reflexivity. cbn [orb].
  cbn [count_occ].
  destruct (Z.eq_dec (-1) (-1)) as [_|n0]; [|congruence].
  destruct (Z.eq_dec b (-1)); [lia|]. destruct (Z.eq_dec w (-1)); [lia|].
  cbn [filter negb map numel fold_right].
  replace (-1 =? -1) with true by reflexivity. cbn [negb]. zbool.
  cbn [negb numel fold_right]. rewrite Z.mul_1_r.
  assert (0 < b * (w * w)) by nia. zbool. reflexivity.
Qed.

Lemma view3_shape (t : Tensor) (a b B : Z) :
  0 < a -> 0 < b -> numel (shape t) = B * (a * b) ->
  exists t', torch.view [-1; a; b] t = Some t' /\ shape t' = [B; a; b]
             /\ data t' = fun idx => data t (unravel (shape t) (ravel [B; a; b] idx)).
Proof.
  intros Ha Hb Hn. unfold torch.view. rewrite infer_size3 by assumption.
  assert (0 < a * b) by nia.
  rewrite Hn, Z.mod_mul, Z.div_mul by lia. cbn [Z.eqb bind].
  eexists. repeat split.
Qed.

Lemma view4_shape (t : Tensor) (c h w B : Z) :
  0 < c -> 0 < h -> 0 < w -> numel (shape t) = B * (c * (h * w)) ->
  exists t', torch.view [-1; c; h; w] t = Some t' /\ shape t' = [B; c; h; w].
Proof.
  intros Hc Hh Hw Hn. unfold torch.view. rewrite infer_size4 by assumption.
  assert (0 < c * (h * w)) by nia.
  rewrite Hn, Z.mod_mul, Z.div_mul by lia. cbn [Z.eqb bind].
  eexists. split; reflexivity.
Qed.

Lemma transpose12_shape (t : Tensor) (B n m : Z) :
  shape t = [B; n; m] ->
  exists t', torch.transpose 1 2 t = Some t' /\ shape t' = [B; m; n]
             /\ forall b_ i j, data t' [b_; i; j] = data t [b_; j; i].
Proof.
  intros S. unfold torch.transpose. rewrite S. cbn [length Nat.ltb Nat.leb andb].
  eexists. repeat split.
Qed.

Lemma bmm_shape (a b : Tensor) (B n m p : Z) :
  shape a = [B; n; m] -> shape b = [B; m; p] ->
  exists t, torch.bmm a b = Some t /\ shape t = [B; n; p]
            /\ forall b_ r c, data t [b_; r; c]
                 = Rsum m (fun k => (data a [b_; r; k] * data b [b_; k; c])%R).
Proof.
  intros Sa Sb. unfold torch.bmm. rewrite Sa, Sb, !Z.eqb_refl. cbn [andb].
  eexists. repeat split.
Qed.

Lemma bmm_batch_mismatch (a b : Tensor) (B B' n m m' p : Z) :
  shape a = [B; n; m] -> shape b = [B'; m'; p] -> B <> B' -> torch.bmm a b = None.
Proof.
  intros Sa Sb Hne. unfold torch.bmm. rewrite Sa, Sb.
  rewrite (proj2 (Z.eqb_neq B B') Hne). reflexivity.
Qed.

(** ** Broadcasting *)

Lemma broadcast_rev_same (l : list Z) : torch.broadcast_rev l l = Some l.
Proof.
  induction l as [|d l IH]; [reflexivity|].
  cbn [torch.broadcast_rev]. rewrite IH. cbn [bind]. now rewrite Z.eqb_refl.
Qed.

Lemma broadcast_same (s : list Z) : torch.broadcast_shapes s s = Some s.
Proof.
  unfold torch.broadcast_shapes. rewrite broadcast_rev_same. cbn [option_map].
  now rewrite rev_involutive.
Qed.

Lemma broadcast_scalar (s : list Z) : torch.broadcast_shapes [] s = Some s.
Proof.
  unfold torch.broadcast_shapes. cbn [rev torch.broadcast_rev option_map].
  now rewrite rev_involutive.
Qed.

Lemma broadcast_11_l (B C H W : Z) :
  torch.broadcast_shapes [B; C; 1; 1] [B; C; H; W] = Some [B; C; H; W].
Proof.
  unfold torch.broadcast_shapes. cbn [rev app torch.broadcast_rev].
  rewrite !Z.eqb_refl. cbn [bind].
  destruct (1 =? H) eqn:EH; destruct (1 =? W) eqn:EW;
    try (apply Z.eqb_eq in EH; subst H); try (apply Z.eqb_eq in EW; subst W);
    reflexivity.
Qed.

Lemma broadcast_11_r (B C H W : Z) :
  torch.broadcast_shapes [B; C; H; W] [B; C; 1; 1] = Some [B; C; H; W].
Proof.
  unfold torch.broadcast_shapes. cbn [rev app torch.broadcast_rev].
  rewrite !Z.eqb_refl. cbn [bind].
  destruct (H =? 1) eqn:EH; destruct (W =? 1) eqn:EW;
    try (apply Z.eqb_eq in EH; subst H); try (apply Z.eqb_eq in EW; subst W);
    reflexivity.
Qed.

Lemma in_range_length (s idx : list Z) : in_range s idx -> length idx = length s.
Proof. intros H. symmetry. exact (Forall2_length H). Qed.

Lemma bidx_in_range (s idx : list Z) : in_range s idx -> torch.bidx s idx = idx.
Proof.
  intros H. unfold torch.bidx. rewrite (in_range_length s idx H), Nat.sub_diag.
  cbn [skipn]. induction H as [|d j s idx Hj _ IH]; [reflexivity|].
  cbn [combine map fst snd]. rewrite IH. f_equal.
  destruct (Z.eqb_spec d 1); lia.
Qed.

Lemma add_same_shape (a b : Tensor) :
  shape a = shape b ->
  exists t, torch.add a b = Some t /\ shape t = shape a
            /\ forall idx, in_range (shape a) idx ->
                 data t idx = (data a idx + data b idx)%R.
Proof.
  intros S. unfold torch.add, torch.binop. rewrite <- S, broadcast_same.
  cbn [bind]. eexists. repeat split. intros idx Hr. cbn [data].
  now rewrite bidx_in_range.
Qed.

Lemma mul_scalar_shape (c : R) (a : Tensor) :
  exists t, torch.mul (torch.tensor c) a = Some t /\ shape t = shape a
            /\ forall idx, in_range (shape a) idx ->
                 data t idx = (c * data a idx)%R.
Proof.
  unfold torch.mul, torch.binop. cbn [torch.tensor shape data].
  rewrite broadcast_scalar. cbn [bind]. eexists. repeat split.
  intros idx Hr. cbn [data]. now rewrite bidx_in_range.
Qed.

(** ** The attention block *)

Lemma attention_arch (m : AttentionBlock.t) (C : Z) :
  Arch.attention m C = true ->
  AttentionBlock.channels m = C
  /\ Arch.conv (AttentionBlock.theta m) C (C / 8) 1 0 = true
  /\ Arch.conv (AttentionBlock.phi m) C (C / 8) 1 0 = true
  /\ Arch.conv (AttentionBlock.g m) C (C / 2) 1 0 = true
  /\ Arch.conv (AttentionBlock.o m) (C / 2) C 1 0 = true.
Proof.
  unfold Arch.attention. rewrite !andb_true_iff.
  intros ((((H1 & H2) & H3) & H4) & H5). apply Z.eqb_eq in H1. auto.
Qed.

Lemma attention_weights_shape (theta' phi' : Tensor) (B c N M : Z) :
  shape theta' = [B; c; N] -> shape phi' = [B; c; M] ->
  exists beta, AttentionBlock.attention theta' phi' = Some beta
    /\ shape beta = [B; N; M]
    /\ forall b_ i j,
         data beta [b_; i; j]
         = (exp (Rsum c (fun k => data theta' [b_; k; i] * data phi' [b_; k; j]))
            / Rsum M (fun j' =>
                exp (Rsum c (fun k => data theta' [b_; k; i] * data phi' [b_; k; j']))))%R.
Proof.
  intros St Sp. unfold AttentionBlock.attention.
  destruct (transpose12_shape theta' B c N St) as (tT & ET & ST & DT).
  rewrite ET. cbn [bind].
  destruct (bmm_shape tT phi' B N c M ST Sp) as (s & Es & Ss & Ds).
  rewrite Es. cbn [bind]. eexists. split; [reflexivity|]. split; [exact Ss|].
  intros b_ i j. unfold F.softmax. cbn [data shape]. rewrite Ss.
  cbn [last removelast app]. rewrite Ds.
  f_equal.
  - f_equal. apply Rsum_ext. intros k. now rewrite DT.
  - apply Rsum_ext. intros j'. rewrite Ds. f_equal.
    apply Rsum_ext. intros k. now rewrite DT.
Qed.

Section AttentionForward.

Variables (m : AttentionBlock.t) (x : Tensor) (B C H W : Z).
Hypothesis A : Arch.attention m C = true.
Hypothesis S : shape x = [B; C; H; W].
Hypothesis HB : 1 <= B.
Hypothesis HC : 8 <= C.

(** The three projections, when the pooled maps flatten to a quarter of
    the positions. *)
Lemma projections_ok :
  2 <= H -> 2 <= W -> (H / 2) * (W / 2) = H * W / 4 ->
  exists theta0 phi0 phi1 g0 g1 theta' phi' g',
    nn.Conv2d_forward (AttentionBlock.theta m) x = Some theta0
    /\ nn.Conv2d_forward (AttentionBlock.phi m) x = Some phi0
    /\ F.max_pool2d phi0 2 = Some phi1
    /\ shape phi1 = [B; C / 8; H / 2; W / 2]
    /\ nn.Conv2d_forward (AttentionBlock.g m) x = Some g0
    /\ F.max_pool2d g0 2 = Some g1
    /\ shape g1 = [B; C / 2; H / 2; W / 2]
    /\ torch.view [-1; C / 8; H * W] theta0 = Some theta'
    /\ torch.view [-1; C / 8; H * W / 4] phi1 = Some phi'
    /\ torch.view [-1; C / 2; H * W / 4] g1 = Some g'
    /\ AttentionBlock.projections m x = Some (theta', phi', g')
    /\ shape theta' = [B; C / 8; H * W]
    /\ shape phi' = [B; C / 8; H * W / 4]
    /\ shape g' = [B; C / 2; H * W / 4].
Proof.
  intros Hh Hw Hq.
  destruct (attention_arch m C A) as (Ech & At & Ap & Ag & Ao).
  pose proof (eighth_pos C HC) as c8_pos. pose proof (half_pos C HC) as c2_pos.
  pose proof (quarter_pos H W Hh Hw) as Hq4.
  assert (0 < H * W) by nia.
  destruct (conv1x1_shape _ _ _ x B H W At S) as (theta0 & Et0 & St0); try lia.
  destruct (conv1x1_shape _ _ _ x B H W Ap S) as (phi0 & Ep0 & Sp0); try lia.
  destruct (max_pool2d_shape phi0 _ _ _ _ Sp0 Hh Hw) as (phi1 & Ep1 & Sp1).
  destruct (conv1x1_shape _ _ _ x B H W Ag S) as (g0 & Eg0 & Sg0); try lia.
  destruct (max_pool2d_shape g0 _ _ _ _ Sg0 Hh Hw) as (g1 & Eg1 & Sg1).
  destruct (view3_shape theta0 (C / 8) (H * W) B) as (theta' & Et & St & _); try lia.
  { rewrite St0. cbn [numel fold_right]. ring. }
  destruct (view3_shape phi1 (C / 8) (H * W / 4) B) as (phi' & Ep & Sp & _); try lia.
  { rewrite Sp1. cbn [numel fold_right]. rewrite <- Hq. ring. }
  destruct (view3_shape g1 (C / 2) (H * W / 4) B) as (g' & Eg & Sg & _); try lia.
  { rewrite Sg1. cbn [numel fold_right]. rewrite <- Hq. ring. }
  exists theta0, phi0, phi1, g0, g1, theta', phi', g'.
  repeat (split; [assumption|]).
  split; [|auto].
  unfold AttentionBlock.projections. rewrite S, Et0, Ep0. cbn [bind].
  rewrite Ep1, Eg0. cbn [bind]. rewrite Eg1. cbn [bind].
  rewrite Ech, Et. cbn [bind]. rewrite Ep. cbn [bind]. rewrite Eg. reflexivity.
Qed.

(** The forward pass returns, with the input's shape, gamma times the
    attention output plus the input. *)
Lemma forward_ok :
  2 <= H -> 2 <= W -> (H / 2) * (W / 2) = H * W / 4 ->
  exists out o',
    AttentionBlock.forward m x = Some out
    /\ shape out = [B; C; H; W]
    /\ forall idx, in_range [B; C; H; W] idx ->
         data out idx = (AttentionBlock.gamma m * data o' idx + data x idx)%R.
Proof.
  intros Hh Hw Hq.
  destruct (projections_ok Hh Hw Hq)
    as (theta0 & phi0 & phi1 & g0 & g1 & theta' & phi' & g'
        & _ & _ & _ & _ & _ & _ & _ & _ & _ & _ & Epr & St & Sp & Sg).
  destruct (attention_arch m C A) as (Ech & At & Ap & Ag & Ao).
  pose proof (eighth_pos C HC) as c8_pos. pose proof (half_pos C HC) as c2_pos.
  assert (0 < H * W) by nia.
  destruct (attention_weights_shape theta' phi' _ _ _ _ St Sp) as (beta & Eb & Sb & _).
  destruct (transpose12_shape beta _ _ _ Sb) as (betaT & EbT & SbT & _).
  destruct (bmm_shape g' betaT _ _ _ _ Sg SbT) as (gb & Egb & Sgb & _).
  destruct (view4_shape gb (C / 2) H W B) as (gv & Egv & Sgv); try lia.
  { rewrite Sgb. cbn [numel fold_right]. ring. }
  destruct (conv1x1_shape _ _ _ gv B H W Ao Sgv) as (o' & Eo & So); try lia.
  destruct (mul_scalar_shape (AttentionBlock.gamma m) o') as (sc & Esc & Ssc & Dsc).
  destruct (add_same_shape sc x) as (out & Eout & Sout & Dout).
  { now rewrite Ssc, So, S. }
  exists out, o'. split.
  - unfold AttentionBlock.forward. rewrite S, Epr. cbn [bind].
    rewrite Eb. cbn [bind]. rewrite EbT. cbn [bind]. rewrite Egb. cbn [bind].
    rewrite Ech, Egv. cbn [bind]. rewrite Eo. cbn [bind]. rewrite Esc. cbn [bind].
    exact Eout.
  - split; [now rewrite Sout, Ssc, So|].
    intros idx Hr. rewrite Dout by now rewrite Ssc, So.
    now rewrite Dsc by now rewrite So.
Qed.

(** Without the quarter condition the forward pass raises. *)
Lemma forward_fails :
  ~ (2 <= H /\ 2 <= W /\ (H / 2) * (W / 2) = H * W / 4) ->
  AttentionBlock.forward m x = None.
Proof.
  intros Hn.
  destruct (attention_arch m C A) as (Ech & At & Ap & Ag & Ao).
  pose proof (eighth_pos C HC) as c8_pos. pose proof (half_pos C HC) as c2_pos.
  unfold AttentionBlock.forward, AttentionBlock.projections. rewrite S.
  destruct (Z_lt_le_dec H 1) as [Hh1|Hh1].
  { apply conv_arch in At as (Ei & _ & Ek & Ep).
    unfold nn.Conv2d_forward at 1. rewrite S, Ei, Ek, Ep. zbool.
    cbn [andb]. now rewrite ?andb_false_r. }
  destruct (Z_lt_le_dec W 1) as [Hw1|Hw1].
  { apply conv_arch in At as (Ei & _ & Ek & Ep).
    unfold nn.Conv2d_forward at 1. rewrite S, Ei, Ek, Ep. zbool.
    cbn [andb]. now rewrite ?andb_false_r. }
  destruct (conv1x1_shape _ _ _ x B H W At S) as (theta0 & Et0 & St0); try lia.
  destruct (conv1x1_shape _ _ _ x B H W Ap S) as (phi0 & Ep0 & Sp0); try lia.
  rewrite Et0, Ep0. cbn [bind].
  destruct (Z_lt_le_dec H 2) as [Hh|Hh].
  { rewrite (max_pool2d_small phi0 _ _ _ _ Sp0) by lia. reflexivity. }
  destruct (Z_lt_le_dec W 2) as [Hw|Hw].
  { rewrite (max_pool2d_small phi0 _ _ _ _ Sp0) by lia. reflexivity. }
  assert (Hq : (H / 2) * (W / 2) <> H * W / 4) by tauto.
  pose proof (quarter_pos H W Hh Hw) as Hq4.
  assert (0 < H * W) by nia.
  destruct (max_pool2d_shape phi0 _ _ _ _ Sp0 Hh Hw) as (phi1 & Ep1 & Sp1).
  destruct (conv1x1_shape _ _ _ x B H W Ag S) as (g0 & Eg0 & Sg0); try lia.
  destruct (max_pool2d_shape g0 _ _ _ _ Sg0 Hh Hw) as (g1 & Eg1 & Sg1).
  rewrite Ep1, Eg0. cbn [bind]. rewrite Eg1. cbn [bind].
  destruct (view3_shape theta0 (C / 8) (H * W) B) as (theta' & Et & St & _); try lia.
  { rewrite St0. cbn [numel fold_right]. ring. }
  rewrite Ech, Et. cbn [bind].
  unfold torch.view at 1. rewrite infer_size3 by lia.
  destruct (numel (shape phi1) mod (C / 8 * (H * W / 4)) =? 0) eqn:Em;
    [|reflexivity].
  cbn [bind].
  unfold torch.view at 1. rewrite infer_size3 by lia.
  destruct (numel (shape g1) mod (C / 2 * (H * W / 4)) =? 0) eqn:Em';
    [|reflexivity].
  cbn [bind]. unfold AttentionBlock.attention.
  destruct (transpose12_shape theta' _ _ _ St) as (tT & ET & ST & _).
  rewrite ET. cbn [bind].
  erewrite bmm_batch_mismatch; [reflexivity| exact ST | cbn [shape]; reflexivity |].
  intros Heq. apply Hq.
  apply Z.eqb_eq in Em. rewrite Sp1 in Em, Heq. cbn [numel fold_right] in Em, Heq.
  assert (0 < C / 8 * (H * W / 4)) by nia.
  apply Z.mod_divide in Em; [|lia]. destruct Em as [q Eq].
  rewrite Eq, Z.div_mul in Heq by lia. subst q.
  assert (E : (C / 8) * (B * ((H / 2) * (W / 2))) = (C / 8) * (B * (H * W / 4))) by lia.
  apply Z.mul_reg_l in E; [|lia]. apply Z.mul_reg_l in E; lia.
Qed.

End AttentionForward.

(** ** Class-conditional normalisation and the generator block *)

Lemma BatchNorm2d_forward_shape (b : nn.BatchNorm2d) (x : Tensor) (B C H W : Z) :
  Arch.bnorm b C = true -> shape x = [B; C; H; W] -> B * H * W <> 1 ->
  exists t, nn.BatchNorm2d_forward b x = Some t /\ shape t = [B; C; H; W].
Proof.
  intros A S Hn. apply Z.eqb_eq in A.
  unfold nn.BatchNorm2d_forward. rewrite S, A, Z.eqb_refl. cbn [negb].
  rewrite (proj2 (Z.eqb_neq _ _) Hn), andb_false_r.
  eexists. split; reflexivity.
Qed.

Lemma Linear_forward_shape (l : nn.Linear) (i o : Z) (x : Tensor) (B : Z) :
  Arch.linear l i o = true -> shape x = [B; i] ->
  exists t, nn.Linear_forward l x = Some t /\ shape t = [B; o]
    /\ forall b_ k, data t [b_; k]
         = (Rsum i (fun j => data x [b_; j] * nn.weight (nn.lin_weight l) [k; j])
            + nn.bias_at (nn.lin_bias l) k)%R.
Proof.
  intros A S. apply linear_arch in A as (Ei & Eo).
  unfold nn.Linear_forward. rewrite S, Ei, Z.eqb_refl.
  eexists. split; [reflexivity|]. cbn [shape data]. rewrite Eo. split; reflexivity.
Qed.

Lemma binop_shape (f : R -> R -> R) (a b : Tensor) (s : list Z) :
  torch.broadcast_shapes (shape a) (shape b) = Some s ->
  exists t, torch.binop f a b = Some t /\ shape t = s.
Proof.
  intros E. unfold torch.binop. rewrite E. cbn [bind].
  eexists. split; reflexivity.
Qed.

Lemma ccbn_arch (m : ClassConditionalBatchNorm2d.t) (D C : Z) :
  Arch.ccbn m D C = true ->
  Arch.bnorm (ClassConditionalBatchNorm2d.bn m) C = true
  /\ Arch.linear (ClassConditionalBatchNorm2d.class_scale_transform m) D C = true
  /\ Arch.linear (ClassConditionalBatchNorm2d.class_shift_transform m) D C = true.
Proof.
  unfold Arch.ccbn. rewrite !andb_true_iff. intros ((H1 & H2) & H3). auto.
Qed.

Lemma ccbn_forward_shape (m : ClassConditionalBatchNorm2d.t) (x y : Tensor)
    (B C D H W : Z) :
  Arch.ccbn m D C = true ->
  shape x = [B; C; H; W] -> shape y = [B; D] -> B * H * W <> 1 ->
  exists t, ClassConditionalBatchNorm2d.forward m x y = Some t
            /\ shape t = [B; C; H; W].
Proof.
  intros A Sx Sy Hn. apply ccbn_arch in A as (Ab & As & Ah).
  unfold ClassConditionalBatchNorm2d.forward.
  destruct (BatchNorm2d_forward_shape _ x B C H W Ab Sx Hn) as (nx & En & Sn).
  rewrite En. cbn [bind].
  destruct (Linear_forward_shape _ _ _ y B As Sy) as (s & Es & Ss & _).
  rewrite Es. cbn [bind].
  unfold torch.unsqueeze23 at 1, torch.add_scalar, torch.map_elems. cbn [shape].
  rewrite Ss. cbn [bind].
  destruct (Linear_forward_shape _ _ _ y B Ah Sy) as (s' & Es' & Ss' & _).
  rewrite Es'. cbn [bind]. unfold torch.unsqueeze23. rewrite Ss'. cbn [bind].
  unfold torch.mul.
  edestruct (binop_shape Rmult) as (sc & Esc & Ssc);
    [|rewrite Esc; cbn [bind]].
  { cbn [shape]. rewrite Sn. apply broadcast_11_l. }
  unfold torch.add.
  edestruct (binop_shape Rplus sc) as (out & Eout & Sout);
    [|rewrite Eout; eexists; split; [reflexivity|exact Sout]].
  rewrite Ssc. cbn [shape]. apply broadcast_11_r.
Qed.

Lemma Upsample_shape (x : Tensor) (s B C H W : Z) :
  shape x = [B; C; H; W] ->
  exists t, nn.Upsample s x = Some t /\ shape t = [B; C; H * s; W * s].
Proof.
  intros S. unfold nn.Upsample. rewrite S. eexists. split; reflexivity.
Qed.

Lemma mixin_conv_arch (flag : bool) (c : option nn.Conv2d) (Cin Cout : Z) :
  Arch.mixin_conv flag c Cin Cout = true -> flag = true ->
  exists mc, c = Some mc /\ Arch.conv mc Cin Cout 1 0 = true.
Proof.
  unfold Arch.mixin_conv. intros H ->. destruct c as [mc|]; [|discriminate].
  now exists mc.
Qed.

Lemma gres_arch (m : GResidualBlock.t) (D Cin Cout : Z) :
  Arch.gres m D Cin Cout = true ->
  Arch.conv (GResidualBlock.conv1 m) Cin Cout 3 1 = true
  /\ Arch.conv (GResidualBlock.conv2 m) Cout Cout 3 1 = true
  /\ Arch.ccbn (GResidualBlock.bn1 m) D Cin = true
  /\ Arch.ccbn (GResidualBlock.bn2 m) D Cout = true
  /\ GResidualBlock.upsample_scale m = 2
  /\ GResidualBlock.mixin m = negb (Cin =? Cout)
  /\ Arch.mixin_conv (GResidualBlock.mixin m) (GResidualBlock.conv_mixin m) Cin Cout = true.
Proof.
  unfold Arch.gres. rewrite !andb_true_iff.
  intros ((((((H1 & H2) & H3) & H4) & H5) & H6) & H7).
  apply Z.eqb_eq in H5. apply eqb_prop in H6. auto 10.
Qed.

Lemma gres_forward_shape (m : GResidualBlock.t) (x y : Tensor) (B D Cin Cout H W : Z) :
  Arch.gres m D Cin Cout = true ->
  shape x = [B; Cin; H; W] -> shape y = [B; D] ->
  1 <= B -> 1 <= H -> 1 <= W -> B * H * W <> 1 ->
  exists t, GResidualBlock.forward m x y = Some t
            /\ shape t = [B; Cout; H * 2; W * 2].
Proof.
  intros A Sx Sy HB HH HW Hn.
  apply gres_arch in A as (A1 & A2 & Ab1 & Ab2 & Eu & Em & Amix).
  unfold GResidualBlock.forward, GResidualBlock.upsample_fn,
    GResidualBlock.activation, nn.ReLU.
  rewrite Eu.
  destruct (ccbn_forward_shape _ x y B Cin D H W Ab1 Sx Sy Hn) as (h1 & E1 & S1).
  rewrite E1. cbn [bind].
  destruct (Upsample_shape (F.relu h1) 2 B Cin H W S1) as (h2 & E2 & S2).
  rewrite E2. cbn [bind].
  destruct (conv3x3_shape _ _ _ h2 B (H * 2) (W * 2) A1 S2) as (h3 & E3 & S3); try lia.
  rewrite E3. cbn [bind].
  destruct (ccbn_forward_shape _ h3 y B Cout D (H * 2) (W * 2) Ab2 S3 Sy)
    as (h4 & E4 & S4); [nia|].
  rewrite E4. cbn [bind].
  destruct (conv3x3_shape _ _ _ (F.relu h4) B (H * 2) (W * 2) A2 S4)
    as (h5 & E5 & S5); try lia.
  rewrite E5. cbn [bind].
  destruct (Upsample_shape x 2 B Cin H W Sx) as (x2 & Ex2 & Sx2).
  rewrite Ex2. cbn [bind].
  assert (Hskip : exists x3,
    (if GResidualBlock.mixin m
     then c <- GResidualBlock.conv_mixin m ;; nn.Conv2d_forward c x2
     else Some x2) = Some x3 /\ shape x3 = [B; Cout; H * 2; W * 2]).
  { destruct (GResidualBlock.mixin m) eqn:Emix.
    - destruct (mixin_conv_arch _ _ _ _ Amix eq_refl) as (mc & Emc & Amc).
      rewrite Emc. cbn [bind].
      apply (conv1x1_shape mc Cin Cout x2 B (H * 2) (W * 2) Amc Sx2); lia.
    - exists x2. split; [reflexivity|]. symmetry in Em.
      apply negb_false_iff, Z.eqb_eq in Em. now rewrite <- Em. }
  destruct Hskip as (x3 & Ex3 & Sx3). rewrite Ex3. cbn [bind].
  destruct (add_same_shape h5 x3) as (out & Eo & So & _); [now rewrite S5, Sx3|].
  exists out. split; [exact Eo|]. now rewrite So, S5.
Qed.

(** ** The generator *)

Lemma tanh_bounds (v : R) : (-1 <= Rtrigo_def.tanh v <= 1)%R.
Proof.
  unfold Rtrigo_def.tanh, sinh, cosh.
  pose proof (exp_pos v) as Ha. pose proof (exp_pos (- v)) as Hb.
  set (a := exp v) in *. set (b := exp (- v)) in *.
  replace ((a - b) / 2 / ((a + b) / 2))%R with ((a - b) / (a + b))%R
    by (field; lra).
  split.
  - apply Rmult_le_reg_r with (a + b)%R; [lra|].
    unfold Rdiv. rewrite Rmult_assoc, Rinv_l by lra. lra.
  - apply Rmult_le_reg_r with (a + b)%R; [lra|].
    unfold Rdiv. rewrite Rmult_assoc, Rinv_l by lra. lra.
Qed.

Lemma nth_error_range (n : Z) (i : nat) :
  (i < Z.to_nat n)%nat -> nth_error (range n) i = Some (Z.of_nat i).
Proof.
  intros Hi. unfold range. rewrite nth_error_map.
  rewrite nth_error_seq. apply Nat.ltb_lt in Hi. now rewrite Hi.
Qed.

Lemma nth_error_tl {A : Type} (l : list A) (i : nat) :
  nth_error (tl l) i = nth_error l (S i).
Proof. destruct l; [now destruct i|reflexivity]. Qed.

Lemma mapM_all {A B : Type} (h : A -> option B) (P : A -> B -> Prop) (l : list A) :
  (forall a, In a l -> exists b, h a = Some b /\ P a b) ->
  exists bs, mapM h l = Some bs /\ Forall2 P l bs.
Proof.
  induction l as [|a l IH]; intros Hall.
  - exists []. split; [reflexivity|constructor].
  - destruct (Hall a (or_introl eq_refl)) as (b & Eb & Pb).
    destruct IH as (bs & Ebs & Pbs); [intros a' Ha'; apply Hall; now right|].
    exists (b :: bs). cbn [mapM]. rewrite Eb. cbn [bind]. rewrite Ebs.
    split; [reflexivity|now constructor].
Qed.

Lemma Forall2_nth_error {A B : Type} (P : A -> B -> Prop) (l : list A) (bs : list B)
    (i : nat) (a : A) :
  Forall2 P l bs -> nth_error l i = Some a ->
  exists b, nth_error bs i = Some b /\ P a b.
Proof.
  intros F. revert i. induction F as [|a0 b0 l bs Pab _ IH]; intros i E.
  - now destruct i.
  - destruct i as [|i]; cbn [nth_error] in *.
    + injection E as ->. now exists b0.
    + now apply IH.
Qed.

Lemma chunk_count (zd : Z) :
  6 <= zd -> 6 <= Z.max ((zd + zd / 6 - 1) / (zd / 6)) 1.
Proof.
  intros Hz. assert (Hc : 1 <= zd / 6) by divlia.
  assert (6 * (zd / 6) <= zd) by divlia.
  assert (6 <= (zd + zd / 6 - 1) / (zd / 6)); [|lia].
  apply Z.div_le_lower_bound; lia.
Qed.

Lemma chunk_count_exact (c : Z) :
  1 <= c -> Z.max ((6 * c + c - 1) / c) 1 = 6.
Proof.
  intros Hc. replace ((6 * c + c - 1) / c) with 6; [lia|].
  apply Z.div_unique with (c - 1); lia.
Qed.

Lemma split_chunks (z : Tensor) (B D c : Z) :
  shape z = [B; D] -> 1 <= c ->
  exists f,
    torch.split z c = Some (map f (range (Z.max ((D + c - 1) / c) 1)))
    /\ forall k, shape (f k) = [B; Z.min c (D - k * c)]
                 /\ forall b_ j, data (f k) [b_; j] = data z [b_; k * c + j].
Proof.
  intros S Hc. unfold torch.split. rewrite S. zbool. cbn [andb].
  eexists. split; [reflexivity|]. intros k. cbn [shape data]. split; reflexivity.
Qed.

Lemma cat_shape (a b : Tensor) (B Da Db : Z) :
  shape a = [B; Da] -> shape b = [B; Db] ->
  exists t, torch.cat a b = Some t /\ shape t = [B; Da + Db]
    /\ forall b_ j, data t [b_; j]
         = if j <? Da then data a [b_; j] else data b [b_; j - Da].
Proof.
  intros Sa Sb. unfold torch.cat. rewrite Sa, Sb, Z.eqb_refl.
  eexists. repeat split.
Qed.

Lemma chunks_ok (G : Generator.t) (z y : Tensor) (B zd sd : Z) :
  Generator.z_chunk_size G = zd / 6 ->
  shape z = [B; zd] -> shape y = [B; sd] -> 6 <= zd ->
  exists zs ys,
    Generator.chunks G z y = Some (zs, ys)
    /\ torch.split z (zd / 6) = Some zs
    /\ length zs = Z.to_nat (Z.max ((zd + zd / 6 - 1) / (zd / 6)) 1)
    /\ S (length ys) = length zs
    /\ (forall i, (i < 6)%nat ->
          exists zi, nth_error zs i = Some zi /\ shape zi = [B; zd / 6])
    /\ (forall i, (i < 5)%nat ->
          exists zi yi, nth_error zs (S i) = Some zi /\ nth_error ys i = Some yi
                        /\ torch.cat y zi = Some yi
                        /\ shape yi = [B; sd + zd / 6]).
Proof.
  intros Ec Sz Sy Hz.
  assert (Hc : 1 <= zd / 6) by divlia.
  assert (H6 : 6 * (zd / 6) <= zd) by divlia.
  pose proof (chunk_count zd Hz) as Hn.
  destruct (split_chunks z B zd (zd / 6) Sz Hc) as (f & Es & Hf).
  set (n := Z.max ((zd + zd / 6 - 1) / (zd / 6)) 1) in *.
  assert (Hzs : forall i, (i < 6)%nat ->
            nth_error (map f (range n)) i = Some (f (Z.of_nat i))
            /\ shape (f (Z.of_nat i)) = [B; zd / 6]).
  { intros i Hi. rewrite nth_error_map, nth_error_range by lia. split; [reflexivity|].
    destruct (Hf (Z.of_nat i)) as (Sf & _). rewrite Sf. f_equal. f_equal. nia. }
  destruct (mapM_all (fun zi => torch.cat y zi)
              (fun zi yi => torch.cat y zi = Some yi
                            /\ forall w, shape zi = [B; w] -> shape yi = [B; sd + w])
              (tl (map f (range n)))) as (ys & Eys & Fys).
  { intros a Ha. assert (Ha' : In a (map f (range n))).
    { destruct (map f (range n)); [destruct Ha|now right]. }
    apply in_map_iff in Ha' as (k & <- & _). destruct (Hf k) as (Sf & _).
    destruct (cat_shape y (f k) B sd _ Sy Sf) as (t & Et & St & _).
    exists t. split; [exact Et|]. split; [exact Et|].
    intros w Sw. rewrite Sf in Sw. injection Sw as <-. exact St. }
  exists (map f (range n)), ys. split; [|split; [exact Es|split; [|split; [|split]]]].
  - unfold Generator.chunks. rewrite Ec, Es. cbn [bind]. rewrite Eys. reflexivity.
  - unfold range. now rewrite !length_map, length_seq.
  - rewrite <- (Forall2_length Fys). unfold range.
    rewrite !length_map, length_seq.
    destruct (Z.to_nat n) eqn:En; [lia|]. cbn [seq map tl].
    now rewrite !length_map, length_seq.
  - intros i Hi. destruct (Hzs i Hi) as (E & Sf). eauto.
  - intros i Hi. destruct (Hzs (S i)) as (E & Sf); [lia|].
    assert (E' : nth_error (tl (map f (range n))) i = Some (f (Z.of_nat (S i))))
      by now rewrite nth_error_tl.
    destruct (Forall2_nth_error _ _ _ _ _ Fys E') as (yi & Eyi & Ecat & Syi).
    exists (f (Z.of_nat (S i))), yi. auto.
Qed.

Lemma project_shape (G : Generator.t) (z0 : Tensor) (B c bc bw : Z) :
  Generator.bottom_width G = bw ->
  Arch.linear (Generator.proj_z G) c (16 * bc * bw ^ 2) = true ->
  shape z0 = [B; c] -> 1 <= B -> 1 <= bw ->
  exists h, Generator.project G z0 = Some h /\ shape h = [B; 16 * bc; bw; bw].
Proof.
  intros Ebw Al S HB Hbw. unfold Generator.project.
  destruct (Linear_forward_shape _ _ _ z0 B Al S) as (h & Eh & Sh & _).
  rewrite Eh. cbn [bind]. rewrite Sh, Ebw. cbn [hd].
  unfold torch.view. rewrite Sh, infer_size_channels by lia.
  cbn [numel fold_right].
  replace (B * (16 * bc * bw ^ 2 * 1)) with (16 * bc * (B * (bw * bw)))
    by (rewrite Z.pow_2_r; ring).
  assert (0 < B * (bw * bw)) by nia.
  rewrite Z.mod_mul, Z.div_mul by lia. cbn [Z.eqb bind].
  eexists. split; reflexivity.
Qed.

Lemma last_cons (l : list Z) (a d : Z) : last (a :: l) d = last l a.
Proof.
  revert a d. induction l as [|b l IH]; intros a d; [reflexivity|].
  change (last (a :: b :: l) d) with (last (b :: l) d).
  now rewrite (IH b d), (IH b a).
Qed.

Lemma doubled_not_one (B H W : Z) :
  1 <= B -> 1 <= H -> 1 <= W -> B * (H * 2) * (W * 2) <> 1.
Proof.
  intros HB HH HW. assert (1 <= B * H) by nia.
  assert (1 <= B * H * W) by nia.
  replace (B * (H * 2) * (W * 2)) with (4 * (B * H * W)) by ring. lia.
Qed.

(** One stage: residual block, then attention at the doubled resolution. *)
Lemma gstage_shape (r : GResidualBlock.t) (a : AttentionBlock.t) (h y : Tensor)
    (B D cin cout H W : Z) :
  Arch.gres r D cin cout = true -> Arch.attention a cout = true ->
  shape h = [B; cin; H; W] -> shape y = [B; D] ->
  1 <= B -> 1 <= H -> 1 <= W -> B * H * W <> 1 -> 8 <= cout ->
  exists h', (h1 <- GResidualBlock.forward r h y ;; AttentionBlock.forward a h1)
             = Some h'
             /\ shape h' = [B; cout; H * 2; W * 2].
Proof.
  intros Ar Aa Sh Sy HB HH HW Hn Hc.
  destruct (gres_forward_shape r h y B D cin cout H W Ar Sh Sy HB HH HW Hn)
    as (h1 & E1 & S1).
  rewrite E1. cbn [bind].
  destruct (forward_ok a h1 B cout (H * 2) (W * 2) Aa S1 Hc) as (h' & _ & E & S' & _);
    try lia.
  { rewrite !Z.div_mul by lia. replace (H * 2 * (W * 2)) with (H * W * 4) by ring.
    now rewrite Z.div_mul by lia. }
  now exists h'.
Qed.

Lemma run_blocks_shape (blocks : list (GResidualBlock.t * AttentionBlock.t)) :
  forall (schedule : list (Z * Z)) (ys : list Tensor) (idx : nat) (h : Tensor)
         (B D cin H W : Z),
    Arch.gstages blocks D schedule = true -> chained cin schedule ->
    (forall i, (i < length blocks)%nat ->
       exists y, nth_error ys (idx + i) = Some y /\ shape y = [B; D]) ->
    shape h = [B; cin; H; W] ->
    1 <= B -> 1 <= H -> 1 <= W -> B * H * W <> 1 ->
    exists h', Generator.run_blocks blocks ys idx h = Some h'
               /\ shape h' = [B; last (map snd schedule) cin;
                              H * 2 ^ Z.of_nat (length blocks);
                              W * 2 ^ Z.of_nat (length blocks)].
Proof.
  induction blocks as [|blk blocks IH];
    intros schedule ys idx h B D cin H W A Hch Hys Sh HB HH HW Hn.
  - destruct schedule; [|discriminate]. exists h. split; [reflexivity|].
    cbn [length Z.of_nat map last]. now rewrite Z.pow_0_r, !Z.mul_1_r.
  - destruct schedule as [|[ci co] schedule]; [discriminate|].
    cbn [Arch.gstages] in A. rewrite !andb_true_iff in A.
    destruct A as ((Ar & Aa) & Arest). destruct Hch as (-> & Hco & Hch).
    destruct (Hys 0%nat) as (y & Ey & Sy); [cbn; lia|]. rewrite Nat.add_0_r in Ey.
    cbn [Generator.run_blocks]. rewrite Ey. cbn [bind].
    destruct (gstage_shape (fst blk) (snd blk) h y B D cin co H W Ar Aa Sh Sy)
      as (h1 & E1 & S1); try assumption.
    destruct (GResidualBlock.forward (fst blk) h y) as [hr|]; [|discriminate].
    cbn [bind] in *. rewrite E1. cbn [bind].
    destruct (IH schedule ys (S idx) h1 B D co (H * 2) (W * 2) Arest Hch)
      as (h' & E' & S'); try lia; try exact S1; try (now apply doubled_not_one).
    { intros i Hi. destruct (Hys (S i)) as (y' & Ey' & Sy'); [cbn; lia|].
      exists y'. split; [|exact Sy']. now rewrite <- Ey', Nat.add_succ_r. }
    exists h'. split; [exact E'|]. rewrite S'. cbn [length map snd].
    rewrite Nat2Z.inj_succ, Z.pow_succ_r, last_cons, !Z.mul_assoc by lia.
    reflexivity.
Qed.

Lemma proj_o_shape (G : Generator.t) (h : Tensor) (B bc H W : Z) :
  Arch.bnorm (Generator.proj_o_bn G) bc = true ->
  Arch.conv (Generator.proj_o_conv G) bc 3 1 0 = true ->
  shape h = [B; bc; H; W] -> 1 <= H -> 1 <= W -> B * H * W <> 1 ->
  exists out, Generator.proj_o G h = Some out /\ shape out = [B; 3; H; W]
              /\ forall idx, (-1 <= data out idx <= 1)%R.
Proof.
  intros Ab Ac S HH HW Hn. unfold Generator.proj_o.
  destruct (BatchNorm2d_forward_shape _ h B bc H W Ab S Hn) as (h1 & E1 & S1).
  rewrite E1. cbn [bind].
  destruct (conv1x1_shape _ _ _ (nn.ReLU h1) B H W Ac S1) as (h2 & E2 & S2);
    try assumption.
  rewrite E2. cbn [bind]. eexists. split; [reflexivity|]. split; [exact S2|].
  intros idx. cbn [nn.Tanh torch.tanh torch.map_elems data]. apply tanh_bounds.
Qed.

(** ** The discriminator *)

Lemma dres_arch (m : DResidualBlock.t) (Cin Cout : Z) (ds pre : bool) :
  Arch.dres m Cin Cout ds pre = true ->
  Arch.conv (DResidualBlock.conv1 m) Cin Cout 3 1 = true
  /\ DResidualBlock.use_preactivation m = pre
  /\ DResidualBlock.downsample m = ds
  /\ (ds = true -> DResidualBlock.downsample_kernel m = Some 2)
  /\ DResidualBlock.mixin m = negb (Cin =? Cout) || ds
  /\ Arch.mixin_conv (DResidualBlock.mixin m) (DResidualBlock.conv_mixin m) Cin Cout = true.
Proof.
  unfold Arch.dres. rewrite !andb_true_iff.
  intros (((((H1 & H2) & H3) & H4) & H5) & H6).
  apply eqb_prop in H2, H3, H5. repeat split; try assumption.
  intros ->. destruct (DResidualBlock.downsample_kernel m) as [k|]; [|discriminate].
  apply Z.eqb_eq in H4. now subst k.
Qed.

Lemma dres_forward_shape (m : DResidualBlock.t) (x : Tensor)
    (B Cin Cout H W : Z) (ds pre : bool) :
  Arch.dres m Cin Cout ds pre = true ->
  shape x = [B; Cin; H; W] -> 1 <= H -> 1 <= W ->
  (ds = true -> 2 <= H /\ 2 <= W) ->
  exists t, DResidualBlock.forward m x = Some t
            /\ shape t = [B; Cout; if ds then H / 2 else H; if ds then W / 2 else W].
Proof.
  intros A Sx HH HW Hds.
  apply dres_arch in A as (A1 & Epre & Eds & Ek & Em & Amix).
  assert (Hmain : exists h,
    (h <- nn.Conv2d_forward (DResidualBlock.conv1 m)
            (if DResidualBlock.use_preactivation m then F.relu x else x) ;;
     (if DResidualBlock.downsample m
      then DResidualBlock.downsample_fn m (DResidualBlock.activation h)
      else Some (DResidualBlock.activation h))) = Some h
    /\ shape h = [B; Cout; if ds then H / 2 else H; if ds then W / 2 else W]).
  { destruct (conv3x3_shape _ _ _
                (if DResidualBlock.use_preactivation m then F.relu x else x)
                B H W A1) as (h & Eh & Sh); try assumption.
    { now destruct (DResidualBlock.use_preactivation m). }
    rewrite Eh. cbn [bind]. rewrite Eds. destruct ds.
    - unfold DResidualBlock.downsample_fn. rewrite (Ek eq_refl). cbn [bind].
      destruct (Hds eq_refl).
      apply (avg_pool2d_shape (DResidualBlock.activation h) B Cout H W Sh); lia.
    - eexists. split; [reflexivity|exact Sh]. }
  assert (Hskip : exists r,
    DResidualBlock._residual m x = Some r
    /\ shape r = [B; Cout; if ds then H / 2 else H; if ds then W / 2 else W]).
  { unfold DResidualBlock._residual, DResidualBlock.apply_mixin,
      DResidualBlock.downsample_fn.
    rewrite Epre, Eds. destruct ds.
    - destruct (Hds eq_refl) as (H2 & W2).
      rewrite orb_true_r in Em.
      destruct (mixin_conv_arch _ _ _ _ Amix Em) as (mc & Emc & Amc).
      rewrite Em, Emc, (Ek eq_refl). cbn [bind].
      assert (1 <= H / 2 /\ 1 <= W / 2) as (Hh2 & Hw2) by (split; divlia).
      destruct pre.
      + destruct (conv1x1_shape mc _ _ x B H W Amc Sx) as (x1 & E1 & S1);
          try assumption.
        rewrite E1. cbn [bind]. apply (avg_pool2d_shape x1 B Cout H W S1); lia.
      + destruct (avg_pool2d_shape x B Cin H W Sx) as (x1 & E1 & S1); try lia.
        rewrite E1. cbn [bind].
        apply (conv1x1_shape mc _ _ x1 B (H / 2) (W / 2) Amc S1); assumption.
    - rewrite orb_false_r in Em.
      assert (Hmix : exists r,
        (if DResidualBlock.mixin m
         then c <- DResidualBlock.conv_mixin m ;; nn.Conv2d_forward c x
         else Some x) = Some r /\ shape r = [B; Cout; H; W]).
      { destruct (DResidualBlock.mixin m) eqn:Emix.
        - destruct (mixin_conv_arch _ _ _ _ Amix eq_refl) as (mc & Emc & Amc).
          rewrite Emc. cbn [bind].
          apply (conv1x1_shape mc _ _ x B H W Amc Sx); assumption.
        - exists x. split; [reflexivity|]. symmetry in Em.
          apply negb_false_iff, Z.eqb_eq in Em. now rewrite <- Em. }
      destruct Hmix as (r & Er & Sr).
      destruct pre; cbn [bind]; [rewrite Er|]; cbn [bind]; eauto. }
  destruct Hmain as (h & Eh & Sh). destruct Hskip as (r & Er & Sr).
  unfold DResidualBlock.forward.
  destruct (nn.Conv2d_forward (DResidualBlock.conv1 m)
              (if DResidualBlock.use_preactivation m then F.relu x else x))
    as [h0|]; [|discriminate].
  cbn [bind] in *. rewrite Eh. cbn [bind]. rewrite Er. cbn [bind].
  destruct (add_same_shape h r) as (out & Eo & So & _); [now rewrite Sh, Sr|].
  exists out. split; [exact Eo|]. now rewrite So, Sh.
Qed.

Lemma dstages_nil (ls : list Discriminator.layer) :
  Arch.dstages ls [] = true -> ls = [Discriminator.Relu].
Proof.
  destruct ls as [|[b|a|] [|[b'|a'|] ls']]; cbn; try discriminate; reflexivity.
Qed.

Lemma dstages_cons (ls : list Discriminator.layer) (ci co : Z) (ds pre : bool)
    (schedule : list (Z * Z * bool * bool)) :
  Arch.dstages ls ((ci, co, ds, pre) :: schedule) = true ->
  exists b a ls',
    ls = Discriminator.Res b :: Discriminator.Attn a :: ls'
    /\ Arch.dres b ci co ds pre = true
    /\ Arch.attention a co = true
    /\ Arch.dstages ls' schedule = true.
Proof.
  destruct ls as [|[b|a|] [|[b'|a'|] ls']]; cbn [Arch.dstages];
    try discriminate.
  rewrite !andb_true_iff. intros ((Ab & Aa) & Ar). now exists b, a', ls'.
Qed.

Lemma sequential_shape (schedule : list (Z * Z * bool * bool)) :
  forall (ls : list Discriminator.layer) (x : Tensor) (B cin H W : Z),
    Arch.dstages ls schedule = true -> dchained cin H W schedule ->
    shape x = [B; cin; H; W] ->
    exists h, Discriminator.sequential ls x = Some h
              /\ shape h = [B; final_channels cin schedule;
                            final_extent H schedule; final_extent W schedule].
Proof.
  induction schedule as [|[[[ci co] ds] pre] schedule IH];
    intros ls x B cin H W A Hch Sx.
  - apply dstages_nil in A as ->.
    exists (nn.ReLU x). split; [reflexivity|exact Sx].
  - apply dstages_cons in A as (b & a & ls' & -> & Ab & Aa & Arest).
    rename ls' into ls.
    destruct Hch as (-> & Hco & HH & HW & Hds & HH' & HW' & Hq & Hch).
    destruct (dres_forward_shape b x B cin co H W ds pre Ab Sx HH HW Hds)
      as (x1 & E1 & S1).
    destruct (forward_ok a x1 B co _ _ Aa S1 Hco HH' HW' Hq) as (x2 & _ & E2 & S2 & _).
    cbn [Discriminator.sequential Discriminator.layer_forward].
    rewrite E1. cbn [bind]. rewrite E2. cbn [bind].
    destruct (IH ls x2 B co _ _ Arest Hch S2) as (h & Eh & Sh).
    exists h. split; [exact Eh|]. rewrite Sh.
    unfold final_channels. cbn [map fst snd final_extent]. now rewrite last_cons.
Qed.

Lemma dschedule_chained (bc kh kw : Z) :
  8 <= bc -> 1 <= kh -> 1 <= kw ->
  dchained 3 (64 * kh) (64 * kw) (Arch.dschedule bc)
  /\ final_channels 3 (Arch.dschedule bc) = 16 * bc
  /\ final_extent (64 * kh) (Arch.dschedule bc) = 2 * kh
  /\ final_extent (64 * kw) (Arch.dschedule bc) = 2 * kw.
Proof.
  intros Hbc Hkh Hkw.
  assert (Eh : forall n k, (2 * n * k) / 2 = n * k).
  { intros n k. replace (2 * n * k) with (n * k * 2) by ring.
    apply Z.div_mul. lia. }
  assert (E64 : forall k, 64 * k / 2 = 32 * k) by (intros; apply (Eh 32)).
  assert (E32 : forall k, 32 * k / 2 = 16 * k) by (intros; apply (Eh 16)).
  assert (E16 : forall k, 16 * k / 2 = 8 * k) by (intros; apply (Eh 8)).
  assert (E8 : forall k, 8 * k / 2 = 4 * k) by (intros; apply (Eh 4)).
  assert (E4 : forall k, 4 * k / 2 = 2 * k) by (intros; apply (Eh 2)).
  assert (E2 : forall k, 2 * k / 2 = k).
  { intros k. rewrite Z.mul_comm. apply Z.div_mul. lia. }
  unfold final_channels.
  cbn [dchained Arch.dschedule final_extent map fst snd last].
  rewrite !E64, !E32, !E16, !E8, !E4, !E2.
  repeat split; try lia; try discriminate;
    apply Z.div_unique_exact; solve [lia | ring].
Qed.

Lemma sum_dims23_shape (h : Tensor) (B C H W : Z) :
  shape h = [B; C; H; W] ->
  exists t, torch.sum_dims23 h = Some t /\ shape t = [B; C]
    /\ forall b_ c, data t [b_; c]
         = Rsum H (fun i => Rsum W (fun j => data h [b_; c; i; j])).
Proof.
  intros S. unfold torch.sum_dims23, torch.sum_dim. rewrite S.
  cbn [length Nat.ltb Nat.leb bind shape firstn skipn app nth].
  eexists. split; [reflexivity|]. split; reflexivity.
Qed.

Lemma embedding_arch (e : nn.Embedding) (n d : Z) :
  Arch.embedding e n d = true ->
  nn.num_embeddings e = n /\ nn.embedding_dim e = d.
Proof.
  unfold Arch.embedding. rewrite andb_true_iff. intros (H1 & H2).
  split; apply Z.eqb_eq; assumption.
Qed.

Lemma Embedding_forward_shape (e : nn.Embedding) (n d : Z) (y : list Z) :
  Arch.embedding e n d = true -> Forall (fun l => 0 <= l < n) y ->
  exists t, nn.Embedding_forward e y = Some t
    /\ shape t = [Z.of_nat (length y); d]
    /\ forall b_ c, data t [b_; c]
         = nn.weight (nn.emb_weight e) [nth (Z.to_nat b_) y 0; c].
Proof.
  intros A Hy. apply embedding_arch in A as (En & Ed).
  unfold nn.Embedding_forward.
  replace (forallb _ y) with true.
  - eexists. split; [reflexivity|]. cbn [shape data]. rewrite Ed.
    split; reflexivity.
  - symmetry. apply forallb_forall. intros l Hl.
    rewrite Forall_forall in Hy. specialize (Hy l Hl). rewrite En.
    apply andb_true_iff. split; [apply Z.leb_le|apply Z.ltb_lt]; lia.
Qed.

Lemma sum_dim1_keep_shape (t : Tensor) (B C : Z) :
  shape t = [B; C] ->
  exists s, torch.sum_dim 1 true t = Some s /\ shape s = [B; 1]
    /\ forall b_ j, data s [b_; j] = Rsum C (fun c => data t [b_; c]).
Proof.
  intros S. unfold torch.sum_dim. rewrite S.
  cbn [length Nat.ltb Nat.leb shape firstn skipn app nth].
  eexists. split; [reflexivity|]. split; reflexivity.
Qed.

Lemma mul_same_shape (a b : Tensor) :
  shape a = shape b ->
  exists t, torch.mul a b = Some t /\ shape t = shape a
            /\ forall idx, in_range (shape a) idx ->
                 data t idx = (data a idx * data b idx)%R.
Proof.
  intros S. unfold torch.mul, torch.binop. rewrite <- S, broadcast_same.
  cbn [bind]. eexists. repeat split. intros idx Hr. cbn [data].
  now rewrite bidx_in_range.
Qed.

Lemma in_range2 (B C b_ c : Z) :
  0 <= b_ < B -> 0 <= c < C -> in_range [B; C] [b_; c].
Proof.
  intros Hb Hc. unfold in_range.
  constructor; [exact Hb|]. constructor; [exact Hc|]. constructor.
Qed.

Lemma Rsum_ext_range (n : Z) (f g : Z -> R) :
  (forall k, 0 <= k < n -> f k = g k) -> Rsum n f = Rsum n g.
Proof.
  intros E. unfold Rsum.
  assert (Hk : forall k, (k <= Z.to_nat n)%nat -> rsum_nat k f = rsum_nat k g).
  { induction k as [|k IH]; intros Hk; [reflexivity|].
    cbn [rsum_nat]. rewrite IH by lia. f_equal. apply E. lia. }
  now apply Hk.
Qed.

(** ** The attention block: identity at zero gain, attention weights,
       and the inputs it accepts *)



(** C6. Key and value are max-pooled by 2 in both spatial dimensions and
    flattened; the attention weights have shape [B; H*W; H*W/4] and are the
    softmax over the last axis of the plain product of the transposed query
    with the key, with no scaling factor. *)
Theorem attention_weights_unscaled_softmax (m : AttentionBlock.t) (x : Tensor)
    (B C H W : Z) :
  Arch.attention m C = true -> shape x = [B; C; H; W] ->
  1 <= B -> 8 <= C -> 2 <= H -> 2 <= W ->
  (H / 2) * (W / 2) = H * W / 4 ->
  exists phi0 phi1 g0 g1 theta' phi' g' beta,
    nn.Conv2d_forward (AttentionBlock.phi m) x = Some phi0
    /\ F.max_pool2d phi0 2 = Some phi1
    /\ shape phi1 = [B; C / 8; H / 2; W / 2]
    /\ torch.view [-1; C / 8; H * W / 4] phi1 = Some phi'
    /\ nn.Conv2d_forward (AttentionBlock.g m) x = Some g0
    /\ F.max_pool2d g0 2 = Some g1
    /\ shape g1 = [B; C / 2; H / 2; W / 2]
    /\ torch.view [-1; C / 2; H * W / 4] g1 = Some g'
    /\ AttentionBlock.projections m x = Some (theta', phi', g')
    /\ shape theta' = [B; C / 8; H * W]
    /\ shape phi' = [B; C / 8; H * W / 4]
    /\ shape g' = [B; C / 2; H * W / 4]
    /\ AttentionBlock.attention theta' phi' = Some beta
    /\ shape beta = [B; H * W; H * W / 4]
    /\ (forall b_ i j,
          data beta [b_; i; j]
          = Spec.attention_weight theta' phi' (C / 8) (H * W / 4) b_ i j)
    /\ AttentionBlock.forward m x
       = (betaT <- torch.transpose 1 2 beta ;;
          gb <- torch.bmm g' betaT ;;
          gv <- torch.view [-1; AttentionBlock.channels m / 2; H; W] gb ;;
          o' <- nn.Conv2d_forward (AttentionBlock.o m) gv ;;
          scaled <- torch.mul (torch.tensor (AttentionBlock.gamma m)) o' ;;
          torch.add scaled x).
Proof.
  intros A Sx HB HC HH HW Hq.
  destruct (projections_ok m x B C H W A Sx HC HH HW Hq)
    as (theta0 & phi0 & phi1 & g0 & g1 & theta' & phi' & g'
        & _ & Ep0 & Ep1 & Sp1 & Eg0 & Eg1 & Sg1 & _ & Ep & Eg & Epr & St & Sp & Sg).
  destruct (attention_weights_shape theta' phi' _ _ _ _ St Sp) as (beta & Eb & Sb & Db).
  exists phi0, phi1, g0, g1, theta', phi', g', beta.
  repeat (split; [assumption|]).
  unfold AttentionBlock.forward. rewrite Sx, Epr. cbn [bind]. now rewrite Eb.
Qed.

Lemma attention_weights_unscaled_softmax_witness :
  exists phi0 phi1 g0 g1 theta' phi' g' beta,
    nn.Conv2d_forward
      (AttentionBlock.phi (AttentionBlock.init Setup.initial "attn" 16))
      (Setup.zeros [2; 16; 4; 4]) = Some phi0
    /\ F.max_pool2d phi0 2 = Some phi1
    /\ shape phi1 = [2; 16 / 8; 4 / 2; 4 / 2]
    /\ torch.view [-1; 16 / 8; 4 * 4 / 4] phi1 = Some phi'
    /\ nn.Conv2d_forward
         (AttentionBlock.g (AttentionBlock.init Setup.initial "attn" 16))
         (Setup.zeros [2; 16; 4; 4]) = Some g0
    /\ F.max_pool2d g0 2 = Some g1
    /\ shape g1 = [2; 16 / 2; 4 / 2; 4 / 2]
    /\ torch.view [-1; 16 / 2; 4 * 4 / 4] g1 = Some g'
    /\ AttentionBlock.projections (AttentionBlock.init Setup.initial "attn" 16)
         (Setup.zeros [2; 16; 4; 4]) = Some (theta', phi', g')
    /\ shape theta' = [2; 16 / 8; 4 * 4]
    /\ shape phi' = [2; 16 / 8; 4 * 4 / 4]
    /\ shape g' = [2; 16 / 2; 4 * 4 / 4]
    /\ AttentionBlock.attention theta' phi' = Some beta
    /\ shape beta = [2; 4 * 4; 4 * 4 / 4]
    /\ (forall b_ i j,
          data beta [b_; i; j]
          = Spec.attention_weight theta' phi' (16 / 8) (4 * 4 / 4) b_ i j)
    /\ AttentionBlock.forward (AttentionBlock.init Setup.initial "attn" 16)
         (Setup.zeros [2; 16; 4; 4])
       = (betaT <- torch.transpose 1 2 beta ;;
          gb <- torch.bmm g' betaT ;;
          gv <- torch.view
                  [-1; AttentionBlock.channels
                         (AttentionBlock.init Setup.initial "attn" 16) / 2; 4; 4] gb ;;
          o' <- nn.Conv2d_forward
                  (AttentionBlock.o (AttentionBlock.init Setup.initial "attn" 16)) gv ;;
          scaled <- torch.mul
                      (torch.tensor
                         (AttentionBlock.gamma
                            (AttentionBlock.init Setup.initial "attn" 16))) o' ;;
          torch.add scaled (Setup.zeros [2; 16; 4; 4])).
Proof.
  apply (attention_weights_unscaled_softmax
           (AttentionBlock.init Setup.initial "attn" 16)
           (Setup.zeros [2; 16; 4; 4]) 2 16 4 4);
    try reflexivity; lia.
Defined.

(** C10, as the code has it.  On an input [B; C; H; W] (C the block's
    channel count, at least 8) the forward pass returns a tensor exactly
    when H >= 2, W >= 2 and (H/2)*(W/2) = (H*W)/4 with floor divisions, and
    raises otherwise; H and W both even is enough for that, and then the
    result has the input's shape. *)
Theorem attention_forward_succeeds_iff (m : AttentionBlock.t) (x : Tensor)
    (B C H W : Z) :
  Arch.attention m C = true -> shape x = [B; C; H; W] ->
  1 <= B -> 8 <= C ->
  ((exists out, AttentionBlock.forward m x = Some out)
   <-> (2 <= H /\ 2 <= W /\ (H / 2) * (W / 2) = H * W / 4))
  /\ (~ (2 <= H /\ 2 <= W /\ (H / 2) * (W / 2) = H * W / 4)
      -> AttentionBlock.forward m x = None)
  /\ (2 <= H -> 2 <= W -> Z.even H = true -> Z.even W = true ->
      exists out, AttentionBlock.forward m x = Some out /\ shape out = shape x).
Proof.
  intros A Sx HB HC. split; [split|split].
  - intros (out & E).
    destruct (Z_le_gt_dec 2 H) as [HH|HH];
      [destruct (Z_le_gt_dec 2 W) as [HW|HW];
       [destruct (Z.eq_dec ((H / 2) * (W / 2)) (H * W / 4)) as [Hq|Hq]|]|];
      [now auto| | |];
      rewrite (forward_fails m x B C H W A Sx HB HC) in E
        by (intros (? & ? & ?); lia);
      discriminate.
  - intros (HH & HW & Hq).
    destruct (forward_ok m x B C H W A Sx HC HH HW Hq) as (out & _ & E & _).
    now exists out.
  - apply (forward_fails m x B C H W A Sx HB HC).
  - intros HH HW Eh Ew.
    destruct (forward_ok m x B C H W A Sx HC HH HW (even_quarter H W Eh Ew))
      as (out & _ & E & So & _).
    exists out. split; [exact E|]. now rewrite So, Sx.
Qed.

Lemma attention_forward_succeeds_iff_witness :
  ((exists out,
      AttentionBlock.forward (AttentionBlock.init Setup.initial "attn" 8)
                             (Setup.zeros [1; 8; 4; 6]) = Some out)
   <-> (2 <= 4 /\ 2 <= 6 /\ (4 / 2) * (6 / 2) = 4 * 6 / 4))
  /\ (~ (2 <= 4 /\ 2 <= 6 /\ (4 / 2) * (6 / 2) = 4 * 6 / 4)
      -> AttentionBlock.forward (AttentionBlock.init Setup.initial "attn" 8)
                                (Setup.zeros [1; 8; 4; 6]) = None)
  /\ (2 <= 4 -> 2 <= 6 -> Z.even 4 = true -> Z.even 6 = true ->
      exists out,
        AttentionBlock.forward (AttentionBlock.init Setup.initial "attn" 8)
                               (Setup.zeros [1; 8; 4; 6]) = Some out
        /\ shape out = shape (Setup.zeros [1; 8; 4; 6])).
Proof.
  apply (attention_forward_succeeds_iff
           (AttentionBlock.init Setup.initial "attn" 8)
           (Setup.zeros [1; 8; 4; 6]) 1 8 4 6);
    try reflexivity; lia.
Defined.

(** C10 as stated fails: a 3 x 2 input, with an odd height, passes through
    the block. *)
Lemma attention_forward_accepts_odd_height :
  ~ (forall (m : AttentionBlock.t) (x : Tensor) (B C H W : Z),
       Arch.attention m C = true -> shape x = [B; C; H; W] ->
       1 <= B -> 8 <= C -> (8 | C) ->
       (exists out, AttentionBlock.forward m x = Some out) ->
       Z.even H = true /\ Z.even W = true).
Proof.
  intros Hall.
  assert (Hs : exists out,
            AttentionBlock.forward (AttentionBlock.init Setup.initial "attn" 8)
                                   (Setup.zeros [1; 8; 3; 2]) = Some out)
    by (eexists; reflexivity).
  assert (Hd : (8 | 8)) by (exists 1; reflexivity).
  destruct (Hall (AttentionBlock.init Setup.initial "attn" 8)
                 (Setup.zeros [1; 8; 3; 2]) 1 8 3 2
                 eq_refl eq_refl ltac:(lia) ltac:(lia) Hd Hs)
    as (E3 & _).
  discriminate E3.
Qed.

(** ** Residual blocks: what the forward passes compute *)

(** C7. The generator block computes
    h = conv1(upsample(relu(condnorm1(x, y)))), h = conv2(relu(condnorm2(h, y))),
    skip = upsample(x), passes skip through the spectral-normalised 1x1
    mixin convolution exactly when Cin <> Cout, and returns h + skip; both
    paths upsample by 2. *)
Theorem gres_forward_is_spec (p : nn.store) (path : string)
    (c_dim Cin Cout : Z) (x y : Tensor) :
  let blk := GResidualBlock.init p path c_dim Cin Cout in
  let mixin := nn.spectral_norm p (path ++ ".conv_mixin")
                 (nn.Conv2d_init p (path ++ ".conv_mixin") Cin Cout 1 0 true) in
  GResidualBlock.forward blk x y
  = Spec.g_residual (GResidualBlock.conv1 blk) (GResidualBlock.conv2 blk)
                    (GResidualBlock.bn1 blk) (GResidualBlock.bn2 blk)
                    mixin Cin Cout x y
  /\ (GResidualBlock.mixin blk = true <-> Cin <> Cout)
  /\ (Cin <> Cout -> GResidualBlock.conv_mixin blk = Some mixin)
  /\ (Cin = Cout -> GResidualBlock.conv_mixin blk = None)
  /\ nn.kernel_size mixin = 1
  /\ nn.is_spectral (nn.conv_weight mixin) = true
  /\ GResidualBlock.upsample_scale blk = 2.
Proof.
  intros blk mixin. subst blk mixin.
  unfold GResidualBlock.forward, Spec.g_residual, GResidualBlock.upsample_fn,
    GResidualBlock.activation, nn.ReLU, GResidualBlock.init.
  cbn [GResidualBlock.bn1 GResidualBlock.bn2 GResidualBlock.conv1
       GResidualBlock.conv2 GResidualBlock.upsample_scale GResidualBlock.mixin
       GResidualBlock.conv_mixin].
  destruct (Z.eqb_spec Cin Cout) as [E|E]; cbn [negb];
    repeat split; try reflexivity; try congruence; try discriminate.
Qed.

(** C8. In the discriminator block the mixin convolution applies exactly
    when Cin <> Cout or the block downsamples; with pre-activation the skip
    path is mixin then downsampling, without it downsampling then mixin;
    the output is the main path plus the skip path. *)
Theorem dres_forward_is_spec (p : nn.store) (path : string) (Cin Cout : Z)
    (apply_downsample use_preactivation : bool) (x : Tensor) :
  let blk := DResidualBlock.init p path Cin Cout apply_downsample use_preactivation in
  let mixin := nn.spectral_norm p (path ++ ".conv_mixin")
                 (nn.Conv2d_init p (path ++ ".conv_mixin") Cin Cout 1 0 true) in
  (DResidualBlock.mixin blk = true <-> (Cin <> Cout \/ apply_downsample = true))
  /\ DResidualBlock._residual blk x
     = Spec.d_skip mixin Cin Cout apply_downsample use_preactivation x
  /\ DResidualBlock.forward blk x
     = (h <- Spec.d_main (DResidualBlock.conv1 blk)
               apply_downsample use_preactivation x ;;
        skip <- Spec.d_skip mixin Cin Cout apply_downsample use_preactivation x ;;
        torch.add h skip)
  /\ nn.kernel_size mixin = 1
  /\ nn.is_spectral (nn.conv_weight mixin) = true.
Proof.
  intros blk mixin.
  assert (Eres : DResidualBlock._residual blk x
                 = Spec.d_skip mixin Cin Cout apply_downsample use_preactivation x).
  { subst blk mixin.
    unfold DResidualBlock._residual, Spec.d_skip, Spec.when,
      DResidualBlock.apply_mixin, DResidualBlock.downsample_fn,
      DResidualBlock.init.
    cbn [DResidualBlock.use_preactivation DResidualBlock.downsample
         DResidualBlock.downsample_kernel DResidualBlock.mixin
         DResidualBlock.conv_mixin].
    destruct (Z.eqb_spec Cin Cout), apply_downsample, use_preactivation;
      cbn [negb orb bind]; try reflexivity;
      destruct (nn.Conv2d_forward _ x); reflexivity. }
  split; [|split; [exact Eres|split; [|split; reflexivity]]].
  - subst blk. cbn [DResidualBlock.init DResidualBlock.mixin].
    destruct (Z.eqb_spec Cin Cout), apply_downsample; cbn [negb orb];
      split; intros; try reflexivity; try discriminate; auto.
    destruct H as [H|H]; [contradiction|discriminate].
  - unfold DResidualBlock.forward. rewrite Eres. subst blk.
    unfold Spec.d_main, Spec.when, DResidualBlock.activation, nn.ReLU,
      DResidualBlock.downsample_fn, DResidualBlock.init.
    cbn [DResidualBlock.use_preactivation DResidualBlock.downsample
         DResidualBlock.downsample_kernel DResidualBlock.conv1].
    destruct (nn.Conv2d_forward _ _) as [h|]; [|reflexivity]. cbn [bind].
    destruct apply_downsample; reflexivity.
Qed.

(** C9. The output of the discriminator block does not depend on conv2:
    whatever is assigned to it, the forward pass returns the same result. *)
Theorem dres_forward_ignores_conv2 (blk : DResidualBlock.t) (c c' : nn.Conv2d)
    (x : Tensor) :
  DResidualBlock.forward (DResidualBlock.with_conv2 c blk) x
  = DResidualBlock.forward (DResidualBlock.with_conv2 c' blk) x
  /\ DResidualBlock.forward (DResidualBlock.with_conv2 c blk) x
     = DResidualBlock.forward blk x.
Proof. split; reflexivity. Qed.

(** ** Spectral normalisation of the weighted operators *)



(** ** The generator's forward pass *)

Lemma generator_arch (G : Generator.t) (bc bw zd sd : Z) :
  Arch.generator G bc bw zd sd = true ->
  Generator.z_chunk_size G = zd / 6
  /\ Generator.bottom_width G = bw
  /\ Arch.linear (Generator.proj_z G) (zd / 6) (16 * bc * bw ^ 2) = true
  /\ Arch.gstages (Generator.g_blocks G) (sd + zd / 6) (Arch.gschedule bc) = true
  /\ Arch.bnorm (Generator.proj_o_bn G) bc = true
  /\ Arch.conv (Generator.proj_o_conv G) bc 3 1 0 = true.
Proof.
  unfold Arch.generator, Generator.n_chunks. rewrite !andb_true_iff.
  intros (((((H1 & H2) & H3) & H4) & H5) & H6).
  apply Z.eqb_eq in H1, H2. auto 10.
Qed.

Lemma gstages_length (blocks : list (GResidualBlock.t * AttentionBlock.t)) (D : Z) :
  forall schedule, Arch.gstages blocks D schedule = true ->
                   length blocks = length schedule.
Proof.
  induction blocks as [|blk blocks IH]; intros [|[ci co] schedule] A;
    try discriminate; [reflexivity|].
  cbn [Arch.gstages] in A. rewrite !andb_true_iff in A. destruct A as (_ & A).
  cbn [length]. now rewrite (IH schedule A).
Qed.

Lemma gschedule_chained (bc : Z) :
  8 <= bc -> chained (16 * bc) (Arch.gschedule bc).
Proof. intros Hbc. cbn [chained Arch.gschedule]. repeat split; lia. Qed.

(** The loop hands stage number [length before] the conditioning vector at
    that index. *)
Lemma run_blocks_app (before : list (GResidualBlock.t * AttentionBlock.t)) :
  forall (blk : GResidualBlock.t * AttentionBlock.t)
         (after : list (GResidualBlock.t * AttentionBlock.t))
         (ys : list Tensor) (idx : nat) (h : Tensor),
    Generator.run_blocks (before ++ blk :: after) ys idx h
    = (h <- Generator.run_blocks before ys idx h ;;
       y <- nth_error ys (idx + length before) ;;
       h <- GResidualBlock.forward (fst blk) h y ;;
       h <- AttentionBlock.forward (snd blk) h ;;
       Generator.run_blocks after ys (S (idx + length before)) h).
Proof.
  induction before as [|b before IH]; intros blk after ys idx h.
  - cbn [app Generator.run_blocks bind length]. now rewrite Nat.add_0_r.
  - cbn [app Generator.run_blocks length].
    destruct (nth_error ys idx) as [y|]; [|reflexivity]. cbn [bind].
    destruct (GResidualBlock.forward (fst b) h y) as [h1|]; [|reflexivity].
    cbn [bind].
    destruct (AttentionBlock.forward (snd b) h1) as [h2|]; [|reflexivity].
    cbn [bind]. rewrite IH. now rewrite Nat.add_succ_r.
Qed.

(** C1. On noise [B; z_dim] and class embedding [B; shared_dim] the
    generator returns a tensor of shape [B; 3; R; R] with
    R = bottom_width * 2 ^ (number of stages), five stages, every element
    in [-1, 1]. *)
Theorem generator_forward_shape_range (G : Generator.t) (z y : Tensor)
    (bc bw zd sd B : Z) :
  Arch.generator G bc bw zd sd = true ->
  shape z = [B; zd] -> shape y = [B; sd] ->
  1 <= B -> 1 <= bw -> B * bw * bw <> 1 -> 8 <= bc -> 6 <= zd ->
  exists out,
    Generator.forward G z y = Some out
    /\ length (Generator.g_blocks G) = 5%nat
    /\ shape out = [B; 3; bw * 2 ^ Z.of_nat (length (Generator.g_blocks G));
                    bw * 2 ^ Z.of_nat (length (Generator.g_blocks G))]
    /\ forall idx, (-1 <= data out idx <= 1)%R.
Proof.
  intros A Sz Sy HB Hbw Hn Hbc Hzd.
  apply generator_arch in A as (Ec & Ebw & Al & Ag & Ab & Ao).
  pose proof (gstages_length _ _ _ Ag) as Hlen. cbn [Arch.gschedule length] in Hlen.
  destruct (chunks_ok G z y B zd sd Ec Sz Sy Hzd)
    as (zs & ys & Ech & _ & _ & _ & Hzs & Hys).
  destruct (Hzs 0%nat) as (z0 & Ez0 & Sz0); [lia|].
  destruct (project_shape G z0 B (zd / 6) bc bw Ebw Al Sz0 HB Hbw) as (h0 & Eh0 & Sh0).
  destruct (run_blocks_shape (Generator.g_blocks G) (Arch.gschedule bc) ys 0 h0
              B (sd + zd / 6) (16 * bc) bw bw Ag (gschedule_chained bc Hbc))
    as (h5 & E5 & S5); try assumption.
  { intros i Hi. rewrite Hlen in Hi.
    destruct (Hys i Hi) as (zi & yi & _ & Eyi & _ & Syi). now exists yi. }
  rewrite Hlen in *. cbn [Arch.gschedule map snd last] in S5.
  change (2 ^ Z.of_nat 5) with 32 in *.
  destruct (proj_o_shape G h5 B bc (bw * 32) (bw * 32) Ab Ao S5) as (out & Eo & So & Do);
    try lia.
  exists out. split; [|split; [reflexivity|split; assumption]].
  unfold Generator.forward. rewrite Ech. cbn [bind]. rewrite Ez0. cbn [bind].
  rewrite Eh0. cbn [bind]. rewrite E5. exact Eo.
Qed.

Lemma generator_forward_shape_range_witness :
  exists out,
    Generator.forward Setup.generator Setup.z (Setup.zeros [5; 128]) = Some out
    /\ length (Generator.g_blocks Setup.generator) = 5%nat
    /\ shape out = [5; 3; 4 * 2 ^ Z.of_nat (length (Generator.g_blocks Setup.generator));
                    4 * 2 ^ Z.of_nat (length (Generator.g_blocks Setup.generator))]
    /\ forall idx, (-1 <= data out idx <= 1)%R.
Proof.
  apply (generator_forward_shape_range Setup.generator Setup.z
           (Setup.zeros [5; 128]) 96 4 120 128 5);
    try reflexivity; lia.
Defined.

Lemma Forall_of_nth_error {A : Type} (P : A -> Prop) (l : list A) :
  (forall i, (i < length l)%nat -> exists a, nth_error l i = Some a /\ P a) ->
  Forall P l.
Proof.
  induction l as [|a l IH]; intros Hall; [constructor|].
  constructor.
  - destruct (Hall 0%nat) as (a' & E & Pa); [cbn; lia|].
    injection E as <-. exact Pa.
  - apply IH. intros i Hi. apply (Hall (S i)). cbn. lia.
Qed.

(** C4, as the code has it.  When z_dim is a positive multiple of 6 the
    noise is split into exactly six chunks of z_dim / 6 columns; chunk 0
    alone is projected and reshaped to [B; 16 * base_channels; bottom_width;
    bottom_width]; the i-th of the five conditioning vectors is the class
    embedding concatenated with chunk i, of length shared_dim + z_dim / 6,
    and the loop hands it to stage i. *)
Theorem generator_chunks_condition_stages (G : Generator.t) (z y : Tensor)
    (bc bw c sd B : Z) :
  Arch.generator G bc bw (6 * c) sd = true ->
  shape z = [B; 6 * c] -> shape y = [B; sd] ->
  1 <= B -> 1 <= bw -> 1 <= c ->
  exists zs ys z0 h0,
    Generator.z_chunk_size G = c
    /\ torch.split z (Generator.z_chunk_size G) = Some zs
    /\ length zs = 6%nat
    /\ Forall (fun zi => shape zi = [B; c]) zs
    /\ Generator.chunks G z y = Some (zs, ys)
    /\ length ys = 5%nat
    /\ (forall i, (i < 5)%nat ->
          exists zi yi, nth_error zs (S i) = Some zi /\ nth_error ys i = Some yi
                        /\ torch.cat y zi = Some yi
                        /\ shape yi = [B; sd + c])
    /\ nth_error zs 0 = Some z0
    /\ Generator.project G z0 = Some h0
    /\ shape h0 = [B; 16 * bc; bw; bw]
    /\ Generator.forward G z y
       = (h <- Generator.run_blocks (Generator.g_blocks G) ys 0 h0 ;;
          Generator.proj_o G h)
    /\ length (Generator.g_blocks G) = 5%nat
    /\ (forall before blk after h,
          Generator.g_blocks G = before ++ blk :: after ->
          Generator.run_blocks (Generator.g_blocks G) ys 0 h
          = (h <- Generator.run_blocks before ys 0 h ;;
             yi <- nth_error ys (length before) ;;
             h <- GResidualBlock.forward (fst blk) h yi ;;
             h <- AttentionBlock.forward (snd blk) h ;;
             Generator.run_blocks after ys (S (length before)) h)).
Proof.
  intros A Sz Sy HB Hbw Hc.
  apply generator_arch in A as (Ec & Ebw & Al & Ag & Ab & Ao).
  assert (E6 : 6 * c / 6 = c) by (rewrite Z.mul_comm; apply Z.div_mul; lia).
  pose proof (gstages_length _ _ _ Ag) as Hlen. cbn [Arch.gschedule length] in Hlen.
  destruct (chunks_ok G z y B (6 * c) sd Ec Sz Sy ltac:(lia))
    as (zs & ys & Ech & Esp & Lzs & Lys & Hzs & Hys).
  rewrite E6 in *. rewrite chunk_count_exact in Lzs by lia.
  change (Z.to_nat 6) with 6%nat in Lzs.
  destruct (Hzs 0%nat) as (z0 & Ez0 & Sz0); [lia|].
  destruct (project_shape G z0 B c bc bw Ebw Al Sz0 HB Hbw) as (h0 & Eh0 & Sh0).
  exists zs, ys, z0, h0.
  split; [exact Ec|]. split; [now rewrite Ec|]. split; [exact Lzs|].
  split; [apply Forall_of_nth_error; intros i Hi; apply Hzs; lia|].
  split; [exact Ech|]. split; [lia|]. split; [exact Hys|].
  split; [exact Ez0|]. split; [exact Eh0|]. split; [exact Sh0|].
  split; [|split; [exact Hlen|]].
  - unfold Generator.forward. rewrite Ech. cbn [bind]. rewrite Ez0. cbn [bind].
    now rewrite Eh0.
  - intros before blk after h Eg. rewrite Eg. apply (run_blocks_app before).
Qed.

Lemma generator_chunks_condition_stages_witness :
  exists zs ys z0 h0,
    Generator.z_chunk_size Setup.generator = 20
    /\ torch.split Setup.z (Generator.z_chunk_size Setup.generator) = Some zs
    /\ length zs = 6%nat
    /\ Forall (fun zi => shape zi = [5; 20]) zs
    /\ Generator.chunks Setup.generator Setup.z (Setup.zeros [5; 128]) = Some (zs, ys)
    /\ length ys = 5%nat
    /\ (forall i, (i < 5)%nat ->
          exists zi yi, nth_error zs (S i) = Some zi /\ nth_error ys i = Some yi
                        /\ torch.cat (Setup.zeros [5; 128]) zi = Some yi
                        /\ shape yi = [5; 128 + 20])
    /\ nth_error zs 0 = Some z0
    /\ Generator.project Setup.generator z0 = Some h0
    /\ shape h0 = [5; 16 * 96; 4; 4]
    /\ Generator.forward Setup.generator Setup.z (Setup.zeros [5; 128])
       = (h <- Generator.run_blocks (Generator.g_blocks Setup.generator) ys 0 h0 ;;
          Generator.proj_o Setup.generator h)
    /\ length (Generator.g_blocks Setup.generator) = 5%nat
    /\ (forall before blk after h,
          Generator.g_blocks Setup.generator = before ++ blk :: after ->
          Generator.run_blocks (Generator.g_blocks Setup.generator) ys 0 h
          = (h <- Generator.run_blocks before ys 0 h ;;
             yi <- nth_error ys (length before) ;;
             h <- GResidualBlock.forward (fst blk) h yi ;;
             h <- AttentionBlock.forward (snd blk) h ;;
             Generator.run_blocks after ys (S (length before)) h)).
Proof.
  apply (generator_chunks_condition_stages Setup.generator Setup.z
           (Setup.zeros [5; 128]) 96 4 20 128 5);
    try reflexivity; lia.
Defined.

(** C4 as stated fails: noise of length 121 is split into seven chunks,
    the last of a single column. *)
Lemma generator_seven_chunks :
  ~ (forall (G : Generator.t) (z : Tensor) (bc bw zd sd B : Z),
       Arch.generator G bc bw zd sd = true -> shape z = [B; zd] ->
       1 <= B -> 1 <= bw -> 6 <= zd ->
       exists zs, torch.split z (Generator.z_chunk_size G) = Some zs
                  /\ length zs = 6%nat
                  /\ Forall (fun zi => shape zi = [B; zd / 6]) zs).
Proof.
  intros Hall.
  destruct (Hall (Generator.init Setup.initial 96 4 121 128 5)
                 (Setup.zeros [5; 121]) 96 4 121 128 5
                 eq_refl eq_refl ltac:(lia) ltac:(lia) ltac:(lia))
    as (zs & E & L & _).
  cbv in E. injection E as <-. discriminate L.
Qed.

(** ** The discriminator's forward pass *)

Lemma discriminator_arch (D : Discriminator.t) (bc nc : Z) :
  Arch.discriminator D bc nc = true ->
  Arch.embedding (Discriminator.shared_emb D) nc (16 * bc) = true
  /\ nn.is_spectral (nn.emb_weight (Discriminator.shared_emb D)) = true
  /\ Arch.dstages (Discriminator.d_blocks D) (Arch.dschedule bc) = true
  /\ Arch.linear (Discriminator.proj_o D) (16 * bc) 1 = true.
Proof.
  unfold Arch.discriminator. rewrite !andb_true_iff.
  intros (((H1 & H2) & H3) & H4). auto.
Qed.

(** C2. On an image [B; 3; H; W] the discriminator returns a tensor of
    shape [B; 1] with or without labels.  Without labels the result is the
    linear projection of the features summed over space; with labels it is
    that score plus, for each sample, the dot product over channels of its
    summed features with its label's row of the spectral-normalised
    embedding table. *)
Theorem discriminator_forward_scores (D : Discriminator.t) (x : Tensor)
    (bc nc B kh kw : Z) :
  Arch.discriminator D bc nc = true ->
  shape x = [B; 3; 64 * kh; 64 * kw] ->
  1 <= B -> 8 <= bc -> 1 <= kh -> 1 <= kw ->
  exists f h uncond_out,
    Discriminator.sequential (Discriminator.d_blocks D) x = Some f
    /\ shape f = [B; 16 * bc; 2 * kh; 2 * kw]
    /\ Discriminator.features D x = Some h
    /\ shape h = [B; 16 * bc]
    /\ (forall b_ c,
          data h [b_; c]
          = Rsum (2 * kh) (fun i => Rsum (2 * kw) (fun j => data f [b_; c; i; j])))
    /\ nn.Linear_forward (Discriminator.proj_o D) h = Some uncond_out
    /\ shape uncond_out = [B; 1]
    /\ Discriminator.forward D x None = Some uncond_out
    /\ nn.is_spectral (nn.emb_weight (Discriminator.shared_emb D)) = true
    /\ forall y,
         Z.of_nat (length y) = B -> Forall (fun l => 0 <= l < nc) y ->
         exists out,
           Discriminator.forward D x (Some y) = Some out
           /\ shape out = [B; 1]
           /\ forall b_, 0 <= b_ < B ->
                data out [b_; 0]
                = (data uncond_out [b_; 0%Z]
                   + Spec.class_dot
                       (nn.weight (nn.emb_weight (Discriminator.shared_emb D)))
                       (nth (Z.to_nat b_) y 0%Z) h (16 * bc) b_)%R.
Proof.
  intros A Sx HB Hbc Hkh Hkw.
  apply discriminator_arch in A as (Ae & Asn & As & Al).
  destruct (dschedule_chained bc kh kw Hbc Hkh Hkw) as (Hch & Efc & Efh & Efw).
  destruct (sequential_shape _ _ x B 3 _ _ As Hch Sx) as (f & Ef & Sf).
  rewrite Efc, Efh, Efw in Sf.
  destruct (sum_dims23_shape f _ _ _ _ Sf) as (h & Eh & Sh & Dh).
  destruct (Linear_forward_shape _ _ _ h B Al Sh) as (u & Eu & Su & _).
  assert (Efeat : Discriminator.features D x = Some h).
  { unfold Discriminator.features. rewrite Ef. exact Eh. }
  exists f, h, u. repeat (split; [assumption|]).
  split; [|split; [exact Asn|]].
  { unfold Discriminator.forward. rewrite Efeat. cbn [bind]. now rewrite Eu. }
  intros y Ly Hy.
  destruct (Embedding_forward_shape _ _ _ y Ae Hy) as (e & Ee & Se & De).
  rewrite Ly in Se.
  destruct (mul_same_shape e h) as (eh & Eeh & Seh & Deh); [now rewrite Se, Sh|].
  rewrite Se in Seh, Deh.
  destruct (sum_dim1_keep_shape eh B (16 * bc) Seh) as (cond & Ec & Sc & Dc).
  destruct (add_same_shape u cond) as (out & Eo & So & Do); [now rewrite Su, Sc|].
  rewrite Su in So, Do.
  exists out. split; [|split; [exact So|]].
  { unfold Discriminator.forward. rewrite Efeat. cbn [bind]. rewrite Eu. cbn [bind].
    rewrite Ee. cbn [bind]. rewrite Eeh. cbn [bind]. rewrite Ec. exact Eo. }
  intros b_ Hb. rewrite Do by (apply in_range2; lia). f_equal.
  rewrite Dc. unfold Spec.class_dot. apply Rsum_ext_range. intros c Hc.
  rewrite Deh by (apply in_range2; lia). now rewrite De.
Qed.

Lemma discriminator_forward_scores_witness :
  exists f h uncond_out,
    Discriminator.sequential (Discriminator.d_blocks Setup.discriminator)
      (Setup.zeros [5; 3; 64 * 2; 64 * 2]) = Some f
    /\ shape f = [5; 16 * 96; 2 * 2; 2 * 2]
    /\ Discriminator.features Setup.discriminator
         (Setup.zeros [5; 3; 64 * 2; 64 * 2]) = Some h
    /\ shape h = [5; 16 * 96]
    /\ (forall b_ c,
          data h [b_; c]
          = Rsum (2 * 2) (fun i => Rsum (2 * 2) (fun j => data f [b_; c; i; j])))
    /\ nn.Linear_forward (Discriminator.proj_o Setup.discriminator) h
       = Some uncond_out
    /\ shape uncond_out = [5; 1]
    /\ Discriminator.forward Setup.discriminator
         (Setup.zeros [5; 3; 64 * 2; 64 * 2]) None = Some uncond_out
    /\ nn.is_spectral
         (nn.emb_weight (Discriminator.shared_emb Setup.discriminator)) = true
    /\ forall y,
         Z.of_nat (length y) = 5 -> Forall (fun l => 0 <= l < 5) y ->
         exists out,
           Discriminator.forward Setup.discriminator
             (Setup.zeros [5; 3; 64 * 2; 64 * 2]) (Some y) = Some out
           /\ shape out = [5; 1]
           /\ forall b_, 0 <= b_ < 5 ->
                data out [b_; 0]
                = (data uncond_out [b_; 0%Z]
                   + Spec.class_dot
                       (nn.weight
                          (nn.emb_weight
                             (Discriminator.shared_emb Setup.discriminator)))
                       (nth (Z.to_nat b_) y 0%Z) h (16 * 96) b_)%R.
Proof.
  apply (discriminator_forward_scores Setup.discriminator
           (Setup.zeros [5; 3; 64 * 2; 64 * 2]) 96 5 5 2 2);
    try reflexivity; lia.
Defined.

(** ** The notebook's sample forward pass *)

Example notebook_forward_pass :
  option_map shape Setup.x_gen = Some [5; 3; 128; 128]
  /\ option_map shape Setup.score = Some [5; 1].
Proof. split; reflexivity. Qed.


(** * Further properties of the code *)

(** ** Orthogonal regularisation *)

Lemma flatten1_rank (t w : Tensor) :
  torch.flatten 1 t = Some w -> length (shape w) = 2%nat.
Proof.
  unfold torch.flatten. destruct (shape t) as [|d0 [|d1 s]] eqn:Es;
    cbn [length Nat.max Nat.ltb Nat.leb]; try discriminate.
  intros E. injection E as <-. reflexivity.
Qed.

(** X1. [orthogonal_regularization] returns on no input: the weight is
    flattened to two dimensions, and [torch.dot] takes 1-dimensional
    tensors only. *)
Theorem orthogonal_regularization_always_raises (weight : Tensor) :
  orthogonal_regularization weight = None.
Proof.
  unfold orthogonal_regularization.
  destruct (torch.flatten 1 weight) as [w|] eqn:Ef; [|reflexivity].
  cbn [bind]. apply flatten1_rank in Ef. unfold torch.dot.
  destruct (shape w) as [|a [|b [|c s]]]; try discriminate; reflexivity.
Qed.

(** ** Class-conditional batch normalisation *)

Lemma bidx_unit_dims (B C b_ c h w : Z) :
  0 <= b_ < B -> 0 <= c < C ->
  torch.bidx [B; C; 1; 1] [b_; c; h; w] = [b_; c; 0; 0].
Proof.
  intros Hb Hc. unfold torch.bidx. cbn [length Nat.sub skipn combine map fst snd].
  destruct (Z.eqb_spec B 1), (Z.eqb_spec C 1); repeat f_equal; lia.
Qed.

Lemma in_range4 (B C H W b_ c h w : Z) :
  0 <= b_ < B -> 0 <= c < C -> 0 <= h < H -> 0 <= w < W ->
  in_range [B; C; H; W] [b_; c; h; w].
Proof.
  intros Hb Hc Hh Hw. unfold in_range. repeat (constructor; [assumption|]).
  constructor.
Qed.

(** X2. Class-conditional batch norm keeps the shape of its input and
    modulates the normalised activation per sample and channel:
    out[b,c,h,w] = (1 + scale(y)[b,c]) * bn(x)[b,c,h,w] + shift(y)[b,c]. *)
Theorem ccbn_forward_modulates (m : ClassConditionalBatchNorm2d.t) (x y : Tensor)
    (B C D H W : Z) :
  Arch.ccbn m D C = true ->
  shape x = [B; C; H; W] -> shape y = [B; D] -> B * H * W <> 1 ->
  exists out n s t,
    ClassConditionalBatchNorm2d.forward m x y = Some out
    /\ shape out = shape x
    /\ nn.BatchNorm2d_forward (ClassConditionalBatchNorm2d.bn m) x = Some n
    /\ nn.Linear_forward (ClassConditionalBatchNorm2d.class_scale_transform m) y = Some s
    /\ nn.Linear_forward (ClassConditionalBatchNorm2d.class_shift_transform m) y = Some t
    /\ forall b_ c h w,
         0 <= b_ < B -> 0 <= c < C -> 0 <= h < H -> 0 <= w < W ->
         data out [b_; c; h; w]
         = ((1 + data s [b_; c]) * data n [b_; c; h; w] + data t [b_; c])%R.
Proof.
  intros A Sx Sy Hn. apply ccbn_arch in A as (Ab & As & Ah).
  destruct (BatchNorm2d_forward_shape _ x B C H W Ab Sx Hn) as (n & En & Sn).
  destruct (Linear_forward_shape _ _ _ y B As Sy) as (s & Es & Ss & _).
  destruct (Linear_forward_shape _ _ _ y B Ah Sy) as (t & Et & St & _).
  unfold ClassConditionalBatchNorm2d.forward. rewrite En, Es, Et. cbn [bind].
  unfold torch.unsqueeze23, torch.add_scalar, torch.map_elems. cbn [shape data].
  rewrite Ss, St. cbn [bind].
  unfold torch.mul, torch.add, torch.binop. cbn [shape data].
  rewrite Sn, broadcast_11_l. cbn [bind shape data]. rewrite broadcast_11_r.
  cbn [bind]. eexists; exists n, s, t. split; [reflexivity|].
  split; [now rewrite Sx|]. repeat (split; [reflexivity|]).
  intros b_ c h w Hb Hc Hh Hw. cbn [data].
  rewrite (bidx_in_range [B; C; H; W]) by now apply in_range4.
  rewrite !bidx_unit_dims by assumption.
  now rewrite !(bidx_in_range [B; C; H; W]) by now apply in_range4.
Qed.

Lemma ccbn_forward_modulates_witness :
  exists out n s t,
    ClassConditionalBatchNorm2d.forward
      (ClassConditionalBatchNorm2d.init Setup.initial "bn1" 148 16)
      (Setup.zeros [2; 16; 4; 4]) (Setup.zeros [2; 148]) = Some out
    /\ shape out = shape (Setup.zeros [2; 16; 4; 4])
    /\ nn.BatchNorm2d_forward
         (ClassConditionalBatchNorm2d.bn
            (ClassConditionalBatchNorm2d.init Setup.initial "bn1" 148 16))
         (Setup.zeros [2; 16; 4; 4]) = Some n
    /\ nn.Linear_forward
         (ClassConditionalBatchNorm2d.class_scale_transform
            (ClassConditionalBatchNorm2d.init Setup.initial "bn1" 148 16))
         (Setup.zeros [2; 148]) = Some s
    /\ nn.Linear_forward
         (ClassConditionalBatchNorm2d.class_shift_transform
            (ClassConditionalBatchNorm2d.init Setup.initial "bn1" 148 16))
         (Setup.zeros [2; 148]) = Some t
    /\ forall b_ c h w,
         0 <= b_ < 2 -> 0 <= c < 16 -> 0 <= h < 4 -> 0 <= w < 4 ->
         data out [b_; c; h; w]
         = ((1 + data s [b_; c]) * data n [b_; c; h; w] + data t [b_; c])%R.
Proof.
  apply (ccbn_forward_modulates
           (ClassConditionalBatchNorm2d.init Setup.initial "bn1" 148 16)
           (Setup.zeros [2; 16; 4; 4]) (Setup.zeros [2; 148]) 2 16 148 4 4);
    try reflexivity; lia.
Defined.

Lemma Linear_forward_width (l : nn.Linear) (i o : Z) (y : Tensor) (B D' : Z) :
  Arch.linear l i o = true -> shape y = [B; D'] -> D' <> i ->
  nn.Linear_forward l y = None.
Proof.
  intros A Sy Hne. apply linear_arch in A as (Ei & _).
  unfold nn.Linear_forward. rewrite Sy, Ei.
  now rewrite (proj2 (Z.eqb_neq _ _) Hne).
Qed.

(** X3. Class-conditional batch norm raises when the conditioning vector
    does not have the width the block was built for. *)
Theorem ccbn_forward_wrong_width (m : ClassConditionalBatchNorm2d.t) (x y : Tensor)
    (B C D D' : Z) :
  Arch.ccbn m D C = true -> shape y = [B; D'] -> D' <> D ->
  ClassConditionalBatchNorm2d.forward m x y = None.
Proof.
  intros A Sy Hne. apply ccbn_arch in A as (_ & As & _).
  unfold ClassConditionalBatchNorm2d.forward.
  destruct (nn.BatchNorm2d_forward _ x); [|reflexivity]. cbn [bind].
  now rewrite (Linear_forward_width _ _ _ y B D' As Sy Hne).
Qed.

Lemma ccbn_forward_wrong_width_witness :
  ClassConditionalBatchNorm2d.forward
    (ClassConditionalBatchNorm2d.init Setup.initial "bn1" 148 16)
    (Setup.zeros [2; 16; 4; 4]) (Setup.zeros [2; 128]) = None.
Proof.
  apply (ccbn_forward_wrong_width _ _ _ 2 16 148 128); try reflexivity; lia.
Defined.

(** ** Residual blocks: shapes and rejected inputs *)

(** X4. The generator block maps [B; Cin; H; W] to [B; Cout; 2H; 2W]. *)
Theorem gres_forward_doubles_extent (m : GResidualBlock.t) (x y : Tensor)
    (B D Cin Cout H W : Z) :
  Arch.gres m D Cin Cout = true ->
  shape x = [B; Cin; H; W] -> shape y = [B; D] ->
  1 <= B -> 1 <= H -> 1 <= W -> B * H * W <> 1 ->
  exists out, GResidualBlock.forward m x y = Some out
              /\ shape out = [B; Cout; H * 2; W * 2].
Proof. apply gres_forward_shape. Qed.

Lemma gres_forward_doubles_extent_witness :
  exists out,
    GResidualBlock.forward (GResidualBlock.init Setup.initial "g" 148 16 8)
      (Setup.zeros [2; 16; 4; 4]) (Setup.zeros [2; 148]) = Some out
    /\ shape out = [2; 8; 4 * 2; 4 * 2].
Proof.
  apply (gres_forward_doubles_extent
           (GResidualBlock.init Setup.initial "g" 148 16 8)
           (Setup.zeros [2; 16; 4; 4]) (Setup.zeros [2; 148]) 2 148 16 8 4 4);
    try reflexivity; lia.
Defined.

(** X5. The discriminator block maps [B; Cin; H; W] to [B; Cout; H/2; W/2]
    (floor division) when it downsamples and to [B; Cout; H; W] when it
    does not, whatever the pre-activation flag. *)
Theorem dres_forward_extent (m : DResidualBlock.t) (x : Tensor)
    (B Cin Cout H W : Z) (ds pre : bool) :
  Arch.dres m Cin Cout ds pre = true ->
  shape x = [B; Cin; H; W] -> 1 <= H -> 1 <= W ->
  (ds = true -> 2 <= H /\ 2 <= W) ->
  exists out, DResidualBlock.forward m x = Some out
              /\ shape out = [B; Cout; if ds then H / 2 else H;
                              if ds then W / 2 else W].
Proof. apply dres_forward_shape. Qed.

Lemma dres_forward_extent_witness :
  exists out,
    DResidualBlock.forward (DResidualBlock.init Setup.initial "d" 3 8 true false)
      (Setup.zeros [2; 3; 5; 7]) = Some out
    /\ shape out = [2; 8; if true then 5 / 2 else 5; if true then 7 / 2 else 7].
Proof.
  apply (dres_forward_extent
           (DResidualBlock.init Setup.initial "d" 3 8 true false)
           (Setup.zeros [2; 3; 5; 7]) 2 3 8 5 7 true false);
    try reflexivity; try lia.
Defined.

(** X6. The generator block raises on an input whose channel count is not
    the block's [in_channels]. *)
Theorem gres_forward_wrong_channels (m : GResidualBlock.t) (x y : Tensor)
    (B D Cin Cout C' H W : Z) :
  Arch.gres m D Cin Cout = true ->
  shape x = [B; C'; H; W] -> C' <> Cin ->
  GResidualBlock.forward m x y = None.
Proof.
  intros A Sx Hne. apply gres_arch in A as (_ & _ & Ab1 & _).
  apply ccbn_arch in Ab1 as (Ab & _ & _). apply Z.eqb_eq in Ab.
  unfold GResidualBlock.forward, ClassConditionalBatchNorm2d.forward,
    nn.BatchNorm2d_forward.
  rewrite Sx, Ab, (proj2 (Z.eqb_neq _ _) Hne). reflexivity.
Qed.

Lemma gres_forward_wrong_channels_witness :
  GResidualBlock.forward (GResidualBlock.init Setup.initial "g" 148 16 8)
    (Setup.zeros [2; 3; 4; 4]) (Setup.zeros [2; 148]) = None.
Proof.
  apply (gres_forward_wrong_channels _ _ _ 2 148 16 8 3 4 4);
    try reflexivity; lia.
Defined.

(** X7. The discriminator block raises on an input whose channel count is
    not the block's [in_channels]. *)
Theorem dres_forward_wrong_channels (m : DResidualBlock.t) (x : Tensor)
    (B Cin Cout C' H W : Z) (ds pre : bool) :
  Arch.dres m Cin Cout ds pre = true ->
  shape x = [B; C'; H; W] -> C' <> Cin ->
  DResidualBlock.forward m x = None.
Proof.
  intros A Sx Hne. apply dres_arch in A as (A1 & _).
  apply conv_arch in A1 as (Ei & _).
  unfold DResidualBlock.forward, nn.Conv2d_forward.
  replace (shape (if DResidualBlock.use_preactivation m then F.relu x else x))
    with [B; C'; H; W] by now destruct (DResidualBlock.use_preactivation m).
  rewrite Ei, (proj2 (Z.eqb_neq _ _) Hne). reflexivity.
Qed.

Lemma dres_forward_wrong_channels_witness :
  DResidualBlock.forward (DResidualBlock.init Setup.initial "d" 3 8 true false)
    (Setup.zeros [2; 1; 8; 8]) = None.
Proof.
  apply (dres_forward_wrong_channels _ _ 2 3 8 1 8 8 true false);
    try reflexivity; lia.
Defined.

(** ** Attention weights are a distribution over the key positions *)








(** ** The attention block is affine in its gain *)

(** X9. On an accepted input there is one tensor o, not depending on the
    gain, such that for every value of gamma the block returns
    gamma * o + x at every position. *)
Theorem attention_affine_in_gain (m : AttentionBlock.t) (x : Tensor)
    (B C H W : Z) :
  Arch.attention m C = true -> shape x = [B; C; H; W] ->
  8 <= C -> 2 <= H -> 2 <= W ->
  (H / 2) * (W / 2) = H * W / 4 ->
  exists o',
    shape o' = shape x
    /\ forall gain, exists out,
         AttentionBlock.forward (Assign.gamma gain m) x = Some out
         /\ shape out = shape x
         /\ forall idx, in_range (shape x) idx ->
              data out idx = (gain * data o' idx + data x idx)%R.
Proof.
  intros A Sx HC HH HW Hq.
  destruct (projections_ok m x B C H W A Sx HC HH HW Hq)
    as (theta0 & phi0 & phi1 & g0 & g1 & theta' & phi' & g'
        & _ & _ & _ & _ & _ & _ & _ & _ & _ & _ & Epr & St & Sp & Sg).
  destruct (attention_arch m C A) as (Ech & At & Ap & Ag & Ao).
  pose proof (half_pos C HC) as c2_pos.
  assert (0 < H * W) by nia.
  destruct (attention_weights_shape theta' phi' _ _ _ _ St Sp) as (beta & Eb & Sb & _).
  destruct (transpose12_shape beta _ _ _ Sb) as (betaT & EbT & SbT & _).
  destruct (bmm_shape g' betaT _ _ _ _ Sg SbT) as (gb & Egb & Sgb & _).
  destruct (view4_shape gb (C / 2) H W B) as (gv & Egv & Sgv); try lia.
  { rewrite Sgb. cbn [numel fold_right]. ring. }
  destruct (conv1x1_shape _ _ _ gv B H W Ao Sgv) as (o' & Eo & So); try lia.
  exists o'. split; [now rewrite So, Sx|]. intros gain.
  destruct (mul_scalar_shape gain o') as (sc & Esc & Ssc & Dsc).
  destruct (add_same_shape sc x) as (out & Eout & Sout & Dout).
  { now rewrite Ssc, So, Sx. }
  exists out. split; [|split].
  - unfold AttentionBlock.forward. rewrite Sx.
    change (AttentionBlock.projections (Assign.gamma gain m) x)
      with (AttentionBlock.projections m x).
    rewrite Epr. cbn [bind]. rewrite Eb. cbn [bind]. rewrite EbT. cbn [bind].
    rewrite Egb. cbn [bind].
    cbn [Assign.gamma AttentionBlock.channels AttentionBlock.o AttentionBlock.gamma].
    rewrite Ech, Egv. cbn [bind]. rewrite Eo. cbn [bind]. rewrite Esc. cbn [bind].
    exact Eout.
  - now rewrite Sout, Ssc, So, Sx.
  - intros idx Hr. rewrite Dout by now rewrite Ssc, So, <- Sx.
    now rewrite Dsc by now rewrite So, <- Sx.
Qed.

Lemma attention_affine_in_gain_witness :
  exists o',
    shape o' = shape (Setup.zeros [1; 8; 4; 4])
    /\ forall gain, exists out,
         AttentionBlock.forward
           (Assign.gamma gain (AttentionBlock.init Setup.initial "attn" 8))
           (Setup.zeros [1; 8; 4; 4]) = Some out
         /\ shape out = shape (Setup.zeros [1; 8; 4; 4])
         /\ forall idx, in_range (shape (Setup.zeros [1; 8; 4; 4])) idx ->
              data out idx
              = (gain * data o' idx + data (Setup.zeros [1; 8; 4; 4]%Z) idx)%R.
Proof.
  apply (attention_affine_in_gain (AttentionBlock.init Setup.initial "attn" 8)
           (Setup.zeros [1; 8; 4; 4]) 1 8 4 4);
    try reflexivity; lia.
Defined.

(** ** What the constructors establish *)

Lemma attention_init_arch (p : nn.store) (path : string) (C : Z) :
  Arch.attention (AttentionBlock.init p path C) C = true.
Proof.
  unfold Arch.attention, Arch.conv, AttentionBlock.init. cbn.
  now rewrite !Z.eqb_refl.
Qed.

Lemma ccbn_init_arch (p : nn.store) (path : string) (D C : Z) :
  Arch.ccbn (ClassConditionalBatchNorm2d.init p path D C) D C = true.
Proof.
  unfold Arch.ccbn, Arch.bnorm, Arch.linear, ClassConditionalBatchNorm2d.init. cbn.
  now rewrite !Z.eqb_refl.
Qed.

Lemma gres_init_arch (p : nn.store) (path : string) (D Cin Cout : Z) :
  Arch.gres (GResidualBlock.init p path D Cin Cout) D Cin Cout = true.
Proof.
  unfold Arch.gres. rewrite !andb_true_iff. repeat split.
  - unfold Arch.conv. cbn. now rewrite !Z.eqb_refl.
  - unfold Arch.conv. cbn. now rewrite !Z.eqb_refl.
  - apply ccbn_init_arch.
  - apply ccbn_init_arch.
  - cbn [GResidualBlock.init GResidualBlock.mixin]. apply eqb_reflx.
  - cbn [GResidualBlock.init GResidualBlock.mixin GResidualBlock.conv_mixin].
    destruct (Cin =? Cout); cbn [negb Arch.mixin_conv]; [reflexivity|].
    unfold Arch.conv. cbn. now rewrite !Z.eqb_refl.
Qed.

Lemma dres_init_arch (p : nn.store) (path : string) (Cin Cout : Z) (ds pre : bool) :
  Arch.dres (DResidualBlock.init p path Cin Cout ds pre) Cin Cout ds pre = true.
Proof.
  unfold Arch.dres. rewrite !andb_true_iff. repeat split.
  - unfold Arch.conv. cbn. now rewrite !Z.eqb_refl.
  - cbn. apply eqb_reflx.
  - cbn. apply eqb_reflx.
  - cbn. now destruct ds.
  - cbn. apply eqb_reflx.
  - cbn [DResidualBlock.init DResidualBlock.mixin DResidualBlock.conv_mixin].
    destruct (negb (Cin =? Cout) || ds); cbn [negb Arch.mixin_conv]; [|reflexivity].
    unfold Arch.conv. cbn. now rewrite !Z.eqb_refl.
Qed.

Lemma generator_init_arch (p : nn.store) (bc bw zd sd nc : Z) :
  Arch.generator (Generator.init p bc bw zd sd nc) bc bw zd sd = true.
Proof.
  unfold Arch.generator. rewrite !andb_true_iff. repeat split.
  - cbn. apply Z.eqb_refl.
  - cbn. apply Z.eqb_refl.
  - unfold Arch.linear. cbn. now rewrite !Z.eqb_refl.
  - cbn [Generator.init Generator.g_blocks Arch.gschedule Arch.gstages
         Generator.stage fst snd].
    now rewrite !gres_init_arch, !attention_init_arch.
  - unfold Arch.bnorm. cbn. apply Z.eqb_refl.
  - unfold Arch.conv. cbn. now rewrite !Z.eqb_refl.
Qed.

Lemma discriminator_init_arch (p : nn.store) (bc nc : Z) :
  Arch.discriminator (Discriminator.init p bc nc) bc nc = true.
Proof.
  unfold Arch.discriminator. rewrite !andb_true_iff. repeat split.
  - unfold Arch.embedding. cbn. now rewrite !Z.eqb_refl.
  - cbn [Discriminator.init Discriminator.d_blocks Arch.dschedule Arch.dstages].
    now rewrite !dres_init_arch, !attention_init_arch.
  - unfold Arch.linear. cbn. now rewrite !Z.eqb_refl.
Qed.

Lemma generator_init_embedding (p : nn.store) (bc bw zd sd nc : Z) :
  Arch.embedding (Generator.shared_emb (Generator.init p bc bw zd sd nc)) nc sd = true.
Proof. unfold Arch.embedding. cbn. now rewrite !Z.eqb_refl. Qed.

(** ** The generator: which noise widths it accepts *)

Lemma chunks_wide (G : Generator.t) (z y : Tensor) (B D sd c : Z) :
  Generator.z_chunk_size G = c -> 1 <= c ->
  shape z = [B; D] -> shape y = [B; sd] -> 6 * c <= D ->
  exists zs ys,
    Generator.chunks G z y = Some (zs, ys)
    /\ (exists z0, nth_error zs 0 = Some z0 /\ shape z0 = [B; c])
    /\ (forall i, (i < 5)%nat ->
          exists yi, nth_error ys i = Some yi /\ shape yi = [B; sd + c]).
Proof.
  intros Ec Hc Sz Sy HD.
  assert (Hn : 6 <= Z.max ((D + c - 1) / c) 1).
  { assert (6 <= (D + c - 1) / c); [|lia]. apply Z.div_le_lower_bound; lia. }
  destruct (split_chunks z B D c Sz Hc) as (f & Es & Hf).
  set (n := Z.max ((D + c - 1) / c) 1) in *.
  assert (Hzs : forall i, (i < 6)%nat ->
            nth_error (map f (range n)) i = Some (f (Z.of_nat i))
            /\ shape (f (Z.of_nat i)) = [B; c]).
  { intros i Hi. rewrite nth_error_map, nth_error_range by lia. split; [reflexivity|].
    destruct (Hf (Z.of_nat i)) as (Sf & _). rewrite Sf. f_equal. f_equal. nia. }
  destruct (mapM_all (fun zi => torch.cat y zi)
              (fun zi yi => forall w, shape zi = [B; w] -> shape yi = [B; sd + w])
              (tl (map f (range n)))) as (ys & Eys & Fys).
  { intros a Ha. assert (Ha' : In a (map f (range n))).
    { destruct (map f (range n)); [destruct Ha|now right]. }
    apply in_map_iff in Ha' as (k & <- & _). destruct (Hf k) as (Sf & _).
    destruct (cat_shape y (f k) B sd _ Sy Sf) as (t & Et & St & _).
    exists t. split; [exact Et|].
    intros w Sw. rewrite Sf in Sw. injection Sw as <-. exact St. }
  exists (map f (range n)), ys. split; [|split].
  - unfold Generator.chunks. rewrite Ec, Es. cbn [bind]. rewrite Eys. reflexivity.
  - destruct (Hzs 0%nat) as (E & Sf); [lia|]. eauto.
  - intros i Hi. destruct (Hzs (S i)) as (E & Sf); [lia|].
    assert (E' : nth_error (tl (map f (range n))) i = Some (f (Z.of_nat (S i))))
      by now rewrite nth_error_tl.
    destruct (Forall2_nth_error _ _ _ _ _ Fys E') as (yi & Eyi & Syi).
    exists yi. auto.
Qed.

Lemma generator_forward_wide (G : Generator.t) (z y : Tensor)
    (bc bw zd sd B D : Z) :
  Arch.generator G bc bw zd sd = true ->
  shape z = [B; D] -> shape y = [B; sd] -> 6 * (zd / 6) <= D ->
  1 <= B -> 1 <= bw -> B * bw * bw <> 1 -> 8 <= bc -> 6 <= zd ->
  exists out,
    Generator.forward G z y = Some out
    /\ shape out = [B; 3; bw * 32; bw * 32]
    /\ forall idx, (-1 <= data out idx <= 1)%R.
Proof.
  intros A Sz Sy HD HB Hbw Hn Hbc Hzd.
  apply generator_arch in A as (Ec & Ebw & Al & Ag & Ab & Ao).
  pose proof (gstages_length _ _ _ Ag) as Hlen. cbn [Arch.gschedule length] in Hlen.
  assert (Hc : 1 <= zd / 6) by divlia.
  destruct (chunks_wide G z y B D sd (zd / 6) Ec Hc Sz Sy HD)
    as (zs & ys & Ech & (z0 & Ez0 & Sz0) & Hys).
  destruct (project_shape G z0 B (zd / 6) bc bw Ebw Al Sz0 HB Hbw) as (h0 & Eh0 & Sh0).
  destruct (run_blocks_shape (Generator.g_blocks G) (Arch.gschedule bc) ys 0 h0
              B (sd + zd / 6) (16 * bc) bw bw Ag (gschedule_chained bc Hbc))
    as (h5 & E5 & S5); try assumption.
  { intros i Hi. rewrite Hlen in Hi. exact (Hys i Hi). }
  rewrite Hlen in *. cbn [Arch.gschedule map snd last] in S5.
  change (2 ^ Z.of_nat 5) with 32 in *.
  destruct (proj_o_shape G h5 B bc (bw * 32) (bw * 32) Ab Ao S5) as (out & Eo & So & Do);
    try lia.
  exists out. split; [|split; assumption].
  unfold Generator.forward. rewrite Ech. cbn [bind]. rewrite Ez0. cbn [bind].
  rewrite Eh0. cbn [bind]. rewrite E5. exact Eo.
Qed.

Lemma mapM_none {A B : Type} (h : A -> option B) (l : list A) (a : A) :
  In a l -> h a = None -> mapM h l = None.
Proof.
  intros Hin Ha. induction l as [|a0 l IH]; [destruct Hin|].
  cbn [mapM]. destruct Hin as [->|Hin].
  - now rewrite Ha.
  - destruct (h a0); [|reflexivity]. cbn [bind]. now rewrite (IH Hin).
Qed.

Lemma mapM_length {A B : Type} (h : A -> option B) (l : list A) (bs : list B) :
  mapM h l = Some bs -> length bs = length l.
Proof.
  revert bs. induction l as [|a l IH]; intros bs E; cbn [mapM] in E.
  - now injection E as <-.
  - destruct (h a); [|discriminate]. cbn [bind] in E.
    destruct (mapM h l) as [bs'|]; [|discriminate]. cbn [bind] in E.
    injection E as <-. cbn [length]. now rewrite (IH bs' eq_refl).
Qed.

Lemma mapM_nth_error {A B : Type} (h : A -> option B) (l : list A) (bs : list B)
    (i : nat) (a : A) :
  mapM h l = Some bs -> nth_error l i = Some a ->
  exists b, nth_error bs i = Some b /\ h a = Some b.
Proof.
  revert bs i. induction l as [|a0 l IH]; intros bs i E Ei; [now destruct i|].
  cbn [mapM] in E. destruct (h a0) as [b0|] eqn:E0; [|discriminate]. cbn [bind] in E.
  destruct (mapM h l) as [bs'|]; [|discriminate]. cbn [bind] in E.
  injection E as <-. destruct i as [|i]; cbn [nth_error] in *.
  - injection Ei as <-. now exists b0.
  - now apply (IH bs' i).
Qed.

(** The loop raises at the first stage that finds no conditioning vector. *)
Lemma run_blocks_short (blocks : list (GResidualBlock.t * AttentionBlock.t)) :
  forall (ys : list Tensor) (idx : nat) (h : Tensor),
    (idx <= length ys < idx + length blocks)%nat ->
    Generator.run_blocks blocks ys idx h = None.
Proof.
  induction blocks as [|blk blocks IH]; intros ys idx h Hlen.
  - cbn [length] in Hlen. lia.
  - cbn [Generator.run_blocks].
    destruct (nth_error ys idx) as [y|] eqn:Ey; [|reflexivity]. cbn [bind].
    destruct (GResidualBlock.forward (fst blk) h y) as [h1|]; [|reflexivity].
    cbn [bind].
    destruct (AttentionBlock.forward (snd blk) h1) as [h2|]; [|reflexivity].
    cbn [bind]. apply IH. cbn [length] in Hlen.
    assert (idx < length ys)%nat by (apply nth_error_Some; congruence). lia.
Qed.

Lemma gres_wrong_width (m : GResidualBlock.t) (x y : Tensor)
    (B D D' Cin Cout : Z) :
  Arch.gres m D Cin Cout = true -> shape y = [B; D'] -> D' <> D ->
  GResidualBlock.forward m x y = None.
Proof.
  intros A Sy Hne. apply gres_arch in A as (_ & _ & Ab1 & _).
  apply ccbn_arch in Ab1 as (_ & As & _).
  unfold GResidualBlock.forward, ClassConditionalBatchNorm2d.forward.
  destruct (nn.BatchNorm2d_forward _ x); [|reflexivity]. cbn [bind].
  now rewrite (Linear_forward_width _ _ _ y B D' As Sy Hne).
Qed.

(** A stage whose conditioning vector has the wrong width stops the loop. *)
Lemma run_blocks_wrong_width (blocks : list (GResidualBlock.t * AttentionBlock.t)) :
  forall (schedule : list (Z * Z)) (ys : list Tensor) (idx : nat) (h : Tensor)
         (D : Z) (i : nat) (yi : Tensor) (B D' : Z),
    Arch.gstages blocks D schedule = true ->
    (i < length blocks)%nat ->
    nth_error ys (idx + i) = Some yi -> shape yi = [B; D'] -> D' <> D ->
    Generator.run_blocks blocks ys idx h = None.
Proof.
  induction blocks as [|blk blocks IH];
    intros schedule ys idx h D i yi B D' A Hi Ey Sy Hne.
  - cbn [length] in Hi. lia.
  - destruct schedule as [|[ci co] schedule]; [discriminate|].
    cbn [Arch.gstages] in A. rewrite !andb_true_iff in A.
    destruct A as ((Ar & Aa) & Arest).
    cbn [Generator.run_blocks].
    destruct (nth_error ys idx) as [y|] eqn:Ey0; [|reflexivity]. cbn [bind].
    destruct i as [|i].
    + rewrite Nat.add_0_r, Ey0 in Ey. injection Ey as ->.
      now rewrite (gres_wrong_width _ h yi B D D' ci co Ar Sy Hne).
    + destruct (GResidualBlock.forward (fst blk) h y) as [h1|]; [|reflexivity].
      cbn [bind].
      destruct (AttentionBlock.forward (snd blk) h1) as [h2|]; [|reflexivity].
      cbn [bind].
      apply (IH schedule ys (S idx) h2 D i yi B D' Arest); try assumption.
      * cbn [length] in Hi. lia.
      * now rewrite <- Ey, Nat.add_succ_r.
Qed.

Lemma range_length (n : Z) : length (range n) = Z.to_nat n.
Proof. unfold range. now rewrite length_map, length_seq. Qed.

Lemma tl_length {A : Type} (l : list A) : length (tl l) = (length l - 1)%nat.
Proof. destruct l; cbn [tl length]; lia. Qed.

Lemma generator_forward_narrow (G : Generator.t) (z y : Tensor)
    (bc bw zd sd B D : Z) :
  Arch.generator G bc bw zd sd = true ->
  shape z = [B; D] -> shape y = [B; sd] -> 0 <= D < 6 * (zd / 6) ->
  Generator.forward G z y = None.
Proof.
  intros A Sz Sy HD.
  apply generator_arch in A as (Ec & Ebw & Al & Ag & Ab & Ao).
  pose proof (gstages_length _ _ _ Ag) as Hlen. cbn [Arch.gschedule length] in Hlen.
  assert (Hc : 1 <= zd / 6) by lia.
  destruct (split_chunks z B D (zd / 6) Sz Hc) as (f & Es & Hf).
  set (c := zd / 6) in *.
  set (n := Z.max ((D + c - 1) / c) 1) in *.
  assert (Hn6 : n <= 6).
  { assert ((D + c - 1) / c < 7); [|lia]. apply Z.div_lt_upper_bound; lia. }
  unfold Generator.forward, Generator.chunks. rewrite Ec, Es. cbn [bind].
  destruct (mapM (fun zi => torch.cat y zi) (tl (map f (range n)))) as [ys|] eqn:Eys;
    [|reflexivity].
  cbn [bind].
  destruct (nth_error (map f (range n)) 0) as [z0|]; [|reflexivity]. cbn [bind].
  destruct (Generator.project G z0) as [h0|]; [|reflexivity]. cbn [bind].
  pose proof (mapM_length _ _ _ Eys) as Ly.
  rewrite tl_length, length_map, range_length in Ly.
  destruct (Z_le_gt_dec n 5) as [Hn5|Hn5].
  - rewrite run_blocks_short; [reflexivity|]. rewrite Hlen, Ly. lia.
  - assert (Hn : n = 6) by lia.
    assert (E5 : nth_error (tl (map f (range n))) 4 = Some (f 5)).
    { rewrite nth_error_tl, nth_error_map, nth_error_range by lia. reflexivity. }
    destruct (mapM_nth_error _ _ _ _ _ Eys E5) as (y5 & Ey5 & Ecat).
    destruct (Hf 5) as (Sf & _).
    destruct (cat_shape y (f 5) B sd _ Sy Sf) as (t & Et & St & _).
    rewrite Ecat in Et. injection Et as <-.
    assert (Hlast : (5 * c < D + c - 1)).
    { assert (5 < (D + c - 1) / c) by lia.
      destruct (Z_lt_le_dec (5 * c) (D + c - 1)) as [?|Hle]; [assumption|].
      assert ((D + c - 1) / c <= 5); [|lia].
      apply Z.div_le_upper_bound; lia. }
    rewrite (run_blocks_wrong_width (Generator.g_blocks G) (Arch.gschedule bc)
               ys 0 h0 (sd + c) 4 y5 B (sd + Z.min c (D - 5 * c)));
      try assumption; try reflexivity; lia.
Qed.

(** X10. The generator accepts noise of width D exactly when D is at least
    6 * (z_dim // 6): it never compares the width with z_dim, so wider
    noise is accepted (the columns after the sixth chunk are not used) and
    anything narrower raises. *)
Theorem generator_forward_noise_width (G : Generator.t) (z y : Tensor)
    (bc bw zd sd B D : Z) :
  Arch.generator G bc bw zd sd = true ->
  shape z = [B; D] -> shape y = [B; sd] -> 0 <= D ->
  1 <= B -> 1 <= bw -> B * bw * bw <> 1 -> 8 <= bc -> 6 <= zd ->
  (exists out, Generator.forward G z y = Some out
               /\ shape out = [B; 3; bw * 32; bw * 32])
  <-> 6 * (zd / 6) <= D.
Proof.
  intros A Sz Sy HD0 HB Hbw Hn Hbc Hzd. split.
  - intros (out & E & _).
    destruct (Z_le_gt_dec (6 * (zd / 6)) D) as [Hle|Hgt]; [exact Hle|].
    rewrite (generator_forward_narrow G z y bc bw zd sd B D) in E;
      try assumption; [discriminate|lia].
  - intros HD.
    destruct (generator_forward_wide G z y bc bw zd sd B D) as (out & E & S & _);
      try assumption.
    now exists out.
Qed.

Lemma generator_forward_noise_width_witness :
  (exists out,
     Generator.forward Setup.generator (Setup.zeros [5; 121]) (Setup.zeros [5; 128])
     = Some out
     /\ shape out = [5; 3; 4 * 32; 4 * 32])
  <-> 6 * (120 / 6) <= 121.
Proof.
  apply (generator_forward_noise_width Setup.generator (Setup.zeros [5; 121])
           (Setup.zeros [5; 128]) 96 4 120 128 5 121);
    try reflexivity; lia.
Defined.

(** ** The generator: rejected inputs *)

(** X11. The generator raises when the class embeddings and the noise do
    not have the same batch size. *)
Theorem generator_forward_batch_mismatch (G : Generator.t) (z y : Tensor)
    (bc bw zd sd sd' B B' : Z) :
  Arch.generator G bc bw zd sd = true ->
  shape z = [B; zd] -> shape y = [B'; sd'] -> B' <> B -> 6 <= zd ->
  Generator.forward G z y = None.
Proof.
  intros A Sz Sy Hne Hzd.
  apply generator_arch in A as (Ec & _).
  assert (Hc : 1 <= zd / 6) by divlia.
  pose proof (chunk_count zd Hzd) as Hn.
  destruct (split_chunks z B zd (zd / 6) Sz Hc) as (f & Es & Hf).
  set (n := Z.max ((zd + zd / 6 - 1) / (zd / 6)) 1) in *.
  unfold Generator.forward, Generator.chunks. rewrite Ec, Es. cbn [bind].
  rewrite (mapM_none _ _ (f 1)); [reflexivity| |].
  - apply (nth_error_In _ 0).
    rewrite nth_error_tl, nth_error_map, nth_error_range by lia. reflexivity.
  - destruct (Hf 1) as (Sf & _). unfold torch.cat. rewrite Sy, Sf.
    now rewrite (proj2 (Z.eqb_neq _ _) Hne).
Qed.

Lemma generator_forward_batch_mismatch_witness :
  Generator.forward Setup.generator Setup.z (Setup.zeros [4; 128]) = None.
Proof.
  apply (generator_forward_batch_mismatch Setup.generator Setup.z
           (Setup.zeros [4; 128]) 96 4 120 128 128 5 4);
    try reflexivity; lia.
Defined.

(** X12. A generator built with z_dim below 6 has chunk size 0 and raises
    on every noise matrix: [torch.split] refuses a zero chunk size for a
    non-empty row, and an empty row leaves no conditioning vector for the
    first stage. *)
Theorem generator_small_z_dim_raises (G : Generator.t) (z y : Tensor)
    (bc bw zd sd B D : Z) :
  Arch.generator G bc bw zd sd = true ->
  0 <= zd < 6 -> shape z = [B; D] ->
  Generator.forward G z y = None.
Proof.
  intros A Hzd Sz.
  apply generator_arch in A as (Ec & _ & _ & Ag & _).
  pose proof (gstages_length _ _ _ Ag) as Hlen. cbn [Arch.gschedule length] in Hlen.
  rewrite (Z.div_small zd 6 Hzd) in Ec.
  unfold Generator.forward, Generator.chunks, torch.split. rewrite Sz, Ec.
  cbn [Z.ltb Z.compare Z.eqb andb].
  destruct (D =? 0) eqn:ED; cbn [negb]; [|reflexivity].
  apply Z.eqb_eq in ED. subst D.
  change (Z.max ((0 + 0 - 1) / 0) 1) with 1. change (range 1) with [0].
  cbn [bind map tl mapM nth_error].
  match goal with
  | |- context [Generator.project G ?t] => destruct (Generator.project G t) as [h0|]
  end; [|reflexivity].
  cbn [bind].
  rewrite run_blocks_short; [reflexivity|]. rewrite Hlen. cbn [length]. lia.
Qed.

Lemma generator_small_z_dim_raises_witness :
  Generator.forward (Generator.init Setup.initial 96 4 5 128 5)
    (Setup.zeros [5; 5]) (Setup.zeros [5; 128]) = None.
Proof.
  apply (generator_small_z_dim_raises _ _ _ 96 4 5 128 5 5);
    try reflexivity; lia.
Defined.

(** X13. The generator raises when the class embedding does not have
    width shared_dim: the first stage's conditional batch norm refuses
    the conditioning vector. *)
Theorem generator_forward_wrong_embedding_width (G : Generator.t) (z y : Tensor)
    (bc bw zd sd sd' B : Z) :
  Arch.generator G bc bw zd sd = true ->
  shape z = [B; zd] -> shape y = [B; sd'] -> sd' <> sd -> 6 <= zd ->
  Generator.forward G z y = None.
Proof.
  intros A Sz Sy Hne Hzd.
  apply generator_arch in A as (Ec & _ & _ & Ag & _).
  pose proof (gstages_length _ _ _ Ag) as Hlen. cbn [Arch.gschedule length] in Hlen.
  assert (Hc : 1 <= zd / 6) by divlia.
  assert (HD : 6 * (zd / 6) <= zd) by divlia.
  destruct (chunks_wide G z y B zd sd' (zd / 6) Ec Hc Sz Sy HD)
    as (zs & ys & Ech & (z0 & Ez0 & _) & Hys).
  destruct (Hys 0%nat) as (y0 & Ey0 & Sy0); [lia|].
  unfold Generator.forward. rewrite Ech. cbn [bind]. rewrite Ez0. cbn [bind].
  destruct (Generator.project G z0) as [h0|]; [|reflexivity]. cbn [bind].
  rewrite (run_blocks_wrong_width (Generator.g_blocks G) (Arch.gschedule bc)
             ys 0 h0 (sd + zd / 6) 0 y0 B (sd' + zd / 6));
    try assumption; try reflexivity; lia.
Qed.

Lemma generator_forward_wrong_embedding_width_witness :
  Generator.forward Setup.generator Setup.z (Setup.zeros [5; 100]) = None.
Proof.
  apply (generator_forward_wrong_embedding_width Setup.generator Setup.z
           (Setup.zeros [5; 100]) 96 4 120 128 100 5);
    try reflexivity; lia.
Defined.

(** X14. A freshly built generator is in training mode, so with
    bottom_width 1 it raises on a single sample: the first batch norm
    sees one value per channel. *)
Theorem generator_single_value_raises (p : nn.store) (bc zd sd nc : Z)
    (z y : Tensor) :
  shape z = [1; zd] -> shape y = [1; sd] -> 6 <= zd ->
  Generator.forward (Generator.init p bc 1 zd sd nc) z y = None.
Proof.
  intros Sz Sy Hzd.
  pose proof (generator_init_arch p bc 1 zd sd nc) as A.
  apply generator_arch in A as (Ec & Ebw & Al & _).
  assert (Hc : 1 <= zd / 6) by divlia.
  assert (HD : 6 * (zd / 6) <= zd) by divlia.
  destruct (chunks_wide _ z y 1 zd sd (zd / 6) Ec Hc Sz Sy HD)
    as (zs & ys & Ech & (z0 & Ez0 & Sz0) & Hys).
  destruct (Hys 0%nat) as (y0 & Ey0 & Sy0); [lia|].
  destruct (project_shape _ z0 1 (zd / 6) bc 1 Ebw Al Sz0) as (h0 & Eh0 & Sh0);
    try lia.
  unfold Generator.forward. rewrite Ech. cbn [bind]. rewrite Ez0. cbn [bind].
  rewrite Eh0. cbn [bind].
  cbn [Generator.init Generator.g_blocks Generator.stage Generator.run_blocks fst].
  rewrite Ey0. cbn [bind].
  unfold GResidualBlock.forward at 1.
  cbn [GResidualBlock.init GResidualBlock.bn1].
  unfold ClassConditionalBatchNorm2d.forward at 1.
  cbn [ClassConditionalBatchNorm2d.init ClassConditionalBatchNorm2d.bn].
  unfold nn.BatchNorm2d_forward at 1. rewrite Sh0.
  cbn [nn.BatchNorm2d_init nn.num_features nn.training].
  rewrite Z.eqb_refl. reflexivity.
Qed.

Lemma generator_single_value_raises_witness :
  Generator.forward (Generator.init Setup.initial 96 1 120 128 5)
    (Setup.zeros [1; 120]) (Setup.zeros [1; 128]) = None.
Proof.
  apply (generator_single_value_raises Setup.initial 96 120 128 5);
    try reflexivity; lia.
Defined.

(** ** The discriminator: features and labels *)

Lemma features_ok (D : Discriminator.t) (x : Tensor) (bc nc B kh kw : Z) :
  Arch.discriminator D bc nc = true ->
  shape x = [B; 3; 64 * kh; 64 * kw] -> 8 <= bc -> 1 <= kh -> 1 <= kw ->
  exists f h,
    Discriminator.sequential (Discriminator.d_blocks D) x = Some f
    /\ shape f = [B; 16 * bc; 2 * kh; 2 * kw]
    /\ Discriminator.features D x = Some h
    /\ shape h = [B; 16 * bc]
    /\ forall b_ c,
         data h [b_; c]
         = Rsum (2 * kh) (fun i => Rsum (2 * kw) (fun j => data f [b_; c; i; j])).
Proof.
  intros A Sx Hbc Hkh Hkw.
  apply discriminator_arch in A as (_ & _ & As & _).
  destruct (dschedule_chained bc kh kw Hbc Hkh Hkw) as (Hch & Efc & Efh & Efw).
  destruct (sequential_shape _ _ x B 3 _ _ As Hch Sx) as (f & Ef & Sf).
  rewrite Efc, Efh, Efw in Sf.
  destruct (sum_dims23_shape f _ _ _ _ Sf) as (h & Eh & Sh & Dh).
  exists f, h. repeat (split; [assumption|]). split; [|split; assumption].
  unfold Discriminator.features. rewrite Ef. exact Eh.
Qed.

Lemma discriminator_forward_ok (D : Discriminator.t) (x : Tensor) (y : list Z)
    (bc nc kh kw : Z) :
  Arch.discriminator D bc nc = true ->
  shape x = [Z.of_nat (length y); 3; 64 * kh; 64 * kw] ->
  Forall (fun l => 0 <= l < nc) y ->
  8 <= bc -> 1 <= kh -> 1 <= kw ->
  exists out, Discriminator.forward D x (Some y) = Some out
              /\ shape out = [Z.of_nat (length y); 1].
Proof.
  intros A Sx Hy Hbc Hkh Hkw.
  destruct (features_ok D x bc nc _ kh kw A Sx Hbc Hkh Hkw)
    as (f & h & _ & _ & Efeat & Sh & _).
  apply discriminator_arch in A as (Ae & _ & _ & Al).
  destruct (Linear_forward_shape _ _ _ h _ Al Sh) as (u & Eu & Su & _).
  destruct (Embedding_forward_shape _ _ _ y Ae Hy) as (e & Ee & Se & _).
  destruct (mul_same_shape e h) as (eh & Eeh & Seh & _); [now rewrite Se, Sh|].
  rewrite Se in Seh.
  destruct (sum_dim1_keep_shape eh _ (16 * bc) Seh) as (cond & Ec & Sc & _).
  destruct (add_same_shape u cond) as (out & Eo & So & _); [now rewrite Su, Sc|].
  exists out. split; [|now rewrite So, Su].
  unfold Discriminator.forward. rewrite Efeat. cbn [bind]. rewrite Eu. cbn [bind].
  rewrite Ee. cbn [bind]. rewrite Eeh. cbn [bind]. rewrite Ec. exact Eo.
Qed.

(** X15. The sample forward pass, for any weights and sizes: with an even
    bottom width 2k, the generator built by the constructor turns noise
    and the embeddings of a batch of labels into images of extent 64k,
    and the discriminator built by the constructor scores these images
    against the same labels, one score per sample. *)
Theorem sample_forward_pass (pg pd : nn.store) (bc bcd k zd sd nc : Z)
    (z : Tensor) (y : list Z) :
  shape z = [Z.of_nat (length y); zd] ->
  y <> [] -> Forall (fun l => 0 <= l < nc) y ->
  1 <= k -> 8 <= bc -> 8 <= bcd -> 6 <= zd ->
  exists y_emb x_gen score,
    nn.Embedding_forward
      (Generator.shared_emb (Generator.init pg bc (2 * k) zd sd nc)) y = Some y_emb
    /\ Generator.forward (Generator.init pg bc (2 * k) zd sd nc) z y_emb = Some x_gen
    /\ shape x_gen = [Z.of_nat (length y); 3; 64 * k; 64 * k]
    /\ Discriminator.forward (Discriminator.init pd bcd nc) x_gen (Some y) = Some score
    /\ shape score = [Z.of_nat (length y); 1].
Proof.
  intros Sz Hne Hy Hk Hbc Hbcd Hzd.
  assert (HB : 1 <= Z.of_nat (length y)) by (destruct y; [congruence|cbn; lia]).
  destruct (Embedding_forward_shape _ _ _ y
              (generator_init_embedding pg bc (2 * k) zd sd nc) Hy)
    as (y_emb & Ee & Se & _).
  destruct (generator_forward_wide _ z y_emb bc (2 * k) zd sd _ zd
              (generator_init_arch pg bc (2 * k) zd sd nc) Sz Se)
    as (x_gen & Eg & Sg & _); try lia; try divlia.
  replace (2 * k * 32) with (64 * k) in Sg by ring.
  destruct (discriminator_forward_ok _ x_gen y bcd nc k k
              (discriminator_init_arch pd bcd nc) Sg Hy)
    as (score & Es & Ss); try assumption.
  now exists y_emb, x_gen, score.
Qed.

Lemma sample_forward_pass_witness :
  exists y_emb x_gen score,
    nn.Embedding_forward
      (Generator.shared_emb (Generator.init Setup.initial 96 (2 * 2) 120 128 5))
      Setup.y = Some y_emb
    /\ Generator.forward (Generator.init Setup.initial 96 (2 * 2) 120 128 5)
         Setup.z y_emb = Some x_gen
    /\ shape x_gen = [Z.of_nat (length Setup.y); 3; 64 * 2; 64 * 2]
    /\ Discriminator.forward (Discriminator.init Setup.initial 96 5) x_gen
         (Some Setup.y) = Some score
    /\ shape score = [Z.of_nat (length Setup.y); 1].
Proof.
  apply (sample_forward_pass Setup.initial Setup.initial 96 96 2 120 128 5
           Setup.z Setup.y);
    try reflexivity; try lia; try discriminate.
  repeat constructor; lia.
Defined.

Lemma rsum_nat_nonneg (n : nat) (f : Z -> R) :
  (forall k, (0 <= f k)%R) -> (0 <= rsum_nat n f)%R.
Proof.
  intros Hf. induction n as [|n IH]; cbn [rsum_nat]; [lra|].
  pose proof (Hf (Z.of_nat n)). lra.
Qed.

Lemma Rsum_nonneg (n : Z) (f : Z -> R) :
  (forall k, (0 <= f k)%R) -> (0 <= Rsum n f)%R.
Proof. intros Hf. unfold Rsum. now apply rsum_nat_nonneg. Qed.

(** The stack ends in a ReLU, so whatever it returns is non-negative. *)
Lemma sequential_nonneg (schedule : list (Z * Z * bool * bool)) :
  forall (ls : list Discriminator.layer) (x h : Tensor),
    Arch.dstages ls schedule = true ->
    Discriminator.sequential ls x = Some h ->
    forall idx, (0 <= data h idx)%R.
Proof.
  induction schedule as [|[[[ci co] ds] pre] schedule IH]; intros ls x h A E idx.
  - apply dstages_nil in A as ->. cbn in E. injection E as <-.
    cbn [nn.ReLU F.relu torch.map_elems data]. apply Rmax_l.
  - apply dstages_cons in A as (b & a & ls' & -> & _ & _ & Arest).
    cbn [Discriminator.sequential Discriminator.layer_forward] in E.
    destruct (DResidualBlock.forward b x) as [x1|]; [|discriminate].
    cbn [bind] in E.
    destruct (AttentionBlock.forward a x1) as [x2|]; [|discriminate].
    cbn [bind] in E. exact (IH ls' x2 h Arest E idx).
Qed.

(** X16. The pooled features the discriminator scores are non-negative:
    they are sums over space of the output of the final ReLU. *)
Theorem discriminator_features_nonneg (D : Discriminator.t) (x : Tensor)
    (bc nc B kh kw : Z) :
  Arch.discriminator D bc nc = true ->
  shape x = [B; 3; 64 * kh; 64 * kw] -> 8 <= bc -> 1 <= kh -> 1 <= kw ->
  exists h, Discriminator.features D x = Some h
            /\ shape h = [B; 16 * bc]
            /\ forall b_ c, (0 <= data h [b_; c])%R.
Proof.
  intros A Sx Hbc Hkh Hkw.
  destruct (features_ok D x bc nc B kh kw A Sx Hbc Hkh Hkw)
    as (f & h & Ef & _ & Eh & Sh & Dh).
  apply discriminator_arch in A as (_ & _ & As & _).
  exists h. split; [exact Eh|]. split; [exact Sh|].
  intros b_ c. rewrite Dh. apply Rsum_nonneg. intros i. apply Rsum_nonneg.
  intros j. exact (sequential_nonneg _ _ x f As Ef _).
Qed.

Lemma discriminator_features_nonneg_witness :
  exists h, Discriminator.features Setup.discriminator
              (Setup.zeros [5; 3; 64 * 2; 64 * 2]) = Some h
            /\ shape h = [5; 16 * 96]
            /\ forall b_ c, (0 <= data h [b_; c])%R.
Proof.
  apply (discriminator_features_nonneg Setup.discriminator
           (Setup.zeros [5; 3; 64 * 2; 64 * 2]) 96 5 5 2 2);
    try reflexivity; lia.
Defined.

(** X17. The discriminator raises on a label outside [0, n_classes). *)
Theorem discriminator_label_out_of_range (D : Discriminator.t) (x : Tensor)
    (y : list Z) (bc nc l : Z) :
  Arch.discriminator D bc nc = true ->
  In l y -> l < 0 \/ nc <= l ->
  Discriminator.forward D x (Some y) = None.
Proof.
  intros A Hin Hl. apply discriminator_arch in A as (Ae & _).
  apply embedding_arch in Ae as (En & _).
  unfold Discriminator.forward.
  destruct (Discriminator.features D x) as [h|]; [|reflexivity]. cbn [bind].
  destruct (nn.Linear_forward (Discriminator.proj_o D) h) as [u|]; [|reflexivity].
  cbn [bind]. unfold nn.Embedding_forward.
  destruct (forallb _ y) eqn:Ef; [|reflexivity].
  rewrite forallb_forall in Ef. specialize (Ef l Hin).
  rewrite En in Ef. apply andb_true_iff in Ef as (H0 & H1).
  apply Z.leb_le in H0. apply Z.ltb_lt in H1. lia.
Qed.

Lemma discriminator_label_out_of_range_witness :
  Discriminator.forward Setup.discriminator (Setup.zeros [2; 3; 64; 64])
    (Some [0; 5]) = None.
Proof.
  apply (discriminator_label_out_of_range Setup.discriminator
           (Setup.zeros [2; 3; 64; 64]) [0; 5] 96 5 5);
    [reflexivity|right; left; reflexivity|lia].
Defined.

Lemma broadcast_rows_mismatch (n B C : Z) :
  n <> B -> n <> 1 -> B <> 1 -> torch.broadcast_shapes [n; C] [B; C] = None.
Proof.
  intros H1 H2 H3. unfold torch.broadcast_shapes.
  cbn [rev app torch.broadcast_rev bind].
  rewrite (proj2 (Z.eqb_neq _ _) H1), (proj2 (Z.eqb_neq _ _) H2),
    (proj2 (Z.eqb_neq _ _) H3).
  reflexivity.
Qed.

(** X18. With several images and several labels the discriminator raises
    unless there is one label per image. *)
Theorem discriminator_label_count_mismatch (D : Discriminator.t) (x : Tensor)
    (y : list Z) (bc nc B kh kw : Z) :
  Arch.discriminator D bc nc = true ->
  shape x = [B; 3; 64 * kh; 64 * kw] -> 8 <= bc -> 1 <= kh -> 1 <= kw ->
  Z.of_nat (length y) <> B -> Z.of_nat (length y) <> 1 -> B <> 1 ->
  Discriminator.forward D x (Some y) = None.
Proof.
  intros A Sx Hbc Hkh Hkw Hne Hy1 HB1.
  destruct (features_ok D x bc nc B kh kw A Sx Hbc Hkh Hkw)
    as (f & h & _ & _ & Efeat & Sh & _).
  apply discriminator_arch in A as (Ae & _ & _ & Al).
  apply embedding_arch in Ae as (_ & Ed).
  destruct (Linear_forward_shape _ _ _ h B Al Sh) as (u & Eu & _).
  unfold Discriminator.forward. rewrite Efeat. cbn [bind]. rewrite Eu. cbn [bind].
  unfold nn.Embedding_forward.
  destruct (forallb _ y); [|reflexivity]. cbn [bind].
  unfold torch.mul, torch.binop. cbn [shape]. rewrite Sh, Ed.
  now rewrite broadcast_rows_mismatch.
Qed.

Lemma discriminator_label_count_mismatch_witness :
  Discriminator.forward Setup.discriminator (Setup.zeros [3; 3; 64 * 1; 64 * 1])
    (Some [0; 1]) = None.
Proof.
  apply (discriminator_label_count_mismatch Setup.discriminator
           (Setup.zeros [3; 3; 64 * 1; 64 * 1]) [0; 1] 96 5 3 1 1);
    try reflexivity; cbn; lia.
Defined.

(** ** Residual blocks: the skip path *)

(** X19. A discriminator block that keeps channels and resolution (the
    last one of the stack) adds a ReLU output to its input, so no element
    of its output is below the input's. *)
Theorem dres_identity_skip_lower_bound (m : DResidualBlock.t) (x : Tensor)
    (B C H W : Z) (pre : bool) :
  Arch.dres m C C false pre = true ->
  shape x = [B; C; H; W] -> 1 <= H -> 1 <= W ->
  exists out, DResidualBlock.forward m x = Some out
              /\ shape out = shape x
              /\ forall idx, in_range (shape x) idx ->
                   (data x idx <= data out idx)%R.
Proof.
  intros A Sx HH HW.
  apply dres_arch in A as (A1 & Epre & Eds & _ & Em & _).
  rewrite Z.eqb_refl in Em. cbn [negb orb] in Em.
  destruct (conv3x3_shape _ _ _
              (if DResidualBlock.use_preactivation m then F.relu x else x)
              B H W A1) as (h & Eh & Sh); try assumption.
  { now destruct (DResidualBlock.use_preactivation m). }
  destruct (add_same_shape (DResidualBlock.activation h) x) as (out & Eo & So & Do).
  { cbn [DResidualBlock.activation nn.ReLU F.relu torch.map_elems shape].
    now rewrite Sh, Sx. }
  exists out. split; [|split].
  - unfold DResidualBlock.forward, DResidualBlock._residual.
    rewrite Eh. cbn [bind]. rewrite Eds, Em.
    destruct (DResidualBlock.use_preactivation m); cbn [bind]; exact Eo.
  - rewrite So. cbn [DResidualBlock.activation nn.ReLU F.relu torch.map_elems shape].
    now rewrite Sh, Sx.
  - intros idx Hr. rewrite Do.
    + cbn [DResidualBlock.activation nn.ReLU F.relu torch.map_elems data].
      pose proof (Rmax_l 0 (data h idx)). lra.
    + cbn [DResidualBlock.activation nn.ReLU F.relu torch.map_elems shape].
      now rewrite Sh, <- Sx.
Qed.

Lemma dres_identity_skip_lower_bound_witness :
  exists out,
    DResidualBlock.forward (DResidualBlock.init Setup.initial "d" 8 8 false true)
      (Setup.zeros [2; 8; 4; 4]) = Some out
    /\ shape out = shape (Setup.zeros [2; 8; 4; 4])
    /\ forall idx, in_range (shape (Setup.zeros [2; 8; 4; 4])) idx ->
         (data (Setup.zeros [2; 8; 4; 4]%Z) idx <= data out idx)%R.
Proof.
  apply (dres_identity_skip_lower_bound
           (DResidualBlock.init Setup.initial "d" 8 8 false true)
           (Setup.zeros [2; 8; 4; 4]) 2 8 4 4 true);
    try reflexivity; lia.
Defined.



(** ** The discriminator: square images it rejects *)

(** One downsampling stage on an extent 2e: the residual block halves it,
    and the attention block accepts the extent e when e is even. *)
Lemma dstage_even (b : DResidualBlock.t) (a : AttentionBlock.t) (x : Tensor)
    (B ci co e : Z) (pre : bool) :
  Arch.dres b ci co true pre = true -> Arch.attention a co = true ->
  8 <= co -> shape x = [B; ci; 2 * (2 * e); 2 * (2 * e)] -> 1 <= e ->
  exists x2, (x1 <- DResidualBlock.forward b x ;; AttentionBlock.forward a x1)
             = Some x2
             /\ shape x2 = [B; co; 2 * e; 2 * e].
Proof.
  intros Ab Aa Hco Sx He.
  destruct (dres_forward_shape b x B ci co _ _ true pre Ab Sx) as (x1 & E1 & S1);
    try lia.
  replace (2 * (2 * e) / 2) with (2 * e) in S1 by divlia.
  assert (Eh : 2 * e / 2 = e) by divlia.
  destruct (forward_ok a x1 B co _ _ Aa S1 Hco) as (x2 & _ & E2 & S2 & _); try lia.
  { rewrite Eh. replace (2 * e * (2 * e)) with (e * e * 4) by ring.
    now rewrite Z.div_mul by lia. }
  rewrite E1. cbn [bind]. now exists x2.
Qed.

(** The same stage reaching an odd extent: the attention block raises. *)
Lemma dstage_odd (b : DResidualBlock.t) (a : AttentionBlock.t) (x : Tensor)
    (B ci co e : Z) (pre : bool) :
  Arch.dres b ci co true pre = true -> Arch.attention a co = true ->
  8 <= co -> shape x = [B; ci; 2 * e; 2 * e] -> 1 <= B -> 1 <= e ->
  Z.odd e = true ->
  (x1 <- DResidualBlock.forward b x ;; AttentionBlock.forward a x1) = None.
Proof.
  intros Ab Aa Hco Sx HB He Ho.
  apply Z.odd_spec in Ho as (j & ->).
  destruct (dres_forward_shape b x B ci co _ _ true pre Ab Sx) as (x1 & E1 & S1);
    try lia.
  replace (2 * (2 * j + 1) / 2) with (2 * j + 1) in S1 by divlia.
  rewrite E1. cbn [bind].
  apply (forward_fails a x1 B co _ _ Aa S1 HB Hco).
  intros (H2 & _ & Hq).
  replace ((2 * j + 1) / 2) with j in Hq by divlia.
  replace ((2 * j + 1) * (2 * j + 1)) with (1 + (j * j + j) * 4) in Hq by ring.
  rewrite Z.div_add in Hq by lia. change (1 / 4) with 0 in Hq. nia.
Qed.

Lemma discriminator_odd_square_none (D : Discriminator.t) (x : Tensor)
    (y : option (list Z)) (bc nc B m : Z) :
  Arch.discriminator D bc nc = true ->
  shape x = [B; 3; 32 * m; 32 * m] -> 1 <= B -> 1 <= m -> Z.odd m = true ->
  8 <= bc ->
  Discriminator.forward D x y = None.
Proof.
  intros A Sx HB Hm Ho Hbc.
  apply discriminator_arch in A as (_ & _ & As & _).
  unfold Arch.dschedule in As.
  apply dstages_cons in As as (b1 & a1 & l1 & El & Ab1 & Aa1 & As).
  apply dstages_cons in As as (b2 & a2 & l2 & -> & Ab2 & Aa2 & As).
  apply dstages_cons in As as (b3 & a3 & l3 & -> & Ab3 & Aa3 & As).
  apply dstages_cons in As as (b4 & a4 & l4 & -> & Ab4 & Aa4 & As).
  apply dstages_cons in As as (b5 & a5 & l5 & -> & Ab5 & Aa5 & _).
  replace (32 * m) with (2 * (2 * (8 * m))) in Sx by ring.
  destruct (dstage_even b1 a1 x B _ _ _ _ Ab1 Aa1 Hbc Sx) as (x1 & E1 & S1); [lia|].
  replace (2 * (8 * m)) with (2 * (2 * (4 * m))) in S1 by ring.
  destruct (dstage_even b2 a2 x1 B _ _ _ _ Ab2 Aa2 ltac:(lia) S1) as (x2 & E2 & S2);
    [lia|].
  replace (2 * (4 * m)) with (2 * (2 * (2 * m))) in S2 by ring.
  destruct (dstage_even b3 a3 x2 B _ _ _ _ Ab3 Aa3 ltac:(lia) S2) as (x3 & E3 & S3);
    [lia|].
  destruct (dstage_even b4 a4 x3 B _ _ _ _ Ab4 Aa4 ltac:(lia) S3) as (x4 & E4 & S4);
    [lia|].
  pose proof (dstage_odd b5 a5 x4 B _ _ _ _ Ab5 Aa5 ltac:(lia) S4 HB Hm Ho) as E5.
  unfold Discriminator.forward, Discriminator.features. rewrite El.
  cbn [Discriminator.sequential Discriminator.layer_forward].
  destruct (DResidualBlock.forward b1 x) as [t1|]; [|discriminate]. cbn [bind] in *.
  rewrite E1. cbn [bind].
  destruct (DResidualBlock.forward b2 x1) as [t2|]; [|discriminate]. cbn [bind] in *.
  rewrite E2. cbn [bind].
  destruct (DResidualBlock.forward b3 x2) as [t3|]; [|discriminate]. cbn [bind] in *.
  rewrite E3. cbn [bind].
  destruct (DResidualBlock.forward b4 x3) as [t4|]; [|discriminate]. cbn [bind] in *.
  rewrite E4. cbn [bind].
  destruct (DResidualBlock.forward b5 x4) as [t5|]; [|reflexivity]. cbn [bind] in *.
  rewrite E5. reflexivity.
Qed.

(** X21. The discriminator raises on every square image whose side is an
    odd multiple of 32 (96, 160, ...), with or without labels: after five
    halvings the fifth attention block sees an odd extent. *)
Theorem discriminator_rejects_odd_multiples (D : Discriminator.t) (x : Tensor)
    (y : option (list Z)) (bc nc B m : Z) :
  Arch.discriminator D bc nc = true ->
  shape x = [B; 3; 32 * m; 32 * m] -> 1 <= B -> 1 <= m -> Z.odd m = true ->
  8 <= bc ->
  Discriminator.forward D x y = None.
Proof. apply discriminator_odd_square_none. Qed.

Lemma discriminator_rejects_odd_multiples_witness :
  Discriminator.forward Setup.discriminator (Setup.zeros [5; 3; 32 * 3; 32 * 3]) None
  = None.
Proof.
  apply (discriminator_rejects_odd_multiples Setup.discriminator
           (Setup.zeros [5; 3; 32 * 3; 32 * 3]) None 96 5 5 3);
    try reflexivity; lia.
Defined.

(** X22. With an odd bottom width the two networks do not fit together:
    the generator returns images of side 32 * bottom_width, and the
    discriminator raises on them. *)
Theorem odd_bottom_width_images_rejected (pg pd : nn.store)
    (bc bcd bw zd sd nc : Z) (z : Tensor) (y : list Z) (labels : option (list Z)) :
  shape z = [Z.of_nat (length y); zd] ->
  Forall (fun l => 0 <= l < nc) y ->
  1 <= bw -> Z.odd bw = true -> Z.of_nat (length y) * bw * bw <> 1 -> y <> [] ->
  8 <= bc -> 8 <= bcd -> 6 <= zd ->
  exists y_emb x_gen,
    nn.Embedding_forward
      (Generator.shared_emb (Generator.init pg bc bw zd sd nc)) y = Some y_emb
    /\ Generator.forward (Generator.init pg bc bw zd sd nc) z y_emb = Some x_gen
    /\ shape x_gen = [Z.of_nat (length y); 3; 32 * bw; 32 * bw]
    /\ Discriminator.forward (Discriminator.init pd bcd nc) x_gen labels = None.
Proof.
  intros Sz Hy Hbw Ho Hn Hne Hbc Hbcd Hzd.
  assert (HB : 1 <= Z.of_nat (length y)) by (destruct y; [congruence|cbn; lia]).
  destruct (Embedding_forward_shape _ _ _ y
              (generator_init_embedding pg bc bw zd sd nc) Hy)
    as (y_emb & Ee & Se & _).
  destruct (generator_forward_wide _ z y_emb bc bw zd sd _ zd
              (generator_init_arch pg bc bw zd sd nc) Sz Se)
    as (x_gen & Eg & Sg & _); try lia; try divlia.
  replace (bw * 32) with (32 * bw) in Sg by ring.
  exists y_emb, x_gen. repeat (split; [assumption|]).
  exact (discriminator_odd_square_none _ x_gen labels bcd nc _ bw
           (discriminator_init_arch pd bcd nc) Sg HB Hbw Ho Hbcd).
Qed.

Lemma odd_bottom_width_images_rejected_witness :
  exists y_emb x_gen,
    nn.Embedding_forward
      (Generator.shared_emb (Generator.init Setup.initial 96 3 120 128 5))
      Setup.y = Some y_emb
    /\ Generator.forward (Generator.init Setup.initial 96 3 120 128 5)
         Setup.z y_emb = Some x_gen
    /\ shape x_gen = [Z.of_nat (length Setup.y); 3; 32 * 3; 32 * 3]
    /\ Discriminator.forward (Discriminator.init Setup.initial 96 5) x_gen
         (Some Setup.y) = None.
Proof.
  apply (odd_bottom_width_images_rejected Setup.initial Setup.initial
           96 96 3 120 128 5 Setup.z Setup.y (Some Setup.y));
    try reflexivity; try lia; try discriminate.
  repeat constructor; lia.
Defined.

(** ** The discriminator block's skip path does not depend on the order *)



